(* ===================================================================== *)
(*  Peer-link session manager (PeerService): a shallow embedding of the   *)
(*  file-transfer protocol, the reconnection logic and the heartbeat of   *)
(*  utils/peerService.ts, with the caller App.handleConnect.              *)
(* ===================================================================== *)

From Stdlib Require Import ZArith List String Ascii Strings.Byte QArith Lia Bool Sorted.
From stdpp Require Import gmap strings list fin_maps.
Import ListNotations.

Local Open Scope string_scope.
Local Open Scope list_scope.
Local Open Scope Z_scope.

(* --------------------------------------------------------------------- *)
(*  ArrayBuffer contents                                                  *)
(* --------------------------------------------------------------------- *)

(** An [ArrayBuffer] (and the contents of a [File]) is its byte sequence. *)
Definition bytes : Type := list byte.

(** [buf.byteLength], [file.size]. *)
Definition byteLength (b : bytes) : Z := Z.of_nat (length b).

(* --------------------------------------------------------------------- *)
(*  window.crypto.subtle.digest('SHA-256', data), after FIPS 180-4        *)
(* --------------------------------------------------------------------- *)

Module Sha256.

Definition wrap32 (x : Z) : Z := x mod 2 ^ 32.
Definition add32 (x y : Z) : Z := wrap32 (x + y).
Definition rotr (n x : Z) : Z :=
  Z.lor (Z.shiftr x n) (wrap32 (Z.shiftl x (32 - n))).
Definition xor3 (x y z : Z) : Z := Z.lxor (Z.lxor x y) z.

Definition Ch (x y z : Z) : Z :=
  Z.lxor (Z.land x y) (Z.land (Z.lxor x 0xffffffff) z).
Definition Maj (x y z : Z) : Z :=
  xor3 (Z.land x y) (Z.land x z) (Z.land y z).
Definition Sigma0 (x : Z) : Z := xor3 (rotr 2 x) (rotr 13 x) (rotr 22 x).
Definition Sigma1 (x : Z) : Z := xor3 (rotr 6 x) (rotr 11 x) (rotr 25 x).
Definition sigma0 (x : Z) : Z := xor3 (rotr 7 x) (rotr 18 x) (Z.shiftr x 3).
Definition sigma1 (x : Z) : Z := xor3 (rotr 17 x) (rotr 19 x) (Z.shiftr x 10).

(** The first 64 primes, 2 to 311. *)
Definition is_prime (n : nat) : bool :=
  forallb (fun d => negb (Nat.eqb (n mod d) 0)) (seq 2 (n - 2)).
Definition primes : list Z := map Z.of_nat (List.filter is_prime (seq 2 310)).

(** The integer cube root, one bit at a time from bit [b - 1] down. *)
Fixpoint cbrt_from (b : nat) (n r : Z) : Z :=
  match b with
  | O => r
  | S b' =>
      let c := r + 2 ^ Z.of_nat b' in
      cbrt_from b' n (if c * c * c <=? n then c else r)
  end.

(** The round constants: the first 32 bits of the fractional parts of the
    cube roots of the first 64 primes. *)
Definition K : list Z :=
  Eval vm_compute in map (fun p => wrap32 (cbrt_from 40 (p * 2 ^ 96) 0)) primes.

(** Big-endian encoding of [x] on [n] bytes, as numbers below 256. *)
Fixpoint be_bytes (n : nat) (x : Z) : list Z :=
  match n with
  | O => []
  | S n' => (Z.shiftr x (8 * Z.of_nat n')) mod 256 :: be_bytes n' x
  end.

(** Message, the bit 1, zeros up to 56 modulo 64, the bit length on 64 bits. *)
Definition pad (msg : list Z) : list Z :=
  let len := Z.of_nat (length msg) in
  msg ++ [0x80] ++ repeat 0 (Z.to_nat ((55 - len) mod 64)) ++ be_bytes 8 (8 * len).

Fixpoint be_words (fuel : nat) (l : list Z) : list Z :=
  match fuel, l with
  | S fuel', b0 :: b1 :: b2 :: b3 :: rest =>
      (((b0 * 256 + b1) * 256 + b2) * 256 + b3) :: be_words fuel' rest
  | _, _ => []
  end.

(** The message schedule: [w] holds W_0 .. W_(t-1); [n] more words to add. *)
Fixpoint schedule (n : nat) (w : list Z) : list Z :=
  match n with
  | O => w
  | S n' =>
      let t := length w in
      let at_ (k : nat) := nth (t - k) w 0 in
      schedule n'
        (w ++ [add32 (add32 (sigma1 (at_ 2%nat)) (at_ 7%nat))
                     (add32 (sigma0 (at_ 15%nat)) (at_ 16%nat))])
  end.

Record regs : Type := Regs { ra : Z; rb : Z; rc : Z; rd : Z;
                             re : Z; rf : Z; rg : Z; rh : Z }.

Definition round (r : regs) (kw : Z * Z) : regs :=
  let t1 := add32 (add32 (add32 (rh r) (Sigma1 (re r)))
                         (add32 (Ch (re r) (rf r) (rg r)) (fst kw))) (snd kw) in
  let t2 := add32 (Sigma0 (ra r)) (Maj (ra r) (rb r) (rc r)) in
  Regs (add32 t1 t2) (ra r) (rb r) (rc r) (add32 (rd r) t1) (re r) (rf r) (rg r).

Definition compress (h : regs) (block : list Z) : regs :=
  let w := schedule 48 (be_words 16 block) in
  let r := fold_left round (combine K w) h in
  Regs (add32 (ra h) (ra r)) (add32 (rb h) (rb r))
       (add32 (rc h) (rc r)) (add32 (rd h) (rd r))
       (add32 (re h) (re r)) (add32 (rf h) (rf r))
       (add32 (rg h) (rg r)) (add32 (rh h) (rh r)).

Fixpoint blocks (fuel : nat) (h : regs) (l : list Z) : regs :=
  match fuel, l with
  | S fuel', _ :: _ => blocks fuel' (compress h (firstn 64 l)) (skipn 64 l)
  | _, _ => h
  end.

(** The initial hash value: the first 32 bits of the fractional parts of
    the square roots of the first 8 primes. *)
Definition init : regs :=
  match map (fun p => wrap32 (Z.sqrt (p * 2 ^ 64))) (firstn 8 primes) with
  | [a; b; c; d; e; f; g; h] => Regs a b c d e f g h
  | _ => Regs 0 0 0 0 0 0 0 0
  end.

(** The 32 bytes of the digest. *)
Definition digest (data : bytes) : list Z :=
  let m := pad (map (fun b => Z.of_N (Byte.to_N b)) data) in
  let r := blocks (length m) init m in
  flat_map (be_bytes 4)
    [ra r; rb r; rc r; rd r; re r; rf r; rg r; rh r].

End Sha256.

(** [b.toString(16).padStart(2, '0')] for a number [b] below 256. *)
Definition hexDigit (d : Z) : ascii :=
  nth (Z.to_nat d)
      (list_ascii_of_string "0123456789abcdef") "0"%char.

Definition toHex2 (b : Z) : string :=
  String (hexDigit (b / 16)) (String (hexDigit (b mod 16)) EmptyString).

(** [calculateHash]: the SHA-256 digest of the buffer as 64 lower-case hex
    digits. *)
Definition calculateHash (data : bytes) : string :=
  String.concat "" (map toHex2 (Sha256.digest data)).

Arguments calculateHash : simpl never.

(* --------------------------------------------------------------------- *)
(*  types.ts                                                              *)
(* --------------------------------------------------------------------- *)

(** [FileTransfer.status].  The declared union has the first four values;
    [removeFile] casts an object whose status is 'removed'. *)
Inductive Status : Type := Pending | Transferring | Completed | Error | Removed.

Record Chunks : Type := mkChunks { chunks_total : Z; chunks_transferred : Z }.

(** [FileTransfer].  Integer-valued numbers are in [Z]; [progress], [speed]
    and [remainingTime] are quotients and are kept exact in [Q].  (A zero
    divisor gives 0 in [Q] where JS gives Infinity or NaN; the statements
    below take quotients with a positive divisor only.) *)
Record FileTransfer : Type := mkFileTransfer {
  ft_id : string;
  ft_filename : string;
  ft_size : Z;
  ft_progress : Q;
  ft_status : Status;
  ft_error : option string;
  ft_type : string;
  ft_lastModified : Z;
  ft_speed : Q;
  ft_remainingTime : Q;
  ft_chunks : Chunks;
  ft_hash : string
}.

(** What a file-transfer subscriber is handed: a full record, or the object
    literal [{ id, status }] that [removeFile] builds. *)
Inductive TransferObject : Type :=
| Full (t : FileTransfer)
| IdStatus (id : string) (status : Status).

Definition obj_id (o : TransferObject) : string :=
  match o with Full t => ft_id t | IdStatus i _ => i end.
Definition obj_status (o : TransferObject) : Status :=
  match o with Full t => ft_status t | IdStatus _ s => s end.
Definition obj_progress (o : TransferObject) : option Q :=
  match o with Full t => Some (ft_progress t) | IdStatus _ _ => None end.

Record User : Type := mkUser { user_id : string; user_username : string }.

Inductive ConnectionStatusKind : Type := connected | connecting | disconnected.

Record PeerConnection : Type := mkPeerConnection {
  pc_id : string;
  pc_username : string;
  pc_connectionStatus : ConnectionStatusKind
}.

(** A browser [File]: its metadata and its contents. *)
Record File : Type := mkFile {
  file_name : string;
  file_type : string;
  file_lastModified : Z;
  file_data : bytes
}.

Definition file_size (f : File) : Z := byteLength (file_data f).

(** [blob.slice(start, end)] for [0 <= start]: the bytes from [start] up to
    [end], both clamped to the size. *)
Definition slice (data : bytes) (start stop : Z) : bytes :=
  firstn (Z.to_nat (stop - start)) (skipn (Z.to_nat start) data).

(* --------------------------------------------------------------------- *)
(*  Messages on a data channel                                            *)
(* --------------------------------------------------------------------- *)

Inductive Message : Type :=
| Heartbeat (timestamp : Z)
| HeartbeatAck (timestamp : Z)
| Disconnect (reason : string)
| FileStart (transfer : FileTransfer)
| FileChunk (fileId : string) (data : bytes) (offset : Z) (hash : string)
| FileEnd (fileId : string) (hash : string)
| OtherMessage (type : string).

(** A PeerJS [DataConnection]: the remote peer and the [open] flag. *)
Record DataConnection : Type := mkConn { conn_peer : string; conn_open : bool }.

(** What the channel provider answers to a dial. *)
Inductive DialResult : Type :=
| Opened
| Failed (message : string).

(* --------------------------------------------------------------------- *)
(*  The service object and its surroundings                               *)
(* --------------------------------------------------------------------- *)

Definition Listener : Type := nat.
Definition TimerId : Type := nat.

(** The closures handed to [setTimeout]. *)
Inductive Callback : Type :=
| CbTryReconnect (peerId : string)
| CbHeartbeatCheck (peerId : string).

Record Timer : Type := mkTimer {
  timer_id : TimerId;
  timer_cb : Callback;
  timer_delay : Z
}.

Record ConnectionState : Type := mkConnectionState {
  isConnecting : bool;
  lastError : option string
}.

(** Everything the code does to the outside, in the order it does it. *)
Inductive Effect : Type :=
| Send (peer : string) (m : Message)
| CloseConn (peer : string)
| Dial (remotePeerId : string)
| TransferUpdate (l : Listener) (t : TransferObject)
| ConnectionStatus (l : Listener) (peerId username : string)
                   (isConnected : bool) (reason : option string)
| PeersUpdate (l : Listener) (peers : list PeerConnection)
| ErrorEvent (l : Listener) (message : string)
| ShowNotification (title body : string)
| SetTimeout (id : TimerId) (cb : Callback) (delay : Z)
| ClearTimeout (id : TimerId)
| Download (filename type : string) (data : bytes)
| ToastError (text : string)
| ToastSuccess (text : string)
| UnhandledRejection (message : string).

(** The fields of [class PeerService].  [connections] is a JS [Map] that is
    iterated, so it keeps insertion order; the other maps are only read by
    key.  [peer] holds the local id once the [Peer] exists. *)
Record PeerService : Type := mkPeerService {
  peer : option string;
  connections : list (string * DataConnection);
  fileTransferListeners : list Listener;
  connectionListeners : list Listener;
  peersUpdateListeners : list Listener;
  errorListeners : list Listener;
  reconnectAttempts : gmap string Z;
  reconnectTimeouts : gmap string TimerId;
  connectionStates : gmap string ConnectionState;
  fileData : gmap string bytes
}.

(** The state of [App] that [handleConnect] reads and writes, and the
    handle of the callback [App] hands to [onConnection] once [initialize]
    has resolved (part_000 l.22). *)
Record App : Type := mkApp {
  currentUser : option User;
  appIsConnecting : bool;
  appSubscription : option Listener
}.

(** What [showNotification] asks the browser: ['Notification' in window],
    [Notification.permission] and [document.hidden]. *)
Inductive Permission : Type := PermissionDefault | PermissionGranted | PermissionDenied.

Record Browser : Type := mkBrowser {
  hasNotification : bool;
  notificationPermission : Permission;
  documentHidden : bool
}.

(** The service together with [localStorage] (transfer records are stored
    as JSON and read back, here as the record itself), the armed timers,
    the UI state, the browser and the log of effects. *)
Record World : Type := mkWorld {
  service : PeerService;
  localStorage : gmap string FileTransfer;
  timers : list Timer;
  nextTimer : TimerId;
  app : App;
  browser : Browser;
  effects : list Effect
}.

(** Field updates. *)
Definition with_service (f : PeerService -> PeerService) (w : World) : World :=
  mkWorld (f (service w)) (localStorage w) (timers w) (nextTimer w) (app w) (browser w) (effects w).
Definition with_localStorage
    (f : gmap string FileTransfer -> gmap string FileTransfer) (w : World) : World :=
  mkWorld (service w) (f (localStorage w)) (timers w) (nextTimer w) (app w) (browser w) (effects w).
Definition with_timers (f : list Timer -> list Timer) (w : World) : World :=
  mkWorld (service w) (localStorage w) (f (timers w)) (nextTimer w) (app w) (browser w) (effects w).
Definition with_nextTimer (n : TimerId) (w : World) : World :=
  mkWorld (service w) (localStorage w) (timers w) n (app w) (browser w) (effects w).
Definition with_app (f : App -> App) (w : World) : World :=
  mkWorld (service w) (localStorage w) (timers w) (nextTimer w) (f (app w)) (browser w) (effects w).
Definition with_effects (f : list Effect -> list Effect) (w : World) : World :=
  mkWorld (service w) (localStorage w) (timers w) (nextTimer w) (app w) (browser w) (f (effects w)).

Definition with_connections
    (f : list (string * DataConnection) -> list (string * DataConnection))
    (s : PeerService) : PeerService :=
  mkPeerService (peer s) (f (connections s)) (fileTransferListeners s)
    (connectionListeners s) (peersUpdateListeners s) (errorListeners s)
    (reconnectAttempts s) (reconnectTimeouts s) (connectionStates s) (fileData s).
Definition with_fileTransferListeners (f : list Listener -> list Listener)
    (s : PeerService) : PeerService :=
  mkPeerService (peer s) (connections s) (f (fileTransferListeners s))
    (connectionListeners s) (peersUpdateListeners s) (errorListeners s)
    (reconnectAttempts s) (reconnectTimeouts s) (connectionStates s) (fileData s).
Definition with_reconnectAttempts (f : gmap string Z -> gmap string Z)
    (s : PeerService) : PeerService :=
  mkPeerService (peer s) (connections s) (fileTransferListeners s)
    (connectionListeners s) (peersUpdateListeners s) (errorListeners s)
    (f (reconnectAttempts s)) (reconnectTimeouts s) (connectionStates s) (fileData s).
Definition with_reconnectTimeouts (f : gmap string TimerId -> gmap string TimerId)
    (s : PeerService) : PeerService :=
  mkPeerService (peer s) (connections s) (fileTransferListeners s)
    (connectionListeners s) (peersUpdateListeners s) (errorListeners s)
    (reconnectAttempts s) (f (reconnectTimeouts s)) (connectionStates s) (fileData s).
Definition with_connectionStates
    (f : gmap string ConnectionState -> gmap string ConnectionState)
    (s : PeerService) : PeerService :=
  mkPeerService (peer s) (connections s) (fileTransferListeners s)
    (connectionListeners s) (peersUpdateListeners s) (errorListeners s)
    (reconnectAttempts s) (reconnectTimeouts s) (f (connectionStates s)) (fileData s).
Definition with_fileData (f : gmap string bytes -> gmap string bytes)
    (s : PeerService) : PeerService :=
  mkPeerService (peer s) (connections s) (fileTransferListeners s)
    (connectionListeners s) (peersUpdateListeners s) (errorListeners s)
    (reconnectAttempts s) (reconnectTimeouts s) (connectionStates s) (f (fileData s)).

(* --------------------------------------------------------------------- *)
(*  Code that reads and writes the world and may throw                    *)
(* --------------------------------------------------------------------- *)

Inductive Result (A : Type) : Type :=
| Ok (a : A)
| Throw (message : string).
Arguments Ok {A} a.
Arguments Throw {A} message.

Definition M (A : Type) : Type := World -> Result A * World.

Definition ret {A} (a : A) : M A := fun w => (Ok a, w).
Definition throw {A} (message : string) : M A := fun w => (Throw message, w).
Definition bind {A B} (m : M A) (k : A -> M B) : M B :=
  fun w => match m w with
           | (Ok a, w') => k a w'
           | (Throw e, w') => (Throw e, w')
           end.
(** [try { m } catch (error) { h error.message }] *)
Definition tryCatch {A} (m : M A) (h : string -> M A) : M A :=
  fun w => match m w with
           | (Ok a, w') => (Ok a, w')
           | (Throw e, w') => h e w'
           end.
Definition gets {A} (f : World -> A) : M A := fun w => (Ok (f w), w).
Definition modify (f : World -> World) : M unit := fun w => (Ok tt, f w).
Definition emit (es : list Effect) : M unit :=
  modify (with_effects (fun log => log ++ es)).

Declare Scope js_scope.
Delimit Scope js_scope with js.
Notation "'let*' x ':=' m 'in' k" := (bind m (fun x => k))
  (at level 10, x name, m at level 100, k at level 200) : js_scope.
Notation "m '>>' k" := (bind m (fun _ => k))
  (at level 100, k at level 200, right associativity) : js_scope.
Local Open Scope js_scope.

(** Running an [async] function whose promise nobody awaits: a rejection is
    left unhandled. *)
Definition detached {A} (m : M A) : World -> World :=
  fun w => match m w with
           | (Ok _, w') => w'
           | (Throw e, w') => with_effects (fun log => log ++ [UnhandledRejection e]) w'
           end.

(** [l.forEach(f)] *)
Fixpoint forEach {A} (f : A -> M unit) (l : list A) : M unit :=
  match l with
  | [] => ret tt
  | x :: rest => f x >> forEach f rest
  end.

(** The world with an empty log. *)
Definition clearLog (w : World) : World := with_effects (fun _ => []) w.

(** A JS [Map] in insertion order. *)
Fixpoint map_get {V} (k : string) (m : list (string * V)) : option V :=
  match m with
  | [] => None
  | (k', v) :: rest => if String.eqb k k' then Some v else map_get k rest
  end.
Fixpoint map_set {V} (k : string) (v : V) (m : list (string * V)) : list (string * V) :=
  match m with
  | [] => [(k, v)]
  | (k', v') :: rest =>
      if String.eqb k k' then (k, v) :: rest else (k', v') :: map_set k v rest
  end.
Definition map_delete {V} (k : string) (m : list (string * V)) : list (string * V) :=
  List.filter (fun kv => negb (String.eqb k (fst kv))) m.
Definition map_has {V} (k : string) (m : list (string * V)) : bool :=
  match map_get k m with Some _ => true | None => false end.

(** [setTimeout(cb, delay)] and [clearTimeout(id)]. *)
Definition setTimeout (cb : Callback) (delay : Z) : M TimerId :=
  let* id := gets nextTimer in
  modify (fun w => with_nextTimer (S id)
                     (with_timers (fun ts => ts ++ [mkTimer id cb delay]) w)) >>
  emit [SetTimeout id cb delay] >>
  ret id.
Definition clearTimeout (id : TimerId) : M unit :=
  modify (with_timers (List.filter (fun t => negb (Nat.eqb (timer_id t) id)))) >>
  emit [ClearTimeout id].

(* --------------------------------------------------------------------- *)
(*  peerService.ts                                                        *)
(* --------------------------------------------------------------------- *)

Definition CHUNK_SIZE : Z := 512 * 1024.
Definition MAX_RECONNECT_ATTEMPTS : Z := 5.

(** [Math.ceil(a / b)] for integers [0 <= a], [0 < b]. *)
Definition ceilDiv (a b : Z) : Z := (a + b - 1) / b.

(** [(a / s) * 100], the progress percentage. *)
Definition percent (a s : Z) : Q := (inject_Z a / inject_Z s * 100)%Q.

(** The key [`transfer_${fileId}`]. *)
Definition transferKey (fileId : string) : string := "transfer_" +:+ fileId.

Definition notifyFileTransfer (transfer : TransferObject) : M unit :=
  let* ls := gets (fun w => fileTransferListeners (service w)) in
  emit (map (fun l => TransferUpdate l transfer) ls).

Definition notifyConnectionStatus (peerId username : string) (isConnected : bool)
    (reason : option string) : M unit :=
  let* ls := gets (fun w => connectionListeners (service w)) in
  emit (map (fun l => ConnectionStatus l peerId username isConnected reason) ls).

Definition notifyError (message : string) : M unit :=
  let* ls := gets (fun w => errorListeners (service w)) in
  emit (map (fun l => ErrorEvent l message) ls).

Definition updatePeersList : M unit :=
  let* conns := gets (fun w => connections (service w)) in
  let peers :=
    map (fun kv : string * DataConnection =>
           mkPeerConnection (fst kv) ("Peer-" +:+ String.substring 0 4 (fst kv))
             (if conn_open (snd kv) then connected else disconnected)) conns in
  let* ls := gets (fun w => peersUpdateListeners (service w)) in
  emit (map (fun l => PeersUpdate l peers) ls).

(** The test of [showNotification]. *)
Definition notifies (w : World) : bool :=
  hasNotification (browser w) &&
  match notificationPermission (browser w) with
  | PermissionGranted => true
  | _ => false
  end &&
  documentHidden (browser w).

Definition showNotification (title body : string) : M unit :=
  let* shown := gets notifies in
  if shown then emit [ShowNotification title body] else ret tt.

Definition onFileTransfer (callback : Listener) : M unit :=
  modify (with_service (with_fileTransferListeners (fun ls => ls ++ [callback]))).

(** ** Receiving a file *)

Definition handleFileStart (transfer : FileTransfer) : M unit :=
  modify (with_localStorage <[transferKey (ft_id transfer) := transfer]>) >>
  notifyFileTransfer (Full transfer).

Definition handleFileChunk (fileId : string) (chunk : bytes) (chunkHash : string)
    : M unit :=
  let calculatedHash := calculateHash chunk in
  if negb (String.eqb calculatedHash chunkHash) then
    throw "Chunk integrity check failed"
  else
    let* transferStr := gets (fun w => localStorage w !! transferKey fileId) in
    match transferStr with
    | None => ret tt
    | Some transfer =>
        let* existingData :=
          gets (fun w => default [] (fileData (service w) !! fileId)) in
        let newData := existingData ++ chunk in
        modify (with_service (with_fileData <[fileId := newData]>)) >>
        let transferred' := chunks_transferred (ft_chunks transfer) + 1 in
        let total := chunks_total (ft_chunks transfer) in
        let transfer' :=
          mkFileTransfer (ft_id transfer) (ft_filename transfer) (ft_size transfer)
            (percent transferred' total)
            (ft_status transfer) (ft_error transfer) (ft_type transfer)
            (ft_lastModified transfer) (ft_speed transfer)
            (ft_remainingTime transfer)
            (mkChunks total transferred') (ft_hash transfer) in
        modify (with_localStorage <[transferKey fileId := transfer']>) >>
        notifyFileTransfer (Full transfer')
    end.

Definition handleFileEnd (fileId : string) (fileHash : string) : M unit :=
  let* transferStr := gets (fun w => localStorage w !! transferKey fileId) in
  match transferStr with
  | None => ret tt
  | Some transfer =>
      let transfer' :=
        if negb (String.eqb (ft_hash transfer) fileHash) then
          mkFileTransfer (ft_id transfer) (ft_filename transfer) (ft_size transfer)
            (ft_progress transfer) Error (Some "File integrity check failed")
            (ft_type transfer) (ft_lastModified transfer) (ft_speed transfer)
            (ft_remainingTime transfer) (ft_chunks transfer) (ft_hash transfer)
        else
          mkFileTransfer (ft_id transfer) (ft_filename transfer) (ft_size transfer)
            100%Q Completed (ft_error transfer)
            (ft_type transfer) (ft_lastModified transfer) (ft_speed transfer)
            (ft_remainingTime transfer) (ft_chunks transfer) (ft_hash transfer) in
      modify (with_localStorage <[transferKey fileId := transfer']>) >>
      notifyFileTransfer (Full transfer')
  end.

(** The ['data'] handler that [handleConnection] installs on [conn].  A
    file-end message has no [filename] field, so the template literal of
    its notification reads "undefined". *)
Definition onData (conn : DataConnection) (data : Message) : M unit :=
  match data with
  | Heartbeat timestamp => emit [Send (conn_peer conn) (HeartbeatAck timestamp)]
  | Disconnect reason =>
      notifyConnectionStatus (conn_peer conn) "Unknown" false (Some reason) >>
      emit [CloseConn (conn_peer conn)]
  | FileStart transfer =>
      handleFileStart transfer >>
      showNotification "New File Transfer" ("Receiving: " +:+ ft_filename transfer)
  | FileChunk fileId chunk _ hash => handleFileChunk fileId chunk hash
  | FileEnd fileId hash =>
      handleFileEnd fileId hash >>
      showNotification "File Received" "undefined has been received"
  | HeartbeatAck _ => ret tt
  | OtherMessage _ => ret tt
  end.

(** The handler of one ['data'] event, run from its first line to its
    last with nothing else in between.  For a file-chunk that is the run
    from the moment its digest resolves: before its [await] the handler
    has read and written nothing.  Nobody awaits the handler, so what it
    throws is an unhandled rejection. *)
Definition dataEvent (conn : DataConnection) (data : Message) : World -> World :=
  detached (onData conn data).

(** The messages [msgs] handled one after the other, in this order.  It is
    the order of arrival when every digest resolves before the next
    message arrives; [handled] below gives the order in general. *)
Definition receive (conn : DataConnection) (msgs : list Message) (w : World) : World :=
  fold_left (fun w m => dataEvent conn m w) msgs w.

(** ** The receiver and its pending digests *)

(** [handleFileChunk] awaits [calculateHash] before anything else, and the
    next ['data'] event is not held back for it: a chunk that has arrived
    does nothing until its digest resolves, and what arrives meanwhile is
    handled first.  [handleFileStart] and [handleFileEnd] have no [await]
    before their writes.  [rx_pending] holds the chunks whose digest is
    awaited, oldest first. *)
Record Receiver : Type := mkReceiver {
  rx_world : World;
  rx_pending : list Message
}.

(** What happens at the receiver: a ['data'] event, or the digest of the
    [k]-th pending chunk resolves (in whatever order the browser computes
    them). *)
Inductive Tick : Type :=
| Arrive (data : Message)
| Resolve (k : nat).

Definition isChunk (data : Message) : bool :=
  match data with
  | FileChunk _ _ _ _ => true
  | _ => false
  end.

Definition rxStep (conn : DataConnection) (r : Receiver) (t : Tick) : Receiver :=
  match t with
  | Arrive data =>
      if isChunk data then mkReceiver (rx_world r) (rx_pending r ++ [data])
      else mkReceiver (dataEvent conn data (rx_world r)) (rx_pending r)
  | Resolve k =>
      match rx_pending r !! k with
      | Some data => mkReceiver (dataEvent conn data (rx_world r)) (delete k (rx_pending r))
      | None => r
      end
  end.

Definition deliver (conn : DataConnection) (ticks : list Tick) (r : Receiver) : Receiver :=
  fold_left (rxStep conn) ticks r.

(** The messages of a schedule in the order they arrive, ... *)
Definition arrivals (ticks : list Tick) : list Message :=
  omap (fun t => match t with Arrive data => Some data | Resolve _ => None end) ticks.

(** ... and in the order their handlers run, with [pending] awaited at the
    start. *)
Fixpoint handled (pending : list Message) (ticks : list Tick) : list Message :=
  match ticks with
  | [] => []
  | Arrive data :: rest =>
      if isChunk data then handled (pending ++ [data]) rest
      else data :: handled pending rest
  | Resolve k :: rest =>
      match pending !! k with
      | Some data => data :: handled (delete k pending) rest
      | None => handled pending rest
      end
  end.

(** The schedule on which every digest resolves before the next message
    arrives. *)
Definition promptly (msgs : list Message) : list Tick :=
  flat_map (fun data => if isChunk data then [Arrive data; Resolve 0%nat]
                        else [Arrive data]) msgs.

(** A schedule that is run to its end: with [n] digests awaited, every
    [Resolve] names one of them, and none is left when the schedule ends. *)
Fixpoint complete (n : nat) (ticks : list Tick) : bool :=
  match ticks with
  | [] => Nat.eqb n 0
  | Arrive data :: rest => complete (if isChunk data then S n else n) rest
  | Resolve k :: rest => Nat.ltb k n && complete (Nat.pred n) rest
  end.

Definition downloadFile (fileId : string) : M unit :=
  let* transferStr := gets (fun w => localStorage w !! transferKey fileId) in
  match transferStr with
  | None => throw "File not found"
  | Some transfer =>
      let* data := gets (fun w => fileData (service w) !! fileId) in
      match data with
      | None => throw "File data not found"
      | Some fileData => emit [Download (ft_filename transfer) (ft_type transfer) fileData]
      end
  end.

Definition removeFile (fileId : string) : M unit :=
  modify (with_localStorage (delete (transferKey fileId))) >>
  modify (with_service (with_fileData (delete fileId))) >>
  notifyFileTransfer (IdStatus fileId Removed).

(** ** Sending a file *)

(** [readNextChunk] together with [reader.onload], which calls it again.
    [clock k] is what the [k]-th call of [Date.now()] returns.  The result
    of reading a slice is an [ArrayBuffer], which is never falsy, so the
    early [return] of [onload] is not taken.  [timeDiff >= 0.1] is
    [now - lastUpdate >= 100] on the millisecond clock.  Each round reads
    at least one byte; [fuel] bounds the number of rounds, and with the
    fuel [sendFile] gives (the size of the file) the loop reaches file-end
    ([sendFile_run] below).  The [throw] for a missing record is the
    TypeError of [updatedTransfer.chunks.transferred = ...] on [{}]. *)
Fixpoint readNextChunk (fuel : nat) (file : File) (peerId fileId fileHash : string)
    (clock : nat -> Z) (tick : nat) (offset lastUpdate bytesTransferred : Z)
    : M unit :=
  if file_size file <=? offset then
    emit [Send peerId (FileEnd fileId fileHash)]
  else
    match fuel with
    | O => throw "out of fuel"
    | S fuel' =>
        let chunkData := slice (file_data file) offset (offset + CHUNK_SIZE) in
        let chunkHash := calculateHash chunkData in
        emit [Send peerId (FileChunk fileId chunkData offset chunkHash)] >>
        let offset' := offset + byteLength chunkData in
        let bytesTransferred' := bytesTransferred + byteLength chunkData in
        let now := clock tick in
        if 100 <=? now - lastUpdate then
          let timeDiff := (inject_Z (now - lastUpdate) / 1000)%Q in
          let speed := (inject_Z bytesTransferred' / timeDiff)%Q in
          let remainingBytes := file_size file - offset' in
          let remainingTime := (inject_Z remainingBytes / speed)%Q in
          let* stored := gets (fun w => localStorage w !! transferKey fileId) in
          match stored with
          | None => throw "Cannot set properties of undefined"
          | Some t =>
              let updatedTransfer :=
                mkFileTransfer (ft_id t) (ft_filename t) (ft_size t)
                  (percent offset' (file_size file))
                  (ft_status t) (ft_error t) (ft_type t) (ft_lastModified t)
                  speed remainingTime
                  (mkChunks (chunks_total (ft_chunks t)) (ceilDiv offset' CHUNK_SIZE))
                  (ft_hash t) in
              modify (with_localStorage <[transferKey fileId := updatedTransfer]>) >>
              notifyFileTransfer (Full updatedTransfer) >>
              readNextChunk fuel' file peerId fileId fileHash clock (S tick)
                offset' now 0
          end
        else
          readNextChunk fuel' file peerId fileId fileHash clock (S tick)
            offset' lastUpdate bytesTransferred'
    end.

(** The record [sendFile] builds for a file before it sends anything. *)
Definition newTransfer (fileId : string) (file : File) (fileHash : string)
    : FileTransfer :=
  mkFileTransfer fileId (file_name file) (file_size file) 0%Q Transferring None
    (if String.eqb (file_type file) "" then "application/octet-stream"
     else file_type file)
    (file_lastModified file) 0%Q 0%Q
    (mkChunks (ceilDiv (file_size file) CHUNK_SIZE) 0) fileHash.

(** [sendFile(file, peerId)]; [fileId] is what [generateFileId] draws.  The
    promise settles once the first read is started; the chunk loop runs
    from the reader's events. *)
Definition sendFile (fileId : string) (clock : nat -> Z) (file : File)
    (peerId : string) : M unit :=
  let* conn := gets (fun w => map_get peerId (connections (service w))) in
  match conn with
  | None => throw "No connection to peer"
  | Some conn =>
      let fileHash := calculateHash (file_data file) in
      let transfer := newTransfer fileId file fileHash in
      modify (with_localStorage <[transferKey fileId := transfer]>) >>
      emit [Send (conn_peer conn) (FileStart transfer)] >>
      modify (detached
                (readNextChunk (length (file_data file)) file (conn_peer conn)
                   fileId fileHash clock 1%nat 0 (clock 0%nat) 0))
  end.

(** ** Connections *)

Definition handleConnection (conn : DataConnection) : M unit :=
  modify (with_service (with_connections (map_set (conn_peer conn) conn))) >>
  notifyConnectionStatus (conn_peer conn) "Unknown" true None >>
  updatePeersList.

(** [connect] up to the promise it returns, ... *)
Definition connect_begin (remotePeerId : string) : M unit :=
  let* p := gets (fun w => peer (service w)) in
  match p with
  | None => throw "Peer not initialized"
  | Some _ => emit [Dial remotePeerId]
  end.

(** ... and the promise's settling on the connection's 'open' or 'error'. *)
Definition connect_resume (remotePeerId : string) (answer : DialResult) : M unit :=
  match answer with
  | Opened => handleConnection (mkConn remotePeerId true)
  | Failed message => throw message
  end.

Definition connect (answer : DialResult) (remotePeerId : string) : M unit :=
  connect_begin remotePeerId >> connect_resume remotePeerId answer.

(** [setIsConnecting(b)] *)
Definition setIsConnecting (b : bool) : M unit :=
  modify (with_app (fun a => mkApp (currentUser a) b (appSubscription a))).

(** The callback [App] hands to [onConnection] (part_000 l.22-29). *)
Definition appOnConnection (username : string) (isConnected : bool) : M unit :=
  if isConnected then
    emit [ToastSuccess ("Connected to " +:+ username +:+ "!")] >>
    setIsConnecting false
  else emit [ToastError ("Disconnected from " +:+ username)].

(** Whether the subscriber [l] is [App]'s callback. *)
Definition isAppSubscriber (subscription : option Listener) (l : Listener) : bool :=
  match subscription with
  | Some l' => Nat.eqb l l'
  | None => false
  end.

(** What [App] does when the service calls the subscriber [l]: its own
    callback runs; the others are not [App]'s. *)
Definition appReacts (e : Effect) : M unit :=
  match e with
  | ConnectionStatus l _ username isConnected _ =>
      let* subscription := gets (fun w => appSubscription (app w)) in
      if isAppSubscriber subscription l
      then appOnConnection username isConnected
      else ret tt
  | _ => ret tt
  end.

(** [m] with [App]'s subscriber in place.  The service logs each call of a
    subscriber, and the callback of [App] runs inside that call.  It
    writes [isConnecting] and the toaster only, neither of which the
    service reads, so it is run here over the calls [m] has logged, each
    right after its call.  (The callback [App] hands to [onPeersUpdate]
    writes [connectedPeers], which is not part of this state.) *)
Definition withAppSubscriber {A} (m : M A) : M A :=
  fun w =>
    match m (clearLog w) with
    | (r, w') =>
        (r, snd (forEach (fun e => emit [e] >> appReacts e) (effects w')
                   (with_effects (fun _ => effects w) w')))
    end.

(** Whether [App]'s callback is among the connection-status subscribers. *)
Definition appSubscribed (w : World) : bool :=
  existsb (isAppSubscriber (appSubscription (app w))) (connectionListeners (service w)).

(** [App.handleConnect], with the provider's answer to the dial. *)
Definition handleConnect (answer : DialResult) (remotePeerId : string) : M unit :=
  let* user := gets (fun w => currentUser (app w)) in
  if match user with
     | Some u => String.eqb remotePeerId (user_id u)
     | None => false
     end
  then emit [ToastError "You can't connect to yourself!"]
  else
    setIsConnecting true >>
    tryCatch (withAppSubscriber (connect answer remotePeerId))
      (fun message =>
         emit [ToastError ("Connection failed: " +:+ message)] >>
         setIsConnecting false).

(** ** Reconnection *)

(** A [tryReconnect] suspended at [await this.connect(peerId)]: the local
    [attempts] it read, and the rejection when [connect] threw at once. *)
Record Suspension : Type := mkSuspension {
  sus_peerId : string;
  sus_attempts : Z;
  sus_rejected : option string
}.

(** [tryReconnect] down to the [await].  [None]: it returned before. *)
Definition tryReconnect_begin (peerId : string) : M (option Suspension) :=
  let* existingTimeout := gets (fun w => reconnectTimeouts (service w) !! peerId) in
  match existingTimeout with
  | Some t =>
      clearTimeout t >>
      modify (with_service (with_reconnectTimeouts (delete peerId)))
  | None => ret tt
  end >>
  let* state :=
    gets (fun w => default (mkConnectionState false None)
                     (connectionStates (service w) !! peerId)) in
  if isConnecting state then ret None
  else
    let* attempts := gets (fun w => default 0 (reconnectAttempts (service w) !! peerId)) in
    if MAX_RECONNECT_ATTEMPTS <=? attempts then
      notifyConnectionStatus peerId "Unknown" false
        (Some "Max reconnection attempts reached") >>
      ret None
    else
      modify (with_service (with_connectionStates
                <[peerId := mkConnectionState true (lastError state)]>)) >>
      modify (with_service (with_reconnectAttempts <[peerId := attempts + 1]>)) >>
      tryCatch
        (connect_begin peerId >> ret (Some (mkSuspension peerId attempts None)))
        (fun message => ret (Some (mkSuspension peerId attempts (Some message)))).

(** The [catch] branch.  [state] is the object stored in [connectionStates]
    before the [await]; both its fields are overwritten here. *)
Definition tryReconnect_catch (peerId : string) (attempts : Z) (message : string)
    : M unit :=
  modify (with_service (with_connectionStates
            <[peerId := mkConnectionState false (Some message)]>)) >>
  let* timeout :=
    setTimeout (CbTryReconnect peerId) (Z.min (1000 * 2 ^ attempts) 30000) in
  modify (with_service (with_reconnectTimeouts <[peerId := timeout]>)).

(** [tryReconnect] from the [await] on. *)
Definition tryReconnect_resume (s : Suspension) (answer : DialResult) : M unit :=
  match sus_rejected s with
  | Some message => tryReconnect_catch (sus_peerId s) (sus_attempts s) message
  | None =>
      match answer with
      | Opened =>
          handleConnection (mkConn (sus_peerId s) true) >>
          modify (with_service (with_reconnectAttempts (delete (sus_peerId s)))) >>
          modify (with_service (with_connectionStates
                    <[sus_peerId s := mkConnectionState false None]>))
      | Failed message => tryReconnect_catch (sus_peerId s) (sus_attempts s) message
      end
  end.

(** A whole [tryReconnect], the provider answering [answer] to its dial. *)
Definition tryReconnect (answer : DialResult) (peerId : string) : M unit :=
  let* s := tryReconnect_begin peerId in
  match s with
  | None => ret tt
  | Some s => tryReconnect_resume s answer
  end.

(** ** Heartbeat *)

Definition handleConnectionTimeout (peerId : string) : M (option Suspension) :=
  let* state := gets (fun w => connectionStates (service w) !! peerId) in
  match state with
  | Some st =>
      modify (with_service (with_connectionStates
                <[peerId := mkConnectionState (isConnecting st) (Some "heartbeat-timeout")]>))
  | None => ret tt
  end >>
  notifyConnectionStatus peerId "Unknown" false (Some "Connection timeout") >>
  tryReconnect_begin peerId.

(** The closure armed for 5000 ms after each heartbeat. *)
Definition heartbeatCheck (peerId : string) : M (option Suspension) :=
  let* has := gets (fun w => map_has peerId (connections (service w))) in
  let* state := gets (fun w => connectionStates (service w) !! peerId) in
  let timedOutBefore :=
    match state with
    | Some st =>
        match lastError st with
        | Some e => String.eqb e "heartbeat-timeout"
        | None => false
        end
    | None => false
    end in
  if has && negb timedOutBefore then handleConnectionTimeout peerId else ret None.

(** The [forEach] of one round of [startHeartbeat].  [Date.now()] is read
    once for each open connection: [clock k] is what its [k]-th call in the
    round returns. *)
Fixpoint heartbeatRound (clock : nat -> Z) (k : nat)
    (conns : list (string * DataConnection)) : M unit :=
  match conns with
  | [] => ret tt
  | kv :: rest =>
      if conn_open (snd kv) then
        let startTime := clock k in
        emit [Send (conn_peer (snd kv)) (Heartbeat startTime)] >>
        setTimeout (CbHeartbeatCheck (fst kv)) 5000 >>
        heartbeatRound clock (S k) rest
      else heartbeatRound clock k rest
  end.

(** One round of the 10 s interval of [startHeartbeat]. *)
Definition heartbeatTick (clock : nat -> Z) : M unit :=
  let* conns := gets (fun w => connections (service w)) in
  heartbeatRound clock 0 conns.

(** ** Events *)

Definition runCallback (cb : Callback) : M (option Suspension) :=
  match cb with
  | CbTryReconnect peerId => tryReconnect_begin peerId
  | CbHeartbeatCheck peerId => heartbeatCheck peerId
  end.

(** The timer [id] expires: it is disarmed and its closure runs.  A timer
    that was cleared does nothing. *)
Definition fireTimer (id : TimerId) : M (option Suspension) :=
  let* ts := gets timers in
  match List.find (fun t => Nat.eqb (timer_id t) id) ts with
  | None => ret None
  | Some t =>
      modify (with_timers (List.filter (fun t => negb (Nat.eqb (timer_id t) id)))) >>
      runCallback (timer_cb t)
  end.

(** The ['close'] and ['error'] handlers that [handleConnection] installs. *)
Definition onClose (conn : DataConnection) : M (option Suspension) :=
  modify (with_service (with_connections (map_delete (conn_peer conn)))) >>
  notifyConnectionStatus (conn_peer conn) "Unknown" false (Some "Connection closed") >>
  let* s := tryReconnect_begin (conn_peer conn) in
  updatePeersList >>
  ret s.

Definition onError (conn : DataConnection) (message : string) : M unit :=
  notifyError message >>
  notifyConnectionStatus (conn_peer conn) "Unknown" false (Some message).

(* --------------------------------------------------------------------- *)
(*  peerService.ts: the operations around the ones above                  *)
(* --------------------------------------------------------------------- *)

Definition disconnect (peerId : string) : M unit :=
  let* conn := gets (fun w => map_get peerId (connections (service w))) in
  match conn with
  | Some conn =>
      emit [Send (conn_peer conn) (Disconnect "User initiated disconnect")] >>
      emit [CloseConn (conn_peer conn)] >>
      modify (with_service (with_connections (map_delete peerId))) >>
      notifyConnectionStatus peerId "Unknown" false (Some "Disconnected by user") >>
      updatePeersList
  | None => ret tt
  end.

(** The [Peer]'s 'close' event. *)
Definition handleClose : M unit :=
  let* conns := gets (fun w => connections (service w)) in
  forEach (fun kv : string * DataConnection =>
             notifyConnectionStatus (fst kv) "Unknown" false
               (Some "Peer connection closed")) conns >>
  modify (with_service (with_connections (fun _ => []))).

(** The window's 'offline' event. *)
Definition handleNetworkOffline : M unit :=
  let* conns := gets (fun w => connections (service w)) in
  forEach (fun kv : string * DataConnection =>
             notifyConnectionStatus (fst kv) "Unknown" false
               (Some "Network is offline")) conns.

(** [reconnectAllPeers], which the window's 'online' event runs: the peers
    are the keys of [connections] when it starts; [answer peerId] is what
    the provider answers to the dial of [peerId], and each [tryReconnect]
    is awaited before the next peer is looked at. *)
Definition reconnectAllPeers (answer : string -> DialResult) : M unit :=
  let* peerIds := gets (fun w => map fst (connections (service w))) in
  forEach (fun peerId =>
             let* state := gets (fun w => connectionStates (service w) !! peerId) in
             if match state with Some st => isConnecting st | None => false end
             then ret tt
             else tryReconnect (answer peerId) peerId) peerIds.

(** [generateFileId], from the 16 bytes that [getRandomValues] draws. *)
Definition generateFileId (array : bytes) : string :=
  String.concat "" (map (fun b => toHex2 (Z.of_N (Byte.to_N b))) array).

(** Reading two hex digits back. *)
Definition hexValue (c : ascii) : option Z :=
  match List.find (fun kv : ascii * Z => Ascii.eqb c (fst kv))
          (combine (list_ascii_of_string "0123456789abcdef")
                   (map Z.of_nat (seq 0 16))) with
  | Some kv => Some (snd kv)
  | None => None
  end.

Definition fromHex2 (s : string) : option byte :=
  match s with
  | String hi (String lo EmptyString) =>
      match hexValue hi, hexValue lo with
      | Some h, Some l => Byte.of_N (Z.to_N (h * 16 + l))
      | _, _ => None
      end
  | _ => None
  end.

(** Two records describe the same file: everything the sender announced
    apart from progress, status and counters. *)
Definition sameFile (t t' : FileTransfer) : Prop :=
  ft_id t' = ft_id t /\ ft_filename t' = ft_filename t /\ ft_size t' = ft_size t /\
  ft_type t' = ft_type t /\ ft_lastModified t' = ft_lastModified t /\
  ft_hash t' = ft_hash t.

(** What was handed to [conn.send], with the peer of the connection. *)
Definition sent (es : list Effect) : list (string * Message) :=
  omap (fun e => match e with Send p m => Some (p, m) | _ => None end) es.

(** The characters [toString(16)] produces. *)
Definition isHexDigit (c : ascii) : Prop :=
  In c (list_ascii_of_string "0123456789abcdef").

(* --------------------------------------------------------------------- *)
(*  TransferContainer.tsx                                                 *)
(* --------------------------------------------------------------------- *)

Module TransferContainer.

(** [prev.findIndex(p)]; [None] is -1. *)
Fixpoint findIndex {A} (p : A -> bool) (l : list A) : option nat :=
  match l with
  | [] => None
  | x :: rest => if p x then Some O else option_map S (findIndex p rest)
  end.

(** The state update of the file-transfer subscriber: the entry with the
    id of [transfer] is replaced where it stands, a new id is appended. *)
Definition updateTransfers (transfer : TransferObject) (prev : list TransferObject)
    : list TransferObject :=
  match findIndex (fun t => String.eqb (obj_id t) (obj_id transfer)) prev with
  | None => prev ++ [transfer]
  | Some index => <[index := transfer]> prev
  end.


(** What the 'Received Files' card lists:
    [transfers.filter(t => t.status === 'completed')]. *)
Definition receivedFiles (transfers : list TransferObject) : list TransferObject :=
  List.filter (fun t => match obj_status t with Completed => true | _ => false end)
              transfers.

Definition handleDownload (transfer : TransferObject) : M unit :=
  tryCatch (downloadFile (obj_id transfer) >> emit [ToastSuccess "Download started"])
           (fun message => emit [ToastError ("Download failed: " +:+ message)]).

End TransferContainer.

(* --------------------------------------------------------------------- *)
(*  components/ui/file-icon.tsx                                           *)
(* --------------------------------------------------------------------- *)

Module FileIcon.

(** The lucide icon the component returns. *)
Inductive Icon : Type :=
| FileImage | FileVideo | FileAudio | FileArchive | FileCode | FileText | File.

(** [s.split('.')]: the pieces between the dots, at least one. *)
Fixpoint split (s : string) : list string :=
  match s with
  | EmptyString => [EmptyString]
  | String c rest =>
      if Ascii.eqb c "."%char then EmptyString :: split rest
      else match split rest with
           | piece :: pieces => String c piece :: pieces
           | [] => [String c EmptyString]
           end
  end.

(** [c.toLowerCase()] for a character of ASCII text. *)
Definition lowerChar (c : ascii) : ascii :=
  let n := nat_of_ascii c in
  if Nat.leb 65 n && Nat.leb n 90 then ascii_of_nat (n + 32) else c.

Fixpoint toLowerCase (s : string) : string :=
  match s with
  | EmptyString => EmptyString
  | String c rest => String (lowerChar c) (toLowerCase rest)
  end.

(** The file names the model of [toLowerCase] is exact for. *)
Definition isAscii (s : string) : Prop :=
  Forall (fun c => (nat_of_ascii c < 128)%nat) (list_ascii_of_string s).

(** [filename.split('.').pop()?.toLowerCase() || ''] *)
Definition extension (filename : string) : string :=
  toLowerCase (List.last (split filename) EmptyString).

Definition matches (ext : string) (alternatives : list string) : bool :=
  existsb (String.eqb ext) alternatives.

(** The [switch (true)] over the anchored alternations. *)
Definition getIcon (ext : string) : Icon :=
  if matches ext ["jpg"; "jpeg"; "png"; "gif"; "bmp"; "webp"; "svg"] then FileImage
  else if matches ext ["mp4"; "webm"; "avi"; "mov"; "wmv"; "flv"; "mkv"] then FileVideo
  else if matches ext ["mp3"; "wav"; "ogg"; "m4a"; "aac"] then FileAudio
  else if matches ext ["zip"; "rar"; "7z"; "tar"; "gz"] then FileArchive
  else if matches ext ["js"; "ts"; "jsx"; "tsx"; "py"; "java"; "cpp"; "c"; "cs";
                       "php"; "html"; "css"; "json"] then FileCode
  else if matches ext ["txt"; "doc"; "docx"; "pdf"; "md"; "rtf"] then FileText
  else File.

Definition FileIcon (filename : string) : Icon := getIcon (extension filename).

End FileIcon.

(* --------------------------------------------------------------------- *)
(*  Observations on a run                                                 *)
(* --------------------------------------------------------------------- *)

(** The effects of running [m] from [w], on a fresh log. *)
Definition trace {A} (m : M A) (w : World) : list Effect :=
  effects (snd (m (clearLog w))).

(** What [showNotification] puts on the screen in [w]. *)
Definition notification (w : World) (title body : string) : list Effect :=
  if notifies w then [ShowNotification title body] else [].

(** The toast [App]'s callback shows for the call [e] of a subscriber,
    and whether the call clears [isConnecting]. *)
Definition appToast (subscription : option Listener) (e : Effect) : list Effect :=
  match e with
  | ConnectionStatus l _ username isConnected _ =>
      if isAppSubscriber subscription l then
        [if isConnected then ToastSuccess ("Connected to " +:+ username +:+ "!")
         else ToastError ("Disconnected from " +:+ username)]
      else []
  | _ => []
  end.

Definition tellsAppConnected (subscription : option Listener) (e : Effect) : bool :=
  match e with
  | ConnectionStatus l _ _ isConnected _ => isAppSubscriber subscription l && isConnected
  | _ => false
  end.

(** The messages handed to [conn.send], in order. *)
Definition sentMessages (es : list Effect) : list Message :=
  omap (fun e => match e with Send _ m => Some m | _ => None end) es.

(** The progress carried by the transfer-update events, in order. *)
Definition reportedProgress (es : list Effect) : list Q :=
  omap (fun e => match e with TransferUpdate _ o => obj_progress o | _ => None end) es.

(** The peers dialled, in order. *)
Definition dials (es : list Effect) : list string :=
  omap (fun e => match e with Dial p => Some p | _ => None end) es.

(** The timers armed, in order. *)
Definition armed (es : list Effect) : list (Callback * Z) :=
  omap (fun e => match e with SetTimeout _ cb d => Some (cb, d) | _ => None end) es.

(** For each dial of a trace, the delay of the reconnection timer that ran
    out before it; 0 when the dial was made with no timer before it. *)
Fixpoint delaysBeforeDials (last : Z) (es : list Effect) : list Z :=
  match es with
  | [] => []
  | Dial _ :: rest => last :: delaysBeforeDials 0 rest
  | SetTimeout _ (CbTryReconnect _) d :: rest => delaysBeforeDials d rest
  | _ :: rest => delaysBeforeDials last rest
  end.

(** What [tryReconnect] logs for the timer it finds pending for the peer. *)
Definition clearedOnEntry (peerId : string) (w : World) : list Effect :=
  match reconnectTimeouts (service w) !! peerId with
  | Some t => [ClearTimeout t]
  | None => []
  end.

(** The chunk messages of a list: offset and payload. *)
Definition chunkMessage (fileId : string) (c : Z * bytes) : Message :=
  FileChunk fileId (snd c) (fst c) (calculateHash (snd c)).

(** The link to [peerId] is lost and every dial fails: [n] times over, the
    suspended [tryReconnect] takes its [catch] branch and the timer it arms
    expires. *)
Fixpoint failingRound (n : nat) (peerId message : string) (s : option Suspension)
    : M (option Suspension) :=
  match n, s with
  | S n', Some sus =>
      tryReconnect_resume sus (Failed message) >>
      let* t := gets (fun w => reconnectTimeouts (service w) !! peerId) in
      match t with
      | None => ret None
      | Some id => let* s' := fireTimer id in failingRound n' peerId message s'
      end
  | _, _ => ret s
  end.

(* --------------------------------------------------------------------- *)
(*  Sample worlds                                                         *)
(* --------------------------------------------------------------------- *)

Module Sample.

Definition alice : User := mkUser "alice-id" "SwiftEagle1".
Definition bob : DataConnection := mkConn "bob-id" true.

(** An initialised service with two file-transfer subscribers and one
    connection-status subscriber, the one of [App]; the page is hidden and
    may show notifications; no connection yet. *)
Definition idle : World :=
  mkWorld (mkPeerService (Some "alice-id") [] [0%nat; 1%nat] [7%nat] [] []
             ∅ ∅ ∅ ∅)
          ∅ [] 1%nat (mkApp (Some alice) false (Some 7%nat))
          (mkBrowser true PermissionGranted true) [].

(** The same with an open connection to bob. *)
Definition linked : World :=
  with_service (with_connections (fun _ => [("bob-id", bob)])) idle.

Definition abc : bytes := [x61; x62; x63]%byte.
Definition abd : bytes := [x61; x62; x64]%byte.

(** The announcement of a one-chunk transfer of [abc]. *)
Definition announce (total : Z) : FileTransfer :=
  mkFileTransfer "f1" "a.txt" 3 0%Q Transferring None "text/plain" 0 0%Q 0%Q
    (mkChunks total 0) (calculateHash abc).

Definition zeros : File :=
  mkFile "zeros.bin" "" 0 (repeat x00%byte (Z.to_nat 1500000)).

End Sample.
(* --------------------------------------------------------------------- *)
(*  The digest on known inputs                                            *)
(* --------------------------------------------------------------------- *)

Example calculateHash_empty :
  calculateHash [] =
  "e3b0c44298fc1c149afbf4c8996fb92427ae41e4649b934ca495991b7852b855".
Proof. vm_compute. reflexivity. Qed.

Example calculateHash_abc :
  calculateHash Sample.abc =
  "ba7816bf8f01cfea414140de5dae2223b00361a396177a9cb410ff61f20015ad".
Proof. vm_compute. reflexivity. Qed.

Example calculateHash_two_blocks :
  calculateHash (repeat x61%byte 70) =
  "6bd5e5034855a11241f0dee8fc72850ffd9955b28347a86428b5fa19119f6ad0".
Proof. vm_compute. reflexivity. Qed.

(* --------------------------------------------------------------------- *)
(*  Stepping through the code                                             *)
(* --------------------------------------------------------------------- *)

Lemma eqb_false_of_ne (a b : string) : a ≠ b -> String.eqb a b = false.
Proof. intros H. apply String.eqb_neq. exact H. Qed.

(** Unfolds one layer of the sequencing of effects. *)
Ltac step := unfold bind, gets, modify, ret, throw, emit, tryCatch; cbn.

Lemma with_effects_nil (w : World) : with_effects (fun log => log ++ []) w = w.
Proof. destruct w. unfold with_effects. cbn. rewrite app_nil_r. reflexivity. Qed.

(** [showNotification] shows the notification when the browser has
    notifications, the permission is granted and the page is hidden, and
    does nothing otherwise. *)
Lemma showNotification_eq (title body : string) (w : World) :
  showNotification title body w =
  (Ok tt, with_effects (fun log => log ++ notification w title body) w).
Proof.
  unfold showNotification, notification. step.
  destruct (notifies w); [reflexivity|]. rewrite with_effects_nil. reflexivity.
Qed.

(** The two handlers that end in [showNotification]. *)
Lemma dataEvent_fileStart (conn : DataConnection) (t : FileTransfer) (w : World) :
  dataEvent conn (FileStart t) w =
  with_effects
    (fun log => log ++
       map (fun l => TransferUpdate l (Full t)) (fileTransferListeners (service w)) ++
       notification w "New File Transfer" ("Receiving: " +:+ ft_filename t))
    (with_localStorage <[transferKey (ft_id t) := t]> w).
Proof.
  unfold dataEvent, detached, onData, handleFileStart, notifyFileTransfer,
    showNotification, notification.
  step. change (notifies (with_effects _ (with_localStorage _ w))) with (notifies w).
  destruct (notifies w); cbn.
  - unfold with_effects. cbn. rewrite <- app_assoc. reflexivity.
  - rewrite app_nil_r. reflexivity.
Qed.

Lemma dataEvent_fileEnd (conn : DataConnection) (fileId fileHash : string) (w : World) :
  fst (handleFileEnd fileId fileHash w) = Ok tt /\
  dataEvent conn (FileEnd fileId fileHash) w =
  with_effects
    (fun log => log ++ notification w "File Received" "undefined has been received")
    (snd (handleFileEnd fileId fileHash w)).
Proof.
  unfold dataEvent, detached, onData. unfold bind at 1.
  assert (H : exists w', handleFileEnd fileId fileHash w = (Ok tt, w') /\ browser w' = browser w).
  { unfold handleFileEnd, notifyFileTransfer. step.
    destruct (localStorage w !! transferKey fileId); step; eauto. }
  destruct H as (w' & -> & Hb). cbn [fst snd]. split; [reflexivity|].
  rewrite showNotification_eq. unfold notification, notifies. rewrite Hb. reflexivity.
Qed.

Section Receiver.

Variables (conn : DataConnection) (fileId : string).

(** A chunk whose digest differs from the claimed one: the handler throws
    and has touched nothing. *)
Lemma handleFileChunk_mismatch chunk chunkHash w :
  calculateHash chunk ≠ chunkHash ->
  handleFileChunk fileId chunk chunkHash w =
  (Throw "Chunk integrity check failed", w).
Proof.
  intros H. unfold handleFileChunk.
  rewrite (eqb_false_of_ne _ _ H). reflexivity.
Qed.

(** A chunk with the right digest for a known transfer is appended and
    counted. *)
Lemma handleFileChunk_accept chunk w t :
  localStorage w !! transferKey fileId = Some t ->
  exists w',
    handleFileChunk fileId chunk (calculateHash chunk) w = (Ok tt, w') /\
    fileData (service w') !! fileId =
      Some (default [] (fileData (service w) !! fileId) ++ chunk) /\
    (ft_chunks <$> localStorage w' !! transferKey fileId) =
      Some (mkChunks (chunks_total (ft_chunks t))
                     (chunks_transferred (ft_chunks t) + 1)) /\
    (ft_status <$> localStorage w' !! transferKey fileId) = Some (ft_status t).
Proof.
  intros Ht. unfold handleFileChunk.
  rewrite String.eqb_refl. step. rewrite Ht. step.
  eexists. split; [reflexivity|]. cbn.
  rewrite !lookup_insert_eq. cbn. auto.
Qed.

End Receiver.

(** C1 on the code: a chunk whose recomputed digest differs from the
    claimed one makes the handler throw 'Chunk integrity check failed',
    and that is all.  Nobody catches the rejection: the stored record,
    with its status, the receive buffer and the subscribers are left as
    they were, so the transfer does not fail, and a later chunk for the
    same id with a matching digest is appended and counted.  (On its own
    integrity failure [handleFileEnd] does set the status to 'error',
    [handleFileEnd_outcome] below.) *)
Theorem chunk_mismatch_rejects_that_chunk_only
    (conn : DataConnection) (fileId : string) (chunk : bytes) (offset : Z)
    (chunkHash : string) (w : World) :
  calculateHash chunk ≠ chunkHash ->
  let w' := dataEvent conn (FileChunk fileId chunk offset chunkHash) w in
  handleFileChunk fileId chunk chunkHash w =
    (Throw "Chunk integrity check failed", w) /\
  w' = with_effects
         (fun log => log ++ [UnhandledRejection "Chunk integrity check failed"]) w /\
  forall (chunk2 : bytes) (offset2 : Z) (t : FileTransfer),
    localStorage w !! transferKey fileId = Some t ->
    let w'' := dataEvent conn (FileChunk fileId chunk2 offset2 (calculateHash chunk2)) w' in
    fileData (service w'') !! fileId =
      Some (default [] (fileData (service w) !! fileId) ++ chunk2) /\
    (ft_chunks <$> localStorage w'' !! transferKey fileId) =
      Some (mkChunks (chunks_total (ft_chunks t))
                     (chunks_transferred (ft_chunks t) + 1)) /\
    (ft_status <$> localStorage w'' !! transferKey fileId) = Some (ft_status t).
Proof.
  intros Hne w'.
  assert (Hw' : w' = with_effects
         (fun log => log ++ [UnhandledRejection "Chunk integrity check failed"]) w).
  { subst w'. unfold dataEvent, detached, onData.
    rewrite (handleFileChunk_mismatch fileId chunk chunkHash w Hne). reflexivity. }
  split; [apply handleFileChunk_mismatch; exact Hne|].
  split; [exact Hw'|].
  intros chunk2 offset2 t Ht w''.
  assert (Ht' : localStorage w' !! transferKey fileId = Some t)
    by (rewrite Hw'; exact Ht).
  destruct (handleFileChunk_accept fileId chunk2 w' t Ht') as (w2 & Hrun & Hd & Hc & Hs).
  assert (Hw'' : w'' = w2).
  { subst w''. unfold dataEvent, detached, onData. rewrite Hrun. reflexivity. }
  rewrite Hw''. rewrite Hd, Hc, Hs. rewrite Hw'. cbn. auto.
Qed.

Lemma chunk_mismatch_rejects_that_chunk_only_witness :
  handleFileChunk "f1" Sample.abd (calculateHash Sample.abc)
    (dataEvent Sample.bob (FileStart (Sample.announce 1)) Sample.linked) =
  (Throw "Chunk integrity check failed",
   dataEvent Sample.bob (FileStart (Sample.announce 1)) Sample.linked).
Proof.
  apply (chunk_mismatch_rejects_that_chunk_only Sample.bob "f1" Sample.abd 0
           (calculateHash Sample.abc)
           (dataEvent Sample.bob (FileStart (Sample.announce 1)) Sample.linked)).
  vm_compute. discriminate.
Defined.

(** The same on a concrete run: after a chunk with a wrong digest the
    record is still 'transferring', and the next chunk for the same id is
    accepted. *)
Lemma chunk_mismatch_counterexample :
  let w1 := receive Sample.bob
              [FileStart (Sample.announce 2);
               FileChunk "f1" Sample.abd 0 (calculateHash Sample.abc)]
              Sample.linked in
  let w2 := dataEvent Sample.bob
              (FileChunk "f1" Sample.abc 3 (calculateHash Sample.abc)) w1 in
  calculateHash Sample.abd ≠ calculateHash Sample.abc /\
  (ft_status <$> localStorage w1 !! transferKey "f1") = Some Transferring /\
  (ft_status <$> localStorage w2 !! transferKey "f1") = Some Transferring /\
  fileData (service w2) !! "f1" = Some Sample.abc /\
  (chunks_transferred <$> (ft_chunks <$> localStorage w2 !! transferKey "f1")) = Some 1.
Proof. vm_compute. repeat split; discriminate. Qed.

(** [handleFileEnd] compares the digest of the message with the digest the
    stored record announced; the receive buffer is not read. *)
Lemma handleFileEnd_outcome (fileId fileHash : string) (t : FileTransfer) (w : World) :
  localStorage w !! transferKey fileId = Some t ->
  exists w',
    handleFileEnd fileId fileHash w = (Ok tt, w') /\
    fileData (service w') = fileData (service w) /\
    (ft_status <$> localStorage w' !! transferKey fileId) =
      Some (if String.eqb (ft_hash t) fileHash then Completed else Error) /\
    (ft_error <$> localStorage w' !! transferKey fileId) =
      Some (if String.eqb (ft_hash t) fileHash then ft_error t
            else Some "File integrity check failed") /\
    (ft_progress <$> localStorage w' !! transferKey fileId) =
      Some (if String.eqb (ft_hash t) fileHash then 100%Q else ft_progress t).
Proof.
  intros Ht. unfold handleFileEnd. step. rewrite Ht. step.
  eexists. split; [reflexivity|]. cbn. rewrite !lookup_insert_eq.
  destruct (String.eqb (ft_hash t) fileHash); cbn; auto.
Qed.

(** C2 on the code: one byte of the only chunk is altered.  Whether the
    chunk still carries the digest of the original bytes (and is thrown
    away) or the digest of the altered bytes (and is stored), the file-end
    message with the announced digest completes the transfer at 100, over a
    buffer whose digest is not the announced one. *)
Theorem altered_byte_run_ends_completed :
  let H := calculateHash Sample.abc in
  let dropped := receive Sample.bob
      [FileStart (Sample.announce 1); FileChunk "f1" Sample.abd 0 H; FileEnd "f1" H]
      Sample.linked in
  let stored := receive Sample.bob
      [FileStart (Sample.announce 1);
       FileChunk "f1" Sample.abd 0 (calculateHash Sample.abd); FileEnd "f1" H]
      Sample.linked in
  (ft_status <$> localStorage dropped !! transferKey "f1") = Some Completed /\
  (ft_progress <$> localStorage dropped !! transferKey "f1") = Some 100%Q /\
  fileData (service dropped) !! "f1" = None /\
  calculateHash [] ≠ H /\
  (ft_status <$> localStorage stored !! transferKey "f1") = Some Completed /\
  (ft_progress <$> localStorage stored !! transferKey "f1") = Some 100%Q /\
  fileData (service stored) !! "f1" = Some Sample.abd /\
  calculateHash Sample.abd ≠ H.
Proof. vm_compute. repeat split; discriminate. Qed.

(** [downloadFile], case by case. *)
Lemma downloadFile_eq (fileId : string) (w : World) :
  downloadFile fileId w =
  match localStorage w !! transferKey fileId, fileData (service w) !! fileId with
  | None, _ => (Throw "File not found", w)
  | Some _, None => (Throw "File data not found", w)
  | Some t, Some data =>
      (Ok tt, with_effects
                (fun log => log ++ [Download (ft_filename t) (ft_type t) data]) w)
  end.
Proof.
  unfold downloadFile. step.
  destruct (localStorage w !! transferKey fileId) as [t|]; [|reflexivity].
  step. destruct (fileData (service w) !! fileId); reflexivity.
Qed.

(** C9, as amended: [downloadFile] throws 'File not found' exactly when no
    record is stored for the id, and 'File data not found' exactly when a
    record but no buffer is stored; a failure changes nothing.  It succeeds
    exactly when both a record and a buffer are stored, whatever the status
    of the record, and then hands out the buffer under the record's file
    name and type. *)
Theorem downloadFile_outcome (fileId : string) (w : World) :
  (fst (downloadFile fileId w) = Throw "File not found" <->
   localStorage w !! transferKey fileId = None) /\
  (fst (downloadFile fileId w) = Throw "File data not found" <->
   is_Some (localStorage w !! transferKey fileId) /\
   fileData (service w) !! fileId = None) /\
  (fst (downloadFile fileId w) = Ok tt <->
   is_Some (localStorage w !! transferKey fileId) /\
   is_Some (fileData (service w) !! fileId)) /\
  (forall message, fst (downloadFile fileId w) = Throw message ->
                   snd (downloadFile fileId w) = w) /\
  (forall t data,
     localStorage w !! transferKey fileId = Some t ->
     fileData (service w) !! fileId = Some data ->
     trace (downloadFile fileId) w = [Download (ft_filename t) (ft_type t) data]).
Proof.
  unfold trace. rewrite (downloadFile_eq fileId (clearLog w)), downloadFile_eq.
  change (localStorage (clearLog w)) with (localStorage w).
  change (service (clearLog w)) with (service w).
  destruct (localStorage w !! transferKey fileId) as [t|];
    destruct (fileData (service w) !! fileId) as [d|]; cbn;
    repeat split;
    try (intros; congruence);
    try (intros; discriminate);
    try (intros [[? ?] ?]; discriminate);
    try (intros [? [? ?]]; discriminate);
    try (intros [[? ?] [? ?]]; discriminate);
    eauto.
Qed.

(** C9, as stated, fails: a transfer that is still 'transferring', with one
    chunk of two received, is downloaded. *)
Lemma downloadFile_counterexample :
  let w := receive Sample.bob
             [FileStart (Sample.announce 2);
              FileChunk "f1" Sample.abc 0 (calculateHash Sample.abc)]
             Sample.linked in
  (ft_status <$> localStorage w !! transferKey "f1") = Some Transferring /\
  fst (downloadFile "f1" w) = Ok tt /\
  trace (downloadFile "f1") w = [Download "a.txt" "text/plain" Sample.abc].
Proof. vm_compute. repeat split. Qed.

(** C10: [removeFile] returns normally for every id; afterwards neither a
    record nor a buffer is stored for the id, everything stored for other
    ids is as before, and every file-transfer subscriber, in subscription
    order, has been handed an object with that id and status 'removed' --
    also when nothing was stored for the id. *)
Theorem removeFile_total (fileId : string) (w : World) :
  exists w',
    removeFile fileId w = (Ok tt, w') /\
    localStorage w' = delete (transferKey fileId) (localStorage w) /\
    fileData (service w') = delete fileId (fileData (service w)) /\
    localStorage w' !! transferKey fileId = None /\
    fileData (service w') !! fileId = None /\
    trace (removeFile fileId) w =
      map (fun l => TransferUpdate l (IdStatus fileId Removed))
          (fileTransferListeners (service w)) /\
    Forall (fun e => exists l o, e = TransferUpdate l o /\
                                 obj_id o = fileId /\ obj_status o = Removed)
           (trace (removeFile fileId) w) /\
    forall l, In l (fileTransferListeners (service w)) ->
              In (TransferUpdate l (IdStatus fileId Removed)) (trace (removeFile fileId) w).
Proof.
  assert (Htr : trace (removeFile fileId) w =
      map (fun l => TransferUpdate l (IdStatus fileId Removed))
          (fileTransferListeners (service w))) by reflexivity.
  rewrite Htr.
  eexists. split; [reflexivity|].
  split; [reflexivity|]. split; [reflexivity|].
  split; [apply lookup_delete_eq|]. split; [apply lookup_delete_eq|].
  split; [reflexivity|]. split.
  - apply List.Forall_forall. intros e He. apply List.in_map_iff in He.
    destruct He as (l & <- & _). eauto.
  - intros l Hl.
    apply (List.in_map (fun l => TransferUpdate l (IdStatus fileId Removed))).
    exact Hl.
Qed.

Example removeFile_unknown_id :
  fst (removeFile "never-stored" Sample.idle) = Ok tt /\
  trace (removeFile "never-stored") Sample.idle =
    [TransferUpdate 0%nat (IdStatus "never-stored" Removed);
     TransferUpdate 1%nat (IdStatus "never-stored" Removed)].
Proof. vm_compute. split; reflexivity. Qed.

(* --------------------------------------------------------------------- *)
(*  Connecting                                                            *)
(* --------------------------------------------------------------------- *)

(** C6, as amended: [PeerService.connect] has no check of its own; its
    caller [App.handleConnect] refuses an id equal to the current user's:
    it shows the toast "You can't connect to yourself!" and returns
    normally without calling [connect], so nothing is dialled and the
    service, with its connections, is as before. *)
Theorem handleConnect_refuses_own_id
    (answer : DialResult) (remotePeerId : string) (u : User) (w : World) :
  currentUser (app w) = Some u ->
  user_id u = remotePeerId ->
  handleConnect answer remotePeerId w =
    (Ok tt, with_effects
              (fun log => log ++ [ToastError "You can't connect to yourself!"]) w) /\
  dials (trace (handleConnect answer remotePeerId) w) = [] /\
  service (snd (handleConnect answer remotePeerId w)) = service w.
Proof.
  intros Hu Hid.
  assert (Hrun : forall w0, currentUser (app w0) = Some u ->
            handleConnect answer remotePeerId w0 =
            (Ok tt, with_effects
               (fun log => log ++ [ToastError "You can't connect to yourself!"]) w0)).
  { intros w0 Hu0. unfold handleConnect. step. rewrite Hu0, Hid.
    rewrite String.eqb_refl. reflexivity. }
  split; [apply Hrun; exact Hu|]. split.
  - unfold trace. rewrite Hrun by exact Hu. reflexivity.
  - rewrite Hrun by exact Hu. reflexivity.
Qed.

Lemma handleConnect_refuses_own_id_witness :
  dials (trace (handleConnect Opened "alice-id") Sample.idle) = [].
Proof.
  apply (handleConnect_refuses_own_id Opened "alice-id" Sample.alice Sample.idle);
    reflexivity.
Defined.

(** C6, as stated, fails: [connect] with the service's own id dials it, and
    when the provider opens the channel the call succeeds and the
    connection is registered. *)
Lemma connect_own_id_counterexample :
  peer (service Sample.idle) = Some "alice-id" /\
  fst (connect_begin "alice-id" Sample.idle) = Ok tt /\
  fst (connect Opened "alice-id" Sample.idle) = Ok tt /\
  fst (handleConnect Opened "alice-id" Sample.idle) = Ok tt /\
  dials (trace (connect Opened "alice-id") Sample.idle) = ["alice-id"] /\
  map_get "alice-id" (connections (service (snd (connect Opened "alice-id" Sample.idle))))
    = Some (mkConn "alice-id" true).
Proof. vm_compute. repeat split. Qed.

(* --------------------------------------------------------------------- *)
(*  Heartbeat                                                             *)
(* --------------------------------------------------------------------- *)

(** A heartbeat is answered at once by an ack with the same timestamp. *)
Lemma onData_heartbeat (conn : DataConnection) (timestamp : Z) (w : World) :
  fst (onData conn (Heartbeat timestamp) w) = Ok tt /\
  trace (onData conn (Heartbeat timestamp)) w =
    [Send (conn_peer conn) (HeartbeatAck timestamp)].
Proof. split; reflexivity. Qed.

(** An ack falls through the dispatch: nothing changes, no timer is
    cleared. *)
Lemma dataEvent_heartbeat_ack (conn : DataConnection) (timestamp : Z) (w : World) :
  dataEvent conn (HeartbeatAck timestamp) w = w.
Proof. reflexivity. Qed.

(** C5 on the code: a heartbeat goes out at time 0 and arms the 5000 ms
    watch; the ack comes back and changes nothing, the watch stays armed;
    when it expires the peer is declared timed out and redialled. *)
Theorem heartbeat_ack_leaves_timeout_armed :
  let w1 := snd (heartbeatTick (fun _ => 0) Sample.linked) in
  let w2 := dataEvent Sample.bob (HeartbeatAck 0) w1 in
  trace (heartbeatTick (fun _ => 0)) Sample.linked =
    [Send "bob-id" (Heartbeat 0); SetTimeout 1%nat (CbHeartbeatCheck "bob-id") 5000] /\
  w2 = w1 /\
  timers w2 = [mkTimer 1%nat (CbHeartbeatCheck "bob-id") 5000] /\
  trace (fireTimer 1%nat) w2 =
    [ConnectionStatus 7%nat "bob-id" "Unknown" false (Some "Connection timeout");
     Dial "bob-id"].
Proof. vm_compute. repeat split. Qed.

(* --------------------------------------------------------------------- *)
(*  Reconnection                                                          *)
(* --------------------------------------------------------------------- *)

Section Reconnect.

Variables (peerId : string) (w : World).

Hypothesis notConnecting :
  isConnecting (default (mkConnectionState false None)
                  (connectionStates (service w) !! peerId)) = false.

(** Below the cap, with the service initialised, [tryReconnect] dials at
    once and is suspended with the count it read. *)
Lemma tryReconnect_begin_attempts (attempts : Z) :
  is_Some (peer (service w)) ->
  default 0 (reconnectAttempts (service w) !! peerId) = attempts ->
  attempts < MAX_RECONNECT_ATTEMPTS ->
  exists w',
    tryReconnect_begin peerId w =
      (Ok (Some (mkSuspension peerId attempts None)), w') /\
    effects w' = effects w ++ clearedOnEntry peerId w ++ [Dial peerId] /\
    nextTimer w' = nextTimer w /\
    reconnectAttempts (service w') =
      <[peerId := attempts + 1]> (reconnectAttempts (service w)).
Proof.
  intros [p Hp] Hat Hlt. unfold tryReconnect_begin, clearedOnEntry. step.
  destruct (reconnectTimeouts (service w) !! peerId) as [t|]; step;
    rewrite notConnecting; step; rewrite Hat;
    (destruct (Z.leb_spec MAX_RECONNECT_ATTEMPTS attempts) as [Hge|_]; [lia|]);
    step; unfold connect_begin; step; rewrite Hp; step;
    eexists; (split; [reflexivity|]); cbn;
    rewrite <- ?app_assoc; auto.
Qed.

(** At the cap it neither dials nor arms a timer: it tells the
    connection-status subscribers and returns. *)
Lemma tryReconnect_begin_capped (attempts : Z) :
  reconnectAttempts (service w) !! peerId = Some attempts ->
  MAX_RECONNECT_ATTEMPTS <= attempts ->
  exists w',
    tryReconnect_begin peerId w = (Ok None, w') /\
    effects w' =
      effects w ++ clearedOnEntry peerId w ++
      map (fun l => ConnectionStatus l peerId "Unknown" false
                      (Some "Max reconnection attempts reached"))
          (connectionListeners (service w)) /\
    reconnectAttempts (service w') = reconnectAttempts (service w).
Proof.
  intros Hat Hge. unfold tryReconnect_begin, clearedOnEntry. step.
  destruct (reconnectTimeouts (service w) !! peerId) as [t|]; step;
    rewrite notConnecting; step; rewrite Hat; cbn;
    (destruct (Z.leb_spec MAX_RECONNECT_ATTEMPTS attempts) as [_|Hlt]; [|lia]);
    step; eexists; (split; [reflexivity|]); cbn;
    rewrite <- ?app_assoc; auto.
Qed.

End Reconnect.

(** The [catch] branch arms one timer for the next [tryReconnect]. *)
Lemma tryReconnect_catch_arms (peerId message : string) (attempts : Z) (w : World) :
  exists w',
    tryReconnect_catch peerId attempts message w = (Ok tt, w') /\
    effects w' = effects w ++
      [SetTimeout (nextTimer w) (CbTryReconnect peerId)
         (Z.min (1000 * 2 ^ attempts) 30000)] /\
    reconnectAttempts (service w') = reconnectAttempts (service w) /\
    reconnectTimeouts (service w') !! peerId = Some (nextTimer w).
Proof.
  eexists. split; [reflexivity|]. cbn.
  split; [reflexivity|]. split; [reflexivity|]. apply lookup_insert_eq.
Qed.

Lemma backoff_below_cap (n : Z) :
  1 <= n <= 5 ->
  Z.min (1000 * 2 ^ (n - 1)) 30000 = 1000 * 2 ^ (n - 1) /\
  nth (Z.to_nat (n - 1)) [1000; 2000; 4000; 8000; 16000] 0 = 1000 * 2 ^ (n - 1).
Proof.
  intros Hn.
  assert (H : n = 1 \/ n = 2 \/ n = 3 \/ n = 4 \/ n = 5) by lia.
  destruct H as [->|[->|[->|[->| ->]]]]; split; reflexivity.
Qed.

(** C4, as amended: [tryReconnect] makes reconnect attempt [n] (one more
    than the stored count, at most 5) at once, with no delay before the
    dial; when that attempt fails it arms the next [tryReconnect] after
    min(1000 * 2^(n-1), 30000) ms.  So the delays armed after failed
    attempts 1 to 5 are 1000, 2000, 4000, 8000 and 16000 ms. *)
Theorem backoff_after_failed_attempt
    (peerId message : string) (n : Z) (w : World) :
  1 <= n <= 5 ->
  is_Some (peer (service w)) ->
  default 0 (reconnectAttempts (service w) !! peerId) = n - 1 ->
  isConnecting (default (mkConnectionState false None)
                  (connectionStates (service w) !! peerId)) = false ->
  let es := trace (tryReconnect (Failed message) peerId) w in
  es = clearedOnEntry peerId w ++
       [Dial peerId;
        SetTimeout (nextTimer w) (CbTryReconnect peerId)
          (Z.min (1000 * 2 ^ (n - 1)) 30000)] /\
  dials es = [peerId] /\
  delaysBeforeDials 0 es = [0] /\
  armed es = [(CbTryReconnect peerId,
               nth (Z.to_nat (n - 1)) [1000; 2000; 4000; 8000; 16000] 0)] /\
  reconnectAttempts (service (snd (tryReconnect (Failed message) peerId w))) !! peerId
    = Some n.
Proof.
  intros Hn Hpeer Hat Hidle es.
  assert (Hrun : forall w0, service w0 = service w -> nextTimer w0 = nextTimer w ->
            exists w', tryReconnect (Failed message) peerId w0 = (Ok tt, w') /\
              effects w' = effects w0 ++ clearedOnEntry peerId w ++
                [Dial peerId;
                 SetTimeout (nextTimer w) (CbTryReconnect peerId)
                   (Z.min (1000 * 2 ^ (n - 1)) 30000)] /\
              reconnectAttempts (service w') !! peerId = Some n).
  { intros w0 Hs Hnt.
    destruct (tryReconnect_begin_attempts peerId w0) with (attempts := n - 1)
      as (w1 & Hb & He1 & Hn1 & Hr1).
    - rewrite Hs. exact Hidle.
    - rewrite Hs. exact Hpeer.
    - rewrite Hs. exact Hat.
    - unfold MAX_RECONNECT_ATTEMPTS. lia.
    - destruct (tryReconnect_catch_arms peerId message (n - 1) w1)
        as (w2 & Hc & He2 & Hr2 & _).
      exists w2. unfold tryReconnect, bind. rewrite Hb. cbn.
      split; [exact Hc|]. split.
      + rewrite He2, He1, Hn1, Hnt. unfold clearedOnEntry. rewrite Hs.
        rewrite <- !app_assoc. reflexivity.
      + rewrite Hr2, Hr1. rewrite lookup_insert_eq. f_equal. lia. }
  destruct (Hrun (clearLog w) eq_refl eq_refl) as (w' & Hrw & He & _).
  assert (Hes : es = clearedOnEntry peerId w ++
       [Dial peerId;
        SetTimeout (nextTimer w) (CbTryReconnect peerId)
          (Z.min (1000 * 2 ^ (n - 1)) 30000)]).
  { subst es. unfold trace. rewrite Hrw. exact He. }
  destruct (backoff_below_cap n Hn) as [Hmin Hnth].
  split; [exact Hes|]. rewrite Hes, Hnth, Hmin.
  destruct (Hrun w eq_refl eq_refl) as (w2 & Hrw2 & _ & Hr).
  rewrite Hrw2.
  unfold clearedOnEntry.
  destruct (reconnectTimeouts (service w) !! peerId); cbn; auto.
Qed.

Lemma backoff_after_failed_attempt_witness :
  armed (trace (tryReconnect (Failed "Could not connect to peer") "bob-id") Sample.linked)
  = [(CbTryReconnect "bob-id", 1000)].
Proof.
  apply (backoff_after_failed_attempt "bob-id" "Could not connect to peer" 1 Sample.linked).
  - lia.
  - vm_compute. eauto.
  - reflexivity.
  - reflexivity.
Defined.

(** C4, as stated, fails: the link to bob times out and every dial fails.
    The first attempt is dialled with no delay, and the delays that run out
    before attempts 1 to 5 are 0, 1000, 2000, 4000, 8000 ms; the timers
    armed after the five failures are 1000 to 16000 ms. *)
Lemma backoff_counterexample :
  let lost := (let* s := handleConnectionTimeout "bob-id" in
               failingRound 5 "bob-id" "Could not connect to peer" s) in
  let es := trace lost Sample.linked in
  dials es = ["bob-id"; "bob-id"; "bob-id"; "bob-id"; "bob-id"] /\
  delaysBeforeDials 0 es = [0; 1000; 2000; 4000; 8000] /\
  delaysBeforeDials 0 es <> [1000; 2000; 4000; 8000; 16000] /\
  map snd (armed es) = [1000; 2000; 4000; 8000; 16000].
Proof. vm_compute. repeat split. discriminate. Qed.

(** [connect] and the registration of the opened connection never touch
    the reconnection counters. *)
Lemma connect_keeps_reconnectAttempts (answer : DialResult) (peerId : string) (w : World) :
  reconnectAttempts (service (snd (connect answer peerId w))) =
  reconnectAttempts (service w).
Proof.
  unfold connect, connect_begin, connect_resume, handleConnection,
    notifyConnectionStatus, updatePeersList. step.
  destruct (peer (service w)); [|reflexivity]. step.
  destruct answer; reflexivity.
Qed.

(** C7, as amended: with five failed attempts counted for a peer,
    [tryReconnect] -- run once more by the timer that the fifth failure
    armed -- dials nothing and arms no timer; it hands every
    connection-status subscriber the reason 'Max reconnection attempts
    reached', and the count kept for the peer stays at 5. *)
Theorem reconnect_cap_is_terminal
    (peerId : string) (answer : DialResult) (w : World) :
  reconnectAttempts (service w) !! peerId = Some MAX_RECONNECT_ATTEMPTS ->
  isConnecting (default (mkConnectionState false None)
                  (connectionStates (service w) !! peerId)) = false ->
  let es := trace (tryReconnect answer peerId) w in
  es = clearedOnEntry peerId w ++
       map (fun l => ConnectionStatus l peerId "Unknown" false
                       (Some "Max reconnection attempts reached"))
           (connectionListeners (service w)) /\
  dials es = [] /\
  armed es = [] /\
  reconnectAttempts (service (snd (tryReconnect answer peerId w))) !! peerId
    = Some MAX_RECONNECT_ATTEMPTS.
Proof.
  intros Hat Hidle es.
  assert (Hrun : forall w0, service w0 = service w ->
            exists w', tryReconnect answer peerId w0 = (Ok tt, w') /\
              effects w' = effects w0 ++ clearedOnEntry peerId w ++
                map (fun l => ConnectionStatus l peerId "Unknown" false
                                (Some "Max reconnection attempts reached"))
                    (connectionListeners (service w)) /\
              reconnectAttempts (service w') = reconnectAttempts (service w)).
  { intros w0 Hs.
    destruct (tryReconnect_begin_capped peerId w0) with (attempts := MAX_RECONNECT_ATTEMPTS)
      as (w1 & Hb & He1 & Hr1).
    - rewrite Hs. exact Hidle.
    - rewrite Hs. exact Hat.
    - lia.
    - exists w1. unfold tryReconnect, bind. rewrite Hb. cbn.
      split; [reflexivity|]. rewrite He1, Hr1. unfold clearedOnEntry.
      rewrite Hs. auto. }
  destruct (Hrun (clearLog w) eq_refl) as (w' & Hrw & He & _).
  assert (Hes : es = clearedOnEntry peerId w ++
       map (fun l => ConnectionStatus l peerId "Unknown" false
                       (Some "Max reconnection attempts reached"))
           (connectionListeners (service w))).
  { subst es. unfold trace. rewrite Hrw. exact He. }
  split; [exact Hes|]. rewrite Hes.
  destruct (Hrun w eq_refl) as (w2 & Hrw2 & _ & Hr). rewrite Hrw2. cbn [snd].
  rewrite Hr, Hat.
  assert (Hd : forall ls : list Listener,
            dials (map (fun l => ConnectionStatus l peerId "Unknown" false
                       (Some "Max reconnection attempts reached")) ls) = [] /\
            armed (map (fun l => ConnectionStatus l peerId "Unknown" false
                       (Some "Max reconnection attempts reached")) ls) = []).
  { induction ls as [|l ls [IH1 IH2]]; split; auto. }
  destruct (Hd (connectionListeners (service w))) as [Hd1 Hd2].
  unfold clearedOnEntry.
  destruct (reconnectTimeouts (service w) !! peerId); cbn; rewrite ?Hd1, ?Hd2; auto.
Qed.

Lemma reconnect_cap_is_terminal_witness :
  dials (trace (tryReconnect Opened "bob-id")
           (snd ((let* s := onClose Sample.bob in
                  failingRound 5 "bob-id" "Could not connect to peer" s)
                 Sample.linked))) = [].
Proof.
  apply (reconnect_cap_is_terminal "bob-id" Opened
           (snd ((let* s := onClose Sample.bob in
                  failingRound 5 "bob-id" "Could not connect to peer" s)
                 Sample.linked))).
  - vm_compute. reflexivity.
  - vm_compute. reflexivity.
Defined.

(** C7, as stated, fails: the link to bob closes and five dials fail.  The
    fifth failure still arms a timer (16000 ms), whose expiry brings the
    terminal event.  A manual [connect] then succeeds and leaves the count
    at 5, so that when this new link closes no reconnection is attempted
    at all. *)
Lemma reconnect_cap_counterexample :
  let lost := (let* s := onClose Sample.bob in
               failingRound 5 "bob-id" "Could not connect to peer" s) in
  let w5 := snd (lost Sample.linked) in
  let w6 := snd (connect Opened "bob-id" w5) in
  map snd (armed (trace lost Sample.linked)) = [1000; 2000; 4000; 8000; 16000] /\
  List.last (trace lost Sample.linked) (Dial "") =
    ConnectionStatus 7%nat "bob-id" "Unknown" false
      (Some "Max reconnection attempts reached") /\
  reconnectAttempts (service w5) !! "bob-id" = Some 5 /\
  fst (connect Opened "bob-id" w5) = Ok tt /\
  map_get "bob-id" (connections (service w6)) = Some Sample.bob /\
  reconnectAttempts (service w6) !! "bob-id" = Some 5 /\
  trace (onClose Sample.bob) w6 =
    [ConnectionStatus 7%nat "bob-id" "Unknown" false (Some "Connection closed");
     ConnectionStatus 7%nat "bob-id" "Unknown" false
       (Some "Max reconnection attempts reached")].
Proof. vm_compute. repeat split. Qed.

(* --------------------------------------------------------------------- *)
(*  Sending: the chunk loop                                               *)
(* --------------------------------------------------------------------- *)

Lemma sentMessages_app (es1 es2 : list Effect) :
  sentMessages (es1 ++ es2) = sentMessages es1 ++ sentMessages es2.
Proof. apply omap_app. Qed.

Lemma reportedProgress_app (es1 es2 : list Effect) :
  reportedProgress (es1 ++ es2) = reportedProgress es1 ++ reportedProgress es2.
Proof. apply omap_app. Qed.

Lemma sentMessages_send (p : string) (m : Message) : sentMessages [Send p m] = [m].
Proof. reflexivity. Qed.

Lemma reportedProgress_send (p : string) (m : Message) : reportedProgress [Send p m] = [].
Proof. reflexivity. Qed.

Lemma sentMessages_updates (o : TransferObject) (ls : list Listener) :
  sentMessages (map (fun l => TransferUpdate l o) ls) = [].
Proof. induction ls as [|l ls IH]; [reflexivity|exact IH]. Qed.

Lemma reportedProgress_updates (t : FileTransfer) (ls : list Listener) :
  reportedProgress (map (fun l => TransferUpdate l (Full t)) ls) =
  map (fun _ => ft_progress t) ls.
Proof.
  induction ls as [|l ls IH]; [reflexivity|].
  cbn. unfold reportedProgress in IH. rewrite IH. reflexivity.
Qed.

(** [percent a s] grows with [a] and is at most 100 up to [s]. *)
Lemma percent_mono (a b s : Z) :
  0 < s -> a <= b -> (percent a s <= percent b s)%Q.
Proof.
  intros Hs Hab. unfold percent.
  apply Qmult_le_compat_r; [|discriminate].
  unfold Qdiv. apply Qmult_le_compat_r.
  - rewrite <- Zle_Qle. exact Hab.
  - apply Qinv_le_0_compat. replace 0%Q with (inject_Z 0) by reflexivity.
    rewrite <- Zle_Qle. lia.
Qed.

Lemma percent_full (s : Z) : 0 < s -> (percent s s == 100)%Q.
Proof.
  intros Hs. unfold percent, Qdiv. rewrite Qmult_inv_r.
  - reflexivity.
  - intros H. unfold Qeq in H. cbn in H. lia.
Qed.

Lemma percent_le_100 (a s : Z) : 0 < s -> a <= s -> (percent a s <= 100)%Q.
Proof.
  intros Hs Ha. rewrite <- (percent_full s Hs). apply percent_mono; assumption.
Qed.

Lemma sorted_app {A} (R : A -> A -> Prop) (l1 l2 : list A) :
  StronglySorted R l1 -> StronglySorted R l2 ->
  (forall x y, In x l1 -> In y l2 -> R x y) ->
  StronglySorted R (l1 ++ l2).
Proof.
  induction l1 as [|a l1 IH]; intros H1 H2 H12; [exact H2|].
  inversion H1 as [|? ? Hs Hf]; subst. cbn. constructor.
  - apply IH; [exact Hs|exact H2|]. intros x y Hx Hy. apply H12; [right; exact Hx|exact Hy].
  - apply List.Forall_app. split; [exact Hf|].
    apply List.Forall_forall. intros y Hy. apply H12; [left; reflexivity|exact Hy].
Qed.

Lemma sorted_constant (q : Q) {B} (ls : list B) :
  StronglySorted Qle (map (fun _ => q) ls).
Proof.
  induction ls as [|l ls IH]; cbn; constructor; [exact IH|].
  apply List.Forall_forall. intros y Hy. apply List.in_map_iff in Hy.
  destruct Hy as (_ & <- & _). apply Qle_refl.
Qed.

Lemma slice_length (data : bytes) (offset : Z) :
  0 <= offset <= byteLength data ->
  byteLength (slice data offset (offset + CHUNK_SIZE)) =
  Z.min CHUNK_SIZE (byteLength data - offset).
Proof.
  intros Ho. unfold slice, byteLength in *.
  rewrite List.length_firstn, List.length_skipn.
  replace (offset + CHUNK_SIZE - offset) with CHUNK_SIZE by lia.
  unfold CHUNK_SIZE. lia.
Qed.

Lemma slice_rest (data : bytes) (offset : Z) :
  0 <= offset <= byteLength data ->
  slice data offset (offset + CHUNK_SIZE) ++
  skipn (Z.to_nat (offset + byteLength (slice data offset (offset + CHUNK_SIZE)))) data =
  skipn (Z.to_nat offset) data.
Proof.
  intros Ho. unfold slice at 1.
  replace (Z.to_nat (offset + byteLength (slice data offset (offset + CHUNK_SIZE))))
    with (length (slice data offset (offset + CHUNK_SIZE)) + Z.to_nat offset)%nat
    by (unfold byteLength; lia).
  rewrite <- List.skipn_skipn. unfold slice.
  set (l := skipn (Z.to_nat offset) data).
  set (n := Z.to_nat (offset + CHUNK_SIZE - offset)).
  destruct (Nat.le_gt_cases n (length l)) as [Hle|Hgt].
  - rewrite List.length_firstn, Nat.min_l by exact Hle. apply List.firstn_skipn.
  - rewrite List.firstn_all2 by lia. rewrite List.skipn_all. apply List.app_nil_r.
Qed.

Lemma ceilDiv_zero : ceilDiv 0 CHUNK_SIZE = 0.
Proof. reflexivity. Qed.

Lemma ceilDiv_last (x : Z) : 0 < x <= CHUNK_SIZE -> ceilDiv x CHUNK_SIZE = 1.
Proof.
  unfold ceilDiv, CHUNK_SIZE. intros Hx.
  symmetry. apply (Z.div_unique _ _ 1 (x - 1)); lia.
Qed.

Lemma ceilDiv_next (x : Z) :
  CHUNK_SIZE < x -> ceilDiv x CHUNK_SIZE = 1 + ceilDiv (x - CHUNK_SIZE) CHUNK_SIZE.
Proof.
  unfold ceilDiv, CHUNK_SIZE. intros Hx.
  replace (x + 512 * 1024 - 1) with ((x - 512 * 1024 + 512 * 1024 - 1) + 1 * (512 * 1024)) by lia.
  rewrite Z.div_add by lia. lia.
Qed.

Lemma ceilDiv_nonneg (x : Z) : 0 <= x -> 0 <= ceilDiv x CHUNK_SIZE.
Proof.
  unfold ceilDiv, CHUNK_SIZE. intros Hx. apply Z.div_pos; lia.
Qed.

Section Sender.

Variables (file : File) (peerId fileId fileHash : string) (clock : nat -> Z).

Let size := file_size file.
Let data := file_data file.

(** One round of the loop: the chunk at [offset] goes out, the record is
    refreshed when the sampling window has passed, and the loop goes on
    at the end of the chunk. *)
Lemma readNextChunk_round fuel tick offset lastUpdate bytesTransferred w t :
  0 <= offset < size ->
  localStorage w !! transferKey fileId = Some t ->
  let chunkData := slice data offset (offset + CHUNK_SIZE) in
  let offset' := offset + byteLength chunkData in
  exists w1 lastUpdate' bytesTransferred' ups,
    readNextChunk (S fuel) file peerId fileId fileHash clock tick
      offset lastUpdate bytesTransferred w =
    readNextChunk fuel file peerId fileId fileHash clock (S tick)
      offset' lastUpdate' bytesTransferred' w1 /\
    is_Some (localStorage w1 !! transferKey fileId) /\
    service w1 = service w /\
    effects w1 = effects w ++
      [Send peerId (chunkMessage fileId (offset, chunkData))] ++ ups /\
    sentMessages ups = [] /\
    (reportedProgress ups = [] \/
     reportedProgress ups =
       map (fun _ => percent offset' size) (fileTransferListeners (service w))).
Proof.
  intros Ho Ht chunkData offset'.
  cbn [readNextChunk]. fold size data.
  destruct (Z.leb_spec size offset) as [Hge|_]; [lia|].
  fold chunkData. fold offset'.
  unfold bind at 1. unfold emit at 1, modify at 1.
  destruct (Z.leb_spec 100 (clock tick - lastUpdate)) as [Hs|Hs].
  - step. rewrite Ht. step.
    eexists _, _, _, _. split; [reflexivity|]. cbn.
    split; [rewrite lookup_insert_eq; eauto|].
    split; [reflexivity|].
    split; [rewrite <- app_assoc; reflexivity|].
    split; [apply sentMessages_updates|].
    right. rewrite reportedProgress_updates. reflexivity.
  - eexists _, _, _, []. split; [reflexivity|]. cbn.
    split; [rewrite Ht; eauto|]. auto.
Qed.

(** The chunks that go out from [offset] on, and the progress reported
    on the way. *)
Lemma readNextChunk_run fuel :
  forall tick offset lastUpdate bytesTransferred w,
    0 <= offset <= size ->
    size - offset <= Z.of_nat fuel ->
    is_Some (localStorage w !! transferKey fileId) ->
    exists w' chunks ps,
      readNextChunk fuel file peerId fileId fileHash clock tick
        offset lastUpdate bytesTransferred w = (Ok tt, w') /\
      sentMessages (effects w') =
        sentMessages (effects w) ++
        map (chunkMessage fileId) chunks ++ [FileEnd fileId fileHash] /\
      map fst chunks =
        map (fun k => offset + Z.of_nat k * CHUNK_SIZE) (seq 0 (length chunks)) /\
      Z.of_nat (length chunks) = ceilDiv (size - offset) CHUNK_SIZE /\
      concat (map snd chunks) = skipn (Z.to_nat offset) data /\
      Forall (fun c => 0 < byteLength (snd c) <= CHUNK_SIZE) chunks /\
      reportedProgress (effects w') = reportedProgress (effects w) ++ ps /\
      Forall (fun q => (percent offset size <= q)%Q /\ (q <= 100)%Q) ps /\
      StronglySorted Qle ps.
Proof.
  induction fuel as [|fuel IH]; intros tick offset lastUpdate bytesTransferred w Ho Hf Hs.
  - assert (offset = size) by lia. subst offset.
    exists (with_effects (fun log => log ++ [Send peerId (FileEnd fileId fileHash)]) w), [], [].
    cbn [readNextChunk]. fold size. rewrite Z.leb_refl.
    split; [reflexivity|]. cbn [effects with_effects].
    rewrite sentMessages_app, reportedProgress_app, Z.sub_diag.
    split; [reflexivity|]. split; [reflexivity|]. split; [reflexivity|].
    split. { cbn. symmetry. apply List.skipn_all2. unfold size, file_size, byteLength. fold data. lia. }
    split; [apply List.Forall_nil|]. split; [reflexivity|].
    split; [apply List.Forall_nil|apply SSorted_nil].
  - destruct (Z.eq_dec offset size) as [->|Hne].
    + exists (with_effects (fun log => log ++ [Send peerId (FileEnd fileId fileHash)]) w), [], [].
      cbn [readNextChunk]. fold size. rewrite Z.leb_refl.
      split; [reflexivity|]. cbn [effects with_effects].
      rewrite sentMessages_app, reportedProgress_app, Z.sub_diag.
      split; [reflexivity|]. split; [reflexivity|]. split; [reflexivity|].
      split. { cbn. symmetry. apply List.skipn_all2. unfold size, file_size, byteLength. fold data. lia. }
      split; [apply List.Forall_nil|]. split; [reflexivity|].
      split; [apply List.Forall_nil|apply SSorted_nil].
    + destruct Hs as [t Ht].
      assert (Ho' : 0 <= offset < size) by lia.
      destruct (readNextChunk_round fuel tick offset lastUpdate bytesTransferred w t Ho' Ht)
        as (w1 & lu & bt & ups & Hstep & Hs1 & Hsv & He1 & Hsent & Hprog).
      set (chunkData := slice data offset (offset + CHUNK_SIZE)) in *.
      assert (Hlen : byteLength chunkData = Z.min CHUNK_SIZE (size - offset)).
      { apply slice_length. unfold size, file_size in Ho. fold data in Ho. lia. }
      assert (Hpos : 0 < size) by lia.
      set (offset' := offset + byteLength chunkData) in *.
      assert (Ho1 : 0 <= offset' <= size) by (unfold CHUNK_SIZE in Hlen; lia).
      assert (Hf1 : size - offset' <= Z.of_nat fuel) by (unfold CHUNK_SIZE in Hlen; lia).
      destruct (IH (S tick) offset' lu bt w1 Ho1 Hf1 Hs1)
        as (w' & chunks & ps & Hrun & Hmsgs & Hoffs & Hcount & Hcat & Hsizes & Hps & Hbounds & Hsorted).
      exists w', ((offset, chunkData) :: chunks), (reportedProgress ups ++ ps).
      split; [rewrite Hstep; exact Hrun|].
      split.
      { rewrite Hmsgs, He1, !sentMessages_app, Hsent, sentMessages_send.
        rewrite app_nil_r, <- app_assoc. reflexivity. }
      split.
      { cbn [map fst length seq]. rewrite Z.mul_0_l, Z.add_0_r. f_equal.
        rewrite <- List.seq_shift, List.map_map.
        destruct (Z.le_gt_cases (size - offset) CHUNK_SIZE) as [Hlast|Hfull].
        - assert (Hend : offset' = size) by lia.
          rewrite Hend, Z.sub_diag in Hcount. rewrite ceilDiv_zero in Hcount.
          destruct chunks; [reflexivity|cbn in Hcount; lia].
        - assert (Hnext : offset' = offset + CHUNK_SIZE) by lia.
          rewrite Hoffs, Hnext. apply List.map_ext. intros k. lia. }
      split.
      { cbn [length]. rewrite Nat2Z.inj_succ, Hcount.
        destruct (Z.le_gt_cases (size - offset) CHUNK_SIZE) as [Hlast|Hfull].
        - assert (Hend : offset' = size) by lia.
          rewrite Hend, Z.sub_diag, ceilDiv_zero, ceilDiv_last by lia. reflexivity.
        - assert (Hnext : offset' = offset + CHUNK_SIZE) by lia.
          rewrite (ceilDiv_next (size - offset)) by lia.
          rewrite Hnext. replace (size - (offset + CHUNK_SIZE)) with (size - offset - CHUNK_SIZE) by lia.
          lia. }
      split.
      { cbn [map snd concat]. rewrite Hcat. apply slice_rest.
        unfold size, file_size in Ho. fold data in Ho. lia. }
      split.
      { constructor; [cbn [snd]; unfold CHUNK_SIZE in *; lia|].
        exact Hsizes. }
      split.
      { rewrite Hps, He1, !reportedProgress_app, reportedProgress_send.
        rewrite <- app_assoc. reflexivity. }
      assert (Hstepq : (percent offset size <= percent offset' size)%Q)
        by (apply percent_mono; unfold CHUNK_SIZE in Hlen; lia).
      assert (Hups : Forall (fun q => (percent offset size <= q)%Q /\ (q <= 100)%Q /\
                                      q = percent offset' size)
                       (reportedProgress ups)).
      { destruct Hprog as [-> | ->]; [constructor|].
        apply List.Forall_forall. intros q Hq. apply List.in_map_iff in Hq.
        destruct Hq as (_ & <- & _).
        split; [exact Hstepq|]. split; [|reflexivity].
        apply percent_le_100; lia. }
      split.
      { apply List.Forall_app. split.
        - eapply List.Forall_impl; [|exact Hups]. cbn. intros q (H1 & H2 & _). auto.
        - eapply List.Forall_impl; [|exact Hbounds]. cbn. intros q [H1 H2].
          split; [|exact H2]. eapply Qle_trans; [exact Hstepq|exact H1]. }
      { apply sorted_app.
        - destruct Hprog as [-> | ->]; [constructor|apply sorted_constant].
        - exact Hsorted.
        - intros x y Hx Hy.
          rewrite List.Forall_forall in Hups, Hbounds.
          destruct (Hups x Hx) as (_ & _ & ->).
          apply (Hbounds y Hy). }
Qed.

End Sender.

Lemma offsets_sorted (c : Z) (n s : nat) :
  StronglySorted Z.lt (map (fun k => c + Z.of_nat k * CHUNK_SIZE) (seq s n)).
Proof.
  revert s. induction n as [|n IH]; intros s; cbn; constructor; [apply IH|].
  apply List.Forall_forall. intros y Hy. apply List.in_map_iff in Hy.
  destruct Hy as (k & <- & Hk). apply List.in_seq in Hk.
  unfold CHUNK_SIZE. lia.
Qed.

Lemma sizes_sum (chunks : list (Z * bytes)) :
  fold_right Z.add 0 (map (fun c => byteLength (snd c)) chunks) =
  byteLength (concat (map snd chunks)).
Proof.
  induction chunks as [|c chunks IH]; [reflexivity|].
  cbn [map fold_right concat]. rewrite IH. unfold byteLength.
  rewrite List.length_app. lia.
Qed.

(** A run of [sendFile] over an existing connection. *)
Lemma sendFile_run (fileId : string) (clock : nat -> Z) (file : File)
    (peerId : string) (conn : DataConnection) (w : World) :
  map_get peerId (connections (service w)) = Some conn ->
  exists w' chunks ps,
    sendFile fileId clock file peerId w = (Ok tt, w') /\
    sentMessages (effects w') =
      sentMessages (effects w) ++
      FileStart (newTransfer fileId file (calculateHash (file_data file))) ::
      map (chunkMessage fileId) chunks ++
      [FileEnd fileId (calculateHash (file_data file))] /\
    map fst chunks =
      map (fun k => 0 + Z.of_nat k * CHUNK_SIZE) (seq 0 (length chunks)) /\
    Z.of_nat (length chunks) = ceilDiv (file_size file) CHUNK_SIZE /\
    concat (map snd chunks) = file_data file /\
    Forall (fun c => 0 < byteLength (snd c) <= CHUNK_SIZE) chunks /\
    reportedProgress (effects w') = reportedProgress (effects w) ++ ps /\
    Forall (fun q => (q <= 100)%Q) ps /\
    StronglySorted Qle ps.
Proof.
  intros Hconn. unfold sendFile. step. rewrite Hconn. step.
  set (w0 := with_effects _ (with_localStorage _ w)).
  destruct (readNextChunk_run file (conn_peer conn) fileId
              (calculateHash (file_data file)) clock
              (length (file_data file)) 1%nat 0 (clock 0%nat) 0 w0)
    as (w' & chunks & ps & Hrun & Hmsgs & Hoffs & Hcount & Hcat & Hsizes & Hps & Hb & Hsorted).
  - unfold file_size, byteLength. lia.
  - unfold file_size, byteLength. lia.
  - subst w0. cbn. rewrite lookup_insert_eq. eauto.
  - exists w', chunks, ps. unfold detached. rewrite Hrun.
    split; [reflexivity|].
    split.
    { rewrite Hmsgs. subst w0. cbn [effects with_effects with_localStorage].
      rewrite sentMessages_app, sentMessages_send, <- app_assoc. reflexivity. }
    split; [exact Hoffs|].
    split; [rewrite Hcount, Z.sub_0_r; reflexivity|].
    split; [exact Hcat|].
    split; [exact Hsizes|].
    split.
    { rewrite Hps. subst w0. cbn [effects with_effects with_localStorage].
      rewrite reportedProgress_app, reportedProgress_send, app_nil_r. reflexivity. }
    split; [|exact Hsorted].
    eapply List.Forall_impl; [|exact Hb]. cbn. intros q [_ H]. exact H.
Qed.

(** C3: over an existing connection [sendFile] sends the announcement, the
    chunks and then file-end; the chunk offsets increase strictly, no chunk
    exceeds 512 KiB, the chunk sizes add up to the file size (the chunks,
    put end to end, are the file), and there are ceil(size / 512 KiB)
    chunks, which is the total the announcement carries.  A file of
    1,500,000 bytes goes out in three chunks at offsets 0, 524288 and
    1048576. *)
Theorem sendFile_chunking (fileId : string) (clock : nat -> Z) (file : File)
    (peerId : string) (conn : DataConnection) (w : World) :
  map_get peerId (connections (service w)) = Some conn ->
  exists chunks : list (Z * bytes),
    fst (sendFile fileId clock file peerId w) = Ok tt /\
    sentMessages (trace (sendFile fileId clock file peerId) w) =
      FileStart (newTransfer fileId file (calculateHash (file_data file))) ::
      map (chunkMessage fileId) chunks ++
      [FileEnd fileId (calculateHash (file_data file))] /\
    StronglySorted Z.lt (map fst chunks) /\
    Forall (fun c => byteLength (snd c) <= CHUNK_SIZE) chunks /\
    fold_right Z.add 0 (map (fun c => byteLength (snd c)) chunks) = file_size file /\
    concat (map snd chunks) = file_data file /\
    Z.of_nat (length chunks) = ceilDiv (file_size file) CHUNK_SIZE /\
    chunks_total (ft_chunks (newTransfer fileId file (calculateHash (file_data file))))
      = Z.of_nat (length chunks) /\
    (file_size file = 1500000 -> map fst chunks = [0; 524288; 1048576]).
Proof.
  intros Hconn.
  destruct (sendFile_run fileId clock file peerId conn (clearLog w) Hconn)
    as (w' & chunks & ps & Hrun & Hmsgs & Hoffs & Hcount & Hcat & Hsizes & _).
  destruct (sendFile_run fileId clock file peerId conn w Hconn)
    as (w2 & _ & _ & Hrun2 & _).
  exists chunks. rewrite Hrun2. split; [reflexivity|].
  unfold trace. rewrite Hrun. cbn [snd].
  split; [exact Hmsgs|].
  split; [rewrite Hoffs; apply offsets_sorted|].
  split.
  { eapply List.Forall_impl; [|exact Hsizes]. cbn. intros c [_ H]. exact H. }
  split; [rewrite sizes_sum, Hcat; reflexivity|].
  split; [exact Hcat|].
  split; [exact Hcount|].
  split; [rewrite Hcount; reflexivity|].
  intros Hsize. rewrite Hsize in Hcount.
  assert (Hlen : length chunks = 3%nat).
  { change (ceilDiv 1500000 CHUNK_SIZE) with 3 in Hcount. lia. }
  rewrite Hoffs, Hlen. reflexivity.
Qed.

Lemma sendFile_chunking_witness :
  exists chunks : list (Z * bytes),
    sentMessages (trace (sendFile "f1" (fun k => Z.of_nat k) Sample.zeros "bob-id")
                    Sample.linked) =
      FileStart (newTransfer "f1" Sample.zeros (calculateHash (file_data Sample.zeros))) ::
      map (chunkMessage "f1") chunks ++
      [FileEnd "f1" (calculateHash (file_data Sample.zeros))] /\
    map fst chunks = [0; 524288; 1048576].
Proof.
  destruct (sendFile_chunking "f1" (fun k => Z.of_nat k) Sample.zeros "bob-id"
              Sample.bob Sample.linked)
    as (chunks & _ & Hmsgs & _ & _ & _ & _ & _ & _ & Hoffs).
  - reflexivity.
  - exists chunks. split; [exact Hmsgs|]. apply Hoffs.
    unfold file_size, byteLength, Sample.zeros. cbn [file_data].
    rewrite List.repeat_length. lia.
Defined.

(** The chunking of a small file, computed: 5 bytes with a clock that
    samples every round. *)
Example sendFile_small :
  sentMessages (trace (sendFile "f1" (fun k => Z.of_nat k * 100)
                         (mkFile "a.txt" "" 0 Sample.abc) "bob-id") Sample.linked) =
  [FileStart (newTransfer "f1" (mkFile "a.txt" "" 0 Sample.abc) (calculateHash Sample.abc));
   FileChunk "f1" Sample.abc 0 (calculateHash Sample.abc);
   FileEnd "f1" (calculateHash Sample.abc)].
Proof. vm_compute. reflexivity. Qed.

(* --------------------------------------------------------------------- *)
(*  Receiving what [sendFile] sends                                       *)
(* --------------------------------------------------------------------- *)

Section ReceiveStream.

Variables (rconn : DataConnection) (fileId : string).

Lemma receive_cons (m : Message) (ms : list Message) (w : World) :
  receive rconn (m :: ms) w = receive rconn ms (dataEvent rconn m w).
Proof. reflexivity. Qed.

Lemma receive_app (ms1 ms2 : list Message) (w : World) :
  receive rconn (ms1 ++ ms2) w = receive rconn ms2 (receive rconn ms1 w).
Proof. unfold receive. apply List.fold_left_app. Qed.

(** An accepted chunk, in full. *)
Lemma dataEvent_chunk (c : Z * bytes) (w : World) (t : FileTransfer) :
  localStorage w !! transferKey fileId = Some t ->
  let w' := dataEvent rconn (chunkMessage fileId c) w in
  exists t',
    localStorage w' !! transferKey fileId = Some t' /\
    ft_hash t' = ft_hash t /\
    ft_chunks t' = mkChunks (chunks_total (ft_chunks t))
                            (chunks_transferred (ft_chunks t) + 1) /\
    ft_progress t' = percent (chunks_transferred (ft_chunks t) + 1)
                             (chunks_total (ft_chunks t)) /\
    fileTransferListeners (service w') = fileTransferListeners (service w) /\
    default [] (fileData (service w') !! fileId) =
      default [] (fileData (service w) !! fileId) ++ snd c /\
    effects w' = effects w ++
      map (fun l => TransferUpdate l (Full t')) (fileTransferListeners (service w)).
Proof.
  intros Ht w'. subst w'.
  unfold dataEvent, detached, chunkMessage, onData, handleFileChunk.
  rewrite String.eqb_refl. step. rewrite Ht. step.
  eexists. rewrite !lookup_insert_eq. cbn.
  repeat (split; [reflexivity|]). reflexivity.
Qed.

(** A run of chunks that stays within the announced total. *)
Lemma receive_chunks (chunks : list (Z * bytes)) :
  forall (w : World) (t : FileTransfer),
    localStorage w !! transferKey fileId = Some t ->
    0 <= chunks_transferred (ft_chunks t) ->
    chunks_transferred (ft_chunks t) + Z.of_nat (length chunks)
      <= chunks_total (ft_chunks t) ->
    let w' := receive rconn (map (chunkMessage fileId) chunks) w in
    exists t' ps,
      localStorage w' !! transferKey fileId = Some t' /\
      ft_hash t' = ft_hash t /\
      ft_chunks t' = mkChunks (chunks_total (ft_chunks t))
                       (chunks_transferred (ft_chunks t) + Z.of_nat (length chunks)) /\
      fileTransferListeners (service w') = fileTransferListeners (service w) /\
      default [] (fileData (service w') !! fileId) =
        default [] (fileData (service w) !! fileId) ++ concat (map snd chunks) /\
      reportedProgress (effects w') = reportedProgress (effects w) ++ ps /\
      Forall (fun q => (percent (chunks_transferred (ft_chunks t))
                                (chunks_total (ft_chunks t)) <= q)%Q /\
                       (q <= 100)%Q) ps /\
      StronglySorted Qle ps.
Proof.
  induction chunks as [|c chunks IH]; intros w t Ht Hk Hn w'.
  - subst w'. exists t, []. cbn.
    rewrite Z.add_0_r, !app_nil_r. destruct (ft_chunks t).
    do 6 (split; [auto|]). split; constructor.
  - subst w'. cbn [map]. rewrite receive_cons.
    destruct (dataEvent_chunk c w t Ht) as (t1 & Ht1 & Hh1 & Hc1 & Hp1 & Hl1 & Hd1 & He1).
    set (w1 := dataEvent rconn (chunkMessage fileId c) w) in *.
    cbn [length] in Hn. rewrite Nat2Z.inj_succ in Hn.
    set (k := chunks_transferred (ft_chunks t)) in *.
    set (n := chunks_total (ft_chunks t)) in *.
    destruct (IH w1 t1 Ht1) as (t' & ps & Ht' & Hh' & Hc' & Hl' & Hd' & Hps & Hb & Hs).
    { rewrite Hc1. cbn. lia. }
    { rewrite Hc1. cbn. lia. }
    rewrite Hc1 in Hc', Hb. cbn [chunks_total chunks_transferred] in Hc', Hb.
    assert (Hq : (percent k n <= percent (k + 1) n)%Q) by (apply percent_mono; lia).
    exists t', (map (fun _ => ft_progress t1) (fileTransferListeners (service w)) ++ ps).
    split; [exact Ht'|]. split; [congruence|].
    split. { rewrite Hc'. cbn [length]. f_equal. lia. }
    split; [congruence|].
    split. { rewrite Hd', Hd1. cbn [map concat]. rewrite app_assoc. reflexivity. }
    split. { rewrite Hps, He1, reportedProgress_app, reportedProgress_updates.
             rewrite app_assoc. reflexivity. }
    split.
    + apply List.Forall_app. split.
      * apply List.Forall_forall. intros q Hin. apply List.in_map_iff in Hin.
        destruct Hin as (_ & <- & _). rewrite Hp1. fold k n.
        split; [exact Hq|]. apply percent_le_100; lia.
      * eapply List.Forall_impl; [|exact Hb]. cbn. intros q [H1 H2].
        split; [|exact H2]. eapply Qle_trans; [exact Hq|exact H1].
    + apply sorted_app; [apply sorted_constant|exact Hs|].
      intros x y Hx Hy. apply List.in_map_iff in Hx. destruct Hx as (_ & <- & _).
      rewrite Hp1. fold k n. rewrite List.Forall_forall in Hb. apply (Hb y Hy).
Qed.

End ReceiveStream.

(* --------------------------------------------------------------------- *)
(*  Schedules of the receiver                                             *)
(* --------------------------------------------------------------------- *)

Section Schedules.

Variables (rconn : DataConnection) (fileId fileHash : string).

(** The receiver runs the handlers in the order [handled] gives. *)
Lemma deliver_handled (ticks : list Tick) :
  forall (w : World) (pending : list Message),
    rx_world (deliver rconn ticks (mkReceiver w pending)) =
    receive rconn (handled pending ticks) w.
Proof.
  induction ticks as [|[data|k] ticks IH]; intros w pending; [reflexivity| |].
  - cbn [deliver fold_left rxStep handled rx_world rx_pending].
    destruct (isChunk data); [apply IH|]. rewrite receive_cons. apply IH.
  - cbn [deliver fold_left rxStep handled rx_world rx_pending].
    destruct (pending !! k) as [data|]; [|apply IH]. rewrite receive_cons. apply IH.
Qed.

(** When every digest resolves before the next message arrives, the
    handlers run in the order of arrival. *)
Lemma handled_promptly (msgs : list Message) :
  handled [] (promptly msgs) = msgs /\
  arrivals (promptly msgs) = msgs /\
  complete 0 (promptly msgs) = true.
Proof.
  unfold promptly, arrivals.
  split; [|split]; induction msgs as [|data msgs IH]; try reflexivity;
    cbn [flat_map]; destruct (isChunk data) eqn:Hc;
    cbn [app handled omap complete]; rewrite ?Hc; cbn;
    rewrite ?Hc; first [exact IH | rewrite IH; reflexivity].
Qed.

Lemma lookup_chunkMessages (cs : list (Z * bytes)) (k : nat) :
  map (chunkMessage fileId) cs !! k = chunkMessage fileId <$> cs !! k.
Proof. revert k. induction cs as [|c cs IH]; intros [|k]; cbn; auto. Qed.

Lemma delete_chunkMessages (cs : list (Z * bytes)) (k : nat) :
  delete k (map (chunkMessage fileId) cs) = map (chunkMessage fileId) (delete k cs).
Proof. revert k. induction cs as [|c cs IH]; intros [|k]; cbn; [auto..|]. f_equal. apply IH. Qed.

Lemma chunkMessage_injective (c c' : Z * bytes) :
  chunkMessage fileId c = chunkMessage fileId c' -> c = c'.
Proof. destruct c, c'. unfold chunkMessage. cbn. intros [= -> ->]. reflexivity. Qed.

Lemma chunkMessages_injective (cs cs' : list (Z * bytes)) :
  map (chunkMessage fileId) cs = map (chunkMessage fileId) cs' -> cs = cs'.
Proof.
  revert cs'. induction cs as [|c cs IH]; intros [|c' cs'] H; try discriminate; [reflexivity|].
  cbn [map] in H.
  assert (Hc : chunkMessage fileId c = chunkMessage fileId c') by congruence.
  assert (Hcs : map (chunkMessage fileId) cs = map (chunkMessage fileId) cs') by congruence.
  apply chunkMessage_injective in Hc. subst c'. f_equal. apply IH. exact Hcs.
Qed.

Lemma filter_chunkMessages (cs : list (Z * bytes)) :
  List.filter isChunk (map (chunkMessage fileId) cs) = map (chunkMessage fileId) cs.
Proof. induction cs as [|c cs IH]; [reflexivity|]. cbn. f_equal. exact IH. Qed.

(** Once file-end has arrived, only digests resolve: the chunks still
    awaited are handled, in some order. *)
Lemma handled_after_end (ticks : list Tick) :
  forall pend : list (Z * bytes),
    arrivals ticks = [] ->
    complete (length pend) ticks = true ->
    exists cs,
      handled (map (chunkMessage fileId) pend) ticks = map (chunkMessage fileId) cs /\
      Permutation cs pend.
Proof.
  induction ticks as [|[data|k] ticks IH]; intros pend Harr Hc.
  - cbn in Hc. apply Nat.eqb_eq in Hc. destruct pend; [|discriminate].
    exists []. split; [reflexivity|constructor].
  - discriminate.
  - cbn [complete] in Hc. apply andb_true_iff in Hc. destruct Hc as [Hk Hc].
    apply Nat.ltb_lt in Hk.
    destruct (lookup_lt_is_Some_2 pend k Hk) as [c Hc'].
    cbn [handled]. rewrite lookup_chunkMessages, Hc'. cbn.
    rewrite delete_chunkMessages.
    destruct (IH (delete k pend)) as (cs & Hh & Hp).
    + exact Harr.
    + rewrite length_delete by eauto. replace (length pend - 1)%nat with (Nat.pred (length pend)) by lia.
      exact Hc.
    + exists (c :: cs). split; [cbn; f_equal; exact Hh|].
      transitivity (c :: delete k pend); [constructor; exact Hp|].
      symmetry. apply delete_Permutation. exact Hc'.
Qed.

(** The chunks and the file-end of a stream: file-end is handled when it
    arrives, the chunks before it or after it as their digests resolve. *)
Lemma handled_chunks_and_end (ticks : list Tick) :
  forall pend rest : list (Z * bytes),
    arrivals ticks = map (chunkMessage fileId) rest ++ [FileEnd fileId fileHash] ->
    complete (length pend) ticks = true ->
    exists cs1 cs2,
      handled (map (chunkMessage fileId) pend) ticks =
        map (chunkMessage fileId) cs1 ++ FileEnd fileId fileHash ::
        map (chunkMessage fileId) cs2 /\
      Permutation (cs1 ++ cs2) (pend ++ rest).
Proof.
  induction ticks as [|[data|k] ticks IH]; intros pend rest Harr Hc.
  - destruct rest; discriminate.
  - cbn [arrivals omap] in Harr. cbn [complete] in Hc.
    destruct rest as [|c rest]; cbn [map app] in Harr; injection Harr as -> Harr.
    + cbn [isChunk] in Hc. cbn [handled isChunk].
      destruct (handled_after_end ticks pend Harr Hc) as (cs & Hh & Hp).
      exists [], cs. rewrite Hh, app_nil_r. split; [reflexivity|exact Hp].
    + cbn [isChunk chunkMessage] in Hc. cbn [handled isChunk chunkMessage].
      change (FileChunk fileId (snd c) (fst c) (calculateHash (snd c)))
        with (chunkMessage fileId c).
      replace (map (chunkMessage fileId) pend ++ [chunkMessage fileId c])
        with (map (chunkMessage fileId) (pend ++ [c])) by (rewrite List.map_app; reflexivity).
      destruct (IH (pend ++ [c]) rest Harr) as (cs1 & cs2 & Hh & Hp).
      * rewrite List.length_app. cbn. replace (length pend + 1)%nat with (S (length pend)) by lia.
        exact Hc.
      * exists cs1, cs2. split; [exact Hh|]. rewrite Hp, <- app_assoc. reflexivity.
  - cbn [arrivals omap] in Harr. cbn [complete] in Hc.
    apply andb_true_iff in Hc. destruct Hc as [Hk Hc]. apply Nat.ltb_lt in Hk.
    destruct (lookup_lt_is_Some_2 pend k Hk) as [c Hc'].
    cbn [handled]. rewrite lookup_chunkMessages, Hc'. cbn.
    rewrite delete_chunkMessages.
    destruct (IH (delete k pend) rest Harr) as (cs1 & cs2 & Hh & Hp).
    + rewrite length_delete by eauto.
      replace (length pend - 1)%nat with (Nat.pred (length pend)) by lia. exact Hc.
    + exists (c :: cs1), cs2. split; [cbn; f_equal; exact Hh|].
      cbn [app]. transitivity (c :: delete k pend ++ rest); [constructor; exact Hp|].
      change (c :: delete k pend ++ rest) with ((c :: delete k pend) ++ rest).
      apply Permutation_app_tail. symmetry. apply delete_Permutation. exact Hc'.
Qed.

(** The stream of one transfer on a schedule that is run to its end: the
    announcement is handled first; the chunks are handled in the order of
    arrival when that is the order in which the digests resolve, and all
    of them before file-end when file-end is handled last. *)
Lemma handled_stream (t0 : FileTransfer) (chunks : list (Z * bytes)) (ticks : list Tick) :
  arrivals ticks =
    FileStart t0 :: map (chunkMessage fileId) chunks ++ [FileEnd fileId fileHash] ->
  complete 0 ticks = true ->
  exists cs1 cs2,
    handled [] ticks =
      FileStart t0 :: map (chunkMessage fileId) cs1 ++ FileEnd fileId fileHash ::
      map (chunkMessage fileId) cs2 /\
    Permutation (cs1 ++ cs2) chunks /\
    (List.filter isChunk (handled [] ticks) = List.filter isChunk (arrivals ticks) ->
     cs1 ++ cs2 = chunks) /\
    (last (handled [] ticks) = Some (FileEnd fileId fileHash) -> cs2 = []).
Proof.
  intros Harr Hc.
  destruct ticks as [|[data|k] ticks]; [discriminate| |discriminate].
  change (arrivals (Arrive data :: ticks)) with (data :: arrivals ticks) in Harr.
  injection Harr as -> Harr.
  cbn [complete isChunk] in Hc. cbn [handled isChunk].
  destruct (handled_chunks_and_end ticks [] chunks Harr Hc) as (cs1 & cs2 & Hh & Hp).
  cbn [map] in Hh. rewrite Hh.
  exists cs1, cs2. split; [reflexivity|]. split; [exact Hp|]. split.
  - change (arrivals (Arrive (FileStart t0) :: ticks))
      with (FileStart t0 :: arrivals ticks).
    rewrite Harr. cbn [List.filter isChunk].
    rewrite !List.filter_app. cbn [List.filter isChunk].
    rewrite !filter_chunkMessages, app_nil_r, <- List.map_app.
    apply chunkMessages_injective.
  - intros Hlast. destruct cs2 as [|c cs2]; [reflexivity|]. exfalso.
    assert (Hl : exists c', last (map (chunkMessage fileId) (c :: cs2)) =
                            Some (chunkMessage fileId c')).
    { generalize (c :: cs2) (@nil_cons _ c cs2).
      induction l as [|x l _] using rev_ind; [congruence|]. intros _.
      exists x. rewrite List.map_app. apply last_snoc. }
    destruct Hl as [c' Hl].
    rewrite app_comm_cons, last_app in Hlast.
    cbn [map] in Hlast, Hl. rewrite last_cons_cons in Hlast. rewrite Hl in Hlast.
    discriminate.
Qed.

End Schedules.

(* --------------------------------------------------------------------- *)
(*  The record and the buffer along a stream                              *)
(* --------------------------------------------------------------------- *)

Lemma sameFile_refl (t : FileTransfer) : sameFile t t.
Proof. repeat split. Qed.

Lemma sameFile_trans (t1 t2 t3 : FileTransfer) :
  sameFile t1 t2 -> sameFile t2 t3 -> sameFile t1 t3.
Proof.
  unfold sameFile. intros (A1 & A2 & A3 & A4 & A5 & A6) (B1 & B2 & B3 & B4 & B5 & B6).
  repeat split; congruence.
Qed.

(** [handleFileEnd] for a stored record, in full: the record it stores
    and hands to the subscribers. *)
Lemma handleFileEnd_run (fileId fileHash : string) (t : FileTransfer) (w : World) :
  localStorage w !! transferKey fileId = Some t ->
  exists t',
    handleFileEnd fileId fileHash w =
      (Ok tt,
       with_effects
         (fun log => log ++ map (fun l => TransferUpdate l (Full t'))
                              (fileTransferListeners (service w)))
         (with_localStorage <[transferKey fileId := t']> w)) /\
    sameFile t t' /\
    ft_chunks t' = ft_chunks t /\
    ft_status t' = (if String.eqb (ft_hash t) fileHash then Completed else Error) /\
    ft_progress t' = (if String.eqb (ft_hash t) fileHash then 100%Q else ft_progress t).
Proof.
  intros Ht. unfold handleFileEnd, notifyFileTransfer. step. rewrite Ht. step.
  eexists. split; [reflexivity|].
  destruct (String.eqb (ft_hash t) fileHash); repeat split.
Qed.

Section StreamState.

Variables (rconn : DataConnection) (fileId : string).

Lemma dataEvent_chunk_state (c : Z * bytes) (w : World) (t : FileTransfer) :
  localStorage w !! transferKey fileId = Some t ->
  let w' := dataEvent rconn (chunkMessage fileId c) w in
  exists t',
    localStorage w' !! transferKey fileId = Some t' /\
    sameFile t t' /\
    fileData (service w') !! fileId =
      Some (default [] (fileData (service w) !! fileId) ++ snd c).
Proof.
  intros Ht w'. subst w'.
  unfold dataEvent, detached, chunkMessage, onData, handleFileChunk.
  rewrite String.eqb_refl. step. rewrite Ht. step.
  eexists. rewrite !lookup_insert_eq. split; [reflexivity|].
  split; [repeat split|reflexivity].
Qed.

Lemma receive_chunks_state (chunks : list (Z * bytes)) :
  forall (w : World) (t : FileTransfer),
    localStorage w !! transferKey fileId = Some t ->
    let w' := receive rconn (map (chunkMessage fileId) chunks) w in
    exists t',
      localStorage w' !! transferKey fileId = Some t' /\
      sameFile t t' /\
      fileData (service w') !! fileId =
        match chunks with
        | [] => fileData (service w) !! fileId
        | _ => Some (default [] (fileData (service w) !! fileId) ++ concat (map snd chunks))
        end.
Proof.
  induction chunks as [|c chunks IH]; intros w t Ht w'.
  - exists t. subst w'. cbn. auto using sameFile_refl.
  - subst w'. cbn [map]. rewrite receive_cons.
    destruct (dataEvent_chunk_state c w t Ht) as (t1 & Ht1 & Hs1 & Hd1).
    destruct (IH _ t1 Ht1) as (t' & Ht' & Hs' & Hd').
    exists t'. split; [exact Ht'|]. split; [eapply sameFile_trans; eassumption|].
    rewrite Hd', Hd1.
    destruct chunks as [|c' chunks']; cbn.
    + rewrite app_nil_r. reflexivity.
    + rewrite <- !app_assoc. reflexivity.
Qed.

Lemma dataEvent_fileEnd_state (fileHash : string) (w : World) (t : FileTransfer) :
  localStorage w !! transferKey fileId = Some t ->
  let w' := dataEvent rconn (FileEnd fileId fileHash) w in
  exists t',
    localStorage w' !! transferKey fileId = Some t' /\
    sameFile t t' /\
    fileData (service w') = fileData (service w).
Proof.
  intros Ht w'. subst w'.
  destruct (dataEvent_fileEnd rconn fileId fileHash w) as [_ ->].
  destruct (handleFileEnd_run fileId fileHash t w Ht) as (t' & -> & Hs & _).
  exists t'. cbn. rewrite lookup_insert_eq. auto.
Qed.

End StreamState.

Lemma reportedProgress_notification (w : World) (title body : string) :
  reportedProgress (notification w title body) = [].
Proof. unfold notification. destruct (notifies w); reflexivity. Qed.

Lemma percent_zero (n : Z) : (percent 0 n == 0)%Q.
Proof. unfold percent, Qdiv. rewrite !Qmult_0_l. reflexivity. Qed.

Section ChunkRecords.

Variables (rconn : DataConnection) (fileId : string).

(** An accepted chunk leaves the status of the record as it was. *)
Lemma dataEvent_chunk_record (c : Z * bytes) (w : World) (t : FileTransfer) :
  localStorage w !! transferKey fileId = Some t ->
  let w' := dataEvent rconn (chunkMessage fileId c) w in
  exists t',
    localStorage w' !! transferKey fileId = Some t' /\
    ft_status t' = ft_status t /\
    ft_chunks t' = mkChunks (chunks_total (ft_chunks t))
                            (chunks_transferred (ft_chunks t) + 1) /\
    ft_progress t' = percent (chunks_transferred (ft_chunks t) + 1)
                             (chunks_total (ft_chunks t)).
Proof.
  intros Ht w'. subst w'.
  unfold dataEvent, detached, chunkMessage, onData, handleFileChunk.
  rewrite String.eqb_refl. step. rewrite Ht. step.
  eexists. rewrite !lookup_insert_eq. repeat split; reflexivity.
Qed.

Lemma receive_chunks_record (chunks : list (Z * bytes)) :
  forall (w : World) (t : FileTransfer),
    localStorage w !! transferKey fileId = Some t ->
    let w' := receive rconn (map (chunkMessage fileId) chunks) w in
    exists t',
      localStorage w' !! transferKey fileId = Some t' /\
      ft_status t' = ft_status t /\
      ft_progress t' =
        match chunks with
        | [] => ft_progress t
        | _ => percent (chunks_transferred (ft_chunks t) + Z.of_nat (length chunks))
                       (chunks_total (ft_chunks t))
        end.
Proof.
  induction chunks as [|c chunks IH]; intros w t Ht w'.
  - exists t. subst w'. cbn. auto.
  - subst w'. cbn [map]. rewrite receive_cons.
    destruct (dataEvent_chunk_record c w t Ht) as (t1 & Ht1 & Hs1 & Hc1 & Hp1).
    destruct (IH _ t1 Ht1) as (t' & Ht' & Hs' & Hp').
    exists t'. split; [exact Ht'|]. split; [congruence|].
    rewrite Hp', Hc1. cbn [chunks_total chunks_transferred].
    destruct chunks as [|c' chunks']; [exact Hp1|].
    f_equal. cbn [length]. lia.
Qed.

End ChunkRecords.

(** The stream of one transfer, file-end handled after the chunks [cs1]
    and before the chunks [cs2]: the record ends 'completed', the buffer
    has grown by the chunks in the order they were handled, and the
    progress reported is 0 for the announcement, what [cs1] gives, 100 for
    file-end, and what [cs2] gives. *)
Lemma receive_stream (rconn : DataConnection) (fileId : string) (file : File)
    (cs1 cs2 : list (Z * bytes)) (w : World) :
  Z.of_nat (length (cs1 ++ cs2)) = ceilDiv (file_size file) CHUNK_SIZE ->
  let fileHash := calculateHash (file_data file) in
  let w' := receive rconn
              (FileStart (newTransfer fileId file fileHash) ::
               map (chunkMessage fileId) cs1 ++ FileEnd fileId fileHash ::
               map (chunkMessage fileId) cs2) w in
  exists t' ps1 ps2,
    localStorage w' !! transferKey fileId = Some t' /\
    ft_status t' = Completed /\
    ft_progress t' =
      match cs2 with
      | [] => 100%Q
      | _ => percent (ceilDiv (file_size file) CHUNK_SIZE)
                     (ceilDiv (file_size file) CHUNK_SIZE)
      end /\
    sameFile (newTransfer fileId file fileHash) t' /\
    fileData (service w') !! fileId =
      match cs1 ++ cs2 with
      | [] => fileData (service w) !! fileId
      | _ => Some (default [] (fileData (service w) !! fileId) ++
                   concat (map snd (cs1 ++ cs2)))
      end /\
    reportedProgress (effects w') =
      reportedProgress (effects w) ++
      map (fun _ => 0%Q) (fileTransferListeners (service w)) ++ ps1 ++
      map (fun _ => 100%Q) (fileTransferListeners (service w)) ++ ps2 /\
    Forall (fun q => (0 <= q)%Q /\ (q <= 100)%Q) ps1 /\
    StronglySorted Qle ps1 /\
    Forall (fun q => (q <= 100)%Q) ps2 /\
    (cs2 = [] -> ps2 = []).
Proof.
  intros Hcount fileHash w'. subst w'.
  rewrite List.length_app, Nat2Z.inj_add in Hcount.
  set (n := ceilDiv (file_size file) CHUNK_SIZE) in *.
  set (t0 := newTransfer fileId file fileHash).
  rewrite receive_cons, receive_app, receive_cons.
  (* the announcement *)
  rewrite dataEvent_fileStart.
  set (w1 := with_effects _ (with_localStorage _ w)).
  assert (Ht0 : localStorage w1 !! transferKey fileId = Some t0)
    by (subst w1; cbn; apply lookup_insert_eq).
  assert (He1 : reportedProgress (effects w1) =
            reportedProgress (effects w) ++
            map (fun _ => 0%Q) (fileTransferListeners (service w))).
  { subst w1. cbn [effects with_effects with_localStorage].
    rewrite !reportedProgress_app, reportedProgress_updates,
      reportedProgress_notification, app_nil_r. reflexivity. }
  (* the chunks before file-end *)
  destruct (receive_chunks rconn fileId cs1 w1 t0 Ht0)
    as (t2 & ps1 & Ht2 & Hh2 & Hc2 & Hl2 & _ & Hps1 & Hb1 & Hs1).
  { cbn. lia. }
  { cbn. fold n. lia. }
  destruct (receive_chunks_state rconn fileId cs1 w1 t0 Ht0) as (t2' & Ht2' & Hsame2 & Hd2).
  destruct (receive_chunks_record rconn fileId cs1 w1 t0 Ht0) as (t2'' & Ht2'' & Hst2 & _).
  set (w2 := receive rconn (map (chunkMessage fileId) cs1) w1) in *.
  rewrite Ht2 in Ht2', Ht2''. injection Ht2' as <-. injection Ht2'' as <-.
  (* file-end *)
  destruct (dataEvent_fileEnd rconn fileId fileHash w2) as [_ Hend]. rewrite Hend.
  destruct (handleFileEnd_run fileId fileHash t2 w2 Ht2)
    as (t3 & Hrun3 & Hsame3 & Hc3 & Hst3 & Hp3).
  rewrite Hrun3. cbn [snd].
  assert (Hhash : String.eqb (ft_hash t2) fileHash = true)
    by (rewrite Hh2; apply String.eqb_refl).
  rewrite Hhash in Hst3, Hp3.
  set (w3 := with_effects _ (with_effects _ (with_localStorage _ w2))).
  assert (Ht3 : localStorage w3 !! transferKey fileId = Some t3)
    by (subst w3; cbn; apply lookup_insert_eq).
  assert (He3 : reportedProgress (effects w3) =
            reportedProgress (effects w2) ++
            map (fun _ => 100%Q) (fileTransferListeners (service w))).
  { subst w3. cbn [effects with_effects with_localStorage].
    rewrite !reportedProgress_app, reportedProgress_updates,
      reportedProgress_notification, app_nil_r, Hl2, Hp3. reflexivity. }
  assert (Hd3 : fileData (service w3) = fileData (service w2)) by reflexivity.
  (* the chunks after file-end *)
  destruct (receive_chunks rconn fileId cs2 w3 t3 Ht3)
    as (t4 & ps2 & Ht4 & _ & _ & _ & _ & Hps2 & Hb2 & _).
  { rewrite Hc3, Hc2. cbn. lia. }
  { rewrite Hc3, Hc2. cbn. fold n. lia. }
  destruct (receive_chunks_state rconn fileId cs2 w3 t3 Ht3) as (t4' & Ht4' & Hsame4 & Hd4).
  destruct (receive_chunks_record rconn fileId cs2 w3 t3 Ht3) as (t4'' & Ht4'' & Hst4 & Hp4).
  set (w4 := receive rconn (map (chunkMessage fileId) cs2) w3) in *.
  rewrite Ht4 in Ht4', Ht4''. injection Ht4' as <-. injection Ht4'' as <-.
  exists t4, ps1, ps2.
  split; [exact Ht4|]. split; [congruence|].
  split.
  { rewrite Hp4, Hc3, Hc2. cbn [chunks_total chunks_transferred newTransfer ft_chunks t0].
    destruct cs2 as [|c cs2']; [exact Hp3|]. fold n. f_equal. lia. }
  split; [eauto using sameFile_trans|].
  split.
  { rewrite Hd4, Hd3, Hd2. change (fileData (service w1)) with (fileData (service w)).
    destruct cs1 as [|c1 cs1'], cs2 as [|c2 cs2']; cbn [app default];
      rewrite ?app_nil_r; try reflexivity.
    rewrite List.map_app, List.concat_app, app_assoc. reflexivity. }
  split.
  { rewrite Hps2, He3, Hps1, He1, <- !app_assoc. reflexivity. }
  split.
  { eapply List.Forall_impl; [|exact Hb1]. cbn. intros q [H1 H2]. split; [|exact H2].
    rewrite <- (percent_zero n). exact H1. }
  split; [exact Hs1|].
  split.
  { eapply List.Forall_impl; [|exact Hb2]. cbn. intros q [_ H2]. exact H2. }
  intros ->. subst w4. cbn [map receive fold_left] in Hps2.
  rewrite <- (app_nil_r (reportedProgress (effects w3))) in Hps2 at 1.
  apply List.app_inv_head in Hps2. symmetry. exact Hps2.
Qed.

(** The stream of one [sendFile], received in order: the record ends
    'completed' at 100, the buffer has grown by the file, and the progress
    reported is 0 for the announcement, then what the chunks give, then
    100. *)
Lemma receive_sent_stream (rconn : DataConnection) (fileId : string) (file : File)
    (chunks : list (Z * bytes)) (w : World) :
  Z.of_nat (length chunks) = ceilDiv (file_size file) CHUNK_SIZE ->
  let fileHash := calculateHash (file_data file) in
  let w' := receive rconn
              (FileStart (newTransfer fileId file fileHash) ::
               map (chunkMessage fileId) chunks ++ [FileEnd fileId fileHash]) w in
  exists t' ps,
    localStorage w' !! transferKey fileId = Some t' /\
    ft_status t' = Completed /\
    ft_progress t' = 100%Q /\
    default [] (fileData (service w') !! fileId) =
      default [] (fileData (service w) !! fileId) ++ concat (map snd chunks) /\
    reportedProgress (effects w') =
      reportedProgress (effects w) ++
      map (fun _ => 0%Q) (fileTransferListeners (service w)) ++ ps ++
      map (fun _ => 100%Q) (fileTransferListeners (service w)) /\
    Forall (fun q => (0 <= q)%Q /\ (q <= 100)%Q) ps /\
    StronglySorted Qle ps.
Proof.
  intros Hcount fileHash w'. subst w'.
  destruct (receive_stream rconn fileId file chunks [] w)
    as (t' & ps1 & ps2 & Ht' & Hst & Hpr & _ & Hd & Hps & Hb & Hs & _ & Hnil).
  { rewrite app_nil_r. exact Hcount. }
  rewrite (Hnil eq_refl), !app_nil_r in Hps. rewrite app_nil_r in Hd.
  cbn [map] in Ht', Hd, Hps. fold fileHash in Ht', Hd, Hps.
  exists t', ps1. split; [exact Ht'|]. split; [exact Hst|]. split; [exact Hpr|].
  split.
  { rewrite Hd. destruct chunks; cbn [default map concat];
      rewrite ?app_nil_r; reflexivity. }
  split; [exact Hps|]. split; [exact Hb|exact Hs].
Qed.




(* ===================================================================== *)
(*  Further properties of the code                                        *)
(* ===================================================================== *)

(* --------------------------------------------------------------------- *)
(*  Digests and ids in hex                                                *)
(* --------------------------------------------------------------------- *)

Lemma append_empty_r (x : string) : x +:+ "" = x.
Proof.
  induction x as [|c x IH]; [reflexivity|].
  change (String c (x +:+ "") = String c x). f_equal. exact IH.
Qed.

Lemma concat_empty_cons (x : string) (xs : list string) :
  String.concat "" (x :: xs) = x +:+ String.concat "" xs.
Proof.
  destruct xs as [|y ys]; [|reflexivity].
  simpl. symmetry. apply append_empty_r.
Qed.

Lemma hexDigit_isHexDigit (d : Z) : isHexDigit (hexDigit d).
Proof.
  unfold isHexDigit, hexDigit.
  destruct (List.nth_in_or_default (Z.to_nat d)
              (list_ascii_of_string "0123456789abcdef") "0"%char) as [H|H].
  - exact H.
  - rewrite H. left. reflexivity.
Qed.

(** The hex rendering of a list of numbers: two digits each. *)
Lemma hex_concat_format (l : list Z) :
  String.length (String.concat "" (map toHex2 l)) = (2 * length l)%nat /\
  Forall isHexDigit (list_ascii_of_string (String.concat "" (map toHex2 l))).
Proof.
  induction l as [|b l [IHlen IHhex]]; [split; [reflexivity|constructor]|].
  cbn [map]. rewrite concat_empty_cons.
  change (toHex2 b +:+ String.concat "" (map toHex2 l))
    with (String (hexDigit (b / 16))
            (String (hexDigit (b mod 16)) (String.concat "" (map toHex2 l)))).
  cbn [String.length list_ascii_of_string].
  split.
  - rewrite IHlen. cbn [length]. lia.
  - constructor; [apply hexDigit_isHexDigit|].
    constructor; [apply hexDigit_isHexDigit|]. exact IHhex.
Qed.

Lemma digest_length (data : bytes) : length (Sha256.digest data) = 32%nat.
Proof.
  unfold Sha256.digest. cbv zeta.
  generalize (Sha256.blocks
                (length (Sha256.pad (map (fun b => Z.of_N (Byte.to_N b)) data)))
                Sha256.init
                (Sha256.pad (map (fun b => Z.of_N (Byte.to_N b)) data))).
  intros r. reflexivity.
Qed.

(** X1: whatever the buffer, [calculateHash] returns 64 characters, each a
    lower-case hex digit. *)
Theorem calculateHash_format (data : bytes) :
  String.length (calculateHash data) = 64%nat /\
  Forall isHexDigit (list_ascii_of_string (calculateHash data)).
Proof.
  unfold calculateHash.
  destruct (hex_concat_format (Sha256.digest data)) as [Hlen Hhex].
  rewrite digest_length in Hlen. split; [exact Hlen|exact Hhex].
Qed.

Lemma fromHex2_toHex2 (b : byte) :
  fromHex2 (toHex2 (Z.of_N (Byte.to_N b))) = Some b.
Proof. destruct b; vm_compute; reflexivity. Qed.

Lemma toHex2_injective (b1 b2 : byte) :
  toHex2 (Z.of_N (Byte.to_N b1)) = toHex2 (Z.of_N (Byte.to_N b2)) -> b1 = b2.
Proof.
  intros H. apply (f_equal fromHex2) in H.
  rewrite !fromHex2_toHex2 in H. congruence.
Qed.

Lemma generateFileId_cons (b : byte) (a : bytes) :
  generateFileId (b :: a) =
  String (hexDigit (Z.of_N (Byte.to_N b) / 16))
    (String (hexDigit (Z.of_N (Byte.to_N b) mod 16)) (generateFileId a)).
Proof. unfold generateFileId. cbn [map]. rewrite concat_empty_cons. reflexivity. Qed.

Lemma generateFileId_injective (array : bytes) :
  forall array', generateFileId array = generateFileId array' -> array = array'.
Proof.
  induction array as [|b a IH]; intros [|b' a'] Heq.
  - reflexivity.
  - rewrite generateFileId_cons in Heq. discriminate.
  - rewrite generateFileId_cons in Heq. discriminate.
  - rewrite !generateFileId_cons in Heq. injection Heq as Hhi Hlo Hrest.
    assert (Hb : b = b').
    { apply toHex2_injective. unfold toHex2. rewrite Hhi, Hlo. reflexivity. }
    subst b'. f_equal. apply IH. exact Hrest.
Qed.

(** X2: [generateFileId] writes two hex digits per random byte, so 32
    characters for the 16 bytes it draws, and different draws give
    different ids. *)
Theorem generateFileId_format_injective (array array' : bytes) :
  String.length (generateFileId array) = (2 * length array)%nat /\
  Forall isHexDigit (list_ascii_of_string (generateFileId array)) /\
  (generateFileId array = generateFileId array' <-> array = array').
Proof.
  unfold generateFileId at 1 2.
  rewrite <- (List.map_map (fun b => Z.of_N (Byte.to_N b)) toHex2).
  destruct (hex_concat_format (map (fun b => Z.of_N (Byte.to_N b)) array)) as [H1 H2].
  rewrite List.length_map in H1.
  split; [exact H1|]. split; [exact H2|].
  split; [apply generateFileId_injective|intros ->; reflexivity].
Qed.

(* --------------------------------------------------------------------- *)
(*  The receiver: unknown ids, other transfers, removed transfers         *)
(* --------------------------------------------------------------------- *)

Lemma transferKey_injective (a b : string) : transferKey a = transferKey b -> a = b.
Proof. unfold transferKey. intros H. injection H as H. exact H. Qed.

Lemma dataEvent_chunk_unknown
    (conn : DataConnection) (fileId : string) (chunk : bytes) (offset : Z) (w : World) :
  localStorage w !! transferKey fileId = None ->
  dataEvent conn (FileChunk fileId chunk offset (calculateHash chunk)) w = w.
Proof.
  intros Hnone. unfold dataEvent, detached, onData, handleFileChunk.
  rewrite String.eqb_refl. step. rewrite Hnone. reflexivity.
Qed.

(** X3: messages for a transfer id with no stored record.  A chunk, even
    with the right digest, is dropped without a trace.  File-end stores
    nothing and tells no subscriber; [showNotification] is still called
    for it, and raises the 'File Received' notification when the browser
    has notifications, the permission is granted and the page is hidden. *)
Theorem messages_for_unknown_transfer
    (conn : DataConnection) (fileId : string) (chunk : bytes) (offset : Z)
    (fileHash : string) (w : World) :
  localStorage w !! transferKey fileId = None ->
  dataEvent conn (FileChunk fileId chunk offset (calculateHash chunk)) w = w /\
  dataEvent conn (FileEnd fileId fileHash) w =
    (if notifies w
     then with_effects
            (fun log => log ++
               [ShowNotification "File Received" "undefined has been received"]) w
     else w).
Proof.
  intros Hnone. split.
  - apply dataEvent_chunk_unknown. exact Hnone.
  - destruct (dataEvent_fileEnd conn fileId fileHash w) as [_ ->].
    unfold handleFileEnd, notification. step. rewrite Hnone. cbn.
    destruct (notifies w); [reflexivity|apply with_effects_nil].
Qed.

Lemma messages_for_unknown_transfer_witness :
  dataEvent Sample.bob (FileChunk "f9" Sample.abc 0 (calculateHash Sample.abc)) Sample.linked
  = Sample.linked /\
  effects (dataEvent Sample.bob (FileEnd "f9" "") Sample.linked) =
    [ShowNotification "File Received" "undefined has been received"].
Proof.
  destruct (messages_for_unknown_transfer Sample.bob "f9" Sample.abc 0 "" Sample.linked)
    as [Hchunk Hend].
  - reflexivity.
  - split; [exact Hchunk|]. rewrite Hend. reflexivity.
Defined.

(** X4: the three file messages of one transfer leave every other
    transfer alone: the record and the buffer stored under another id are
    the same before and after. *)
Theorem file_messages_touch_one_transfer
    (conn : DataConnection) (transfer : FileTransfer) (fileId : string)
    (chunk : bytes) (offset : Z) (hash : string) (other : string) (w : World) :
  other <> fileId ->
  other <> ft_id transfer ->
  let unchanged (w' : World) :=
    localStorage w' !! transferKey other = localStorage w !! transferKey other /\
    fileData (service w') !! other = fileData (service w) !! other in
  unchanged (dataEvent conn (FileStart transfer) w) /\
  unchanged (dataEvent conn (FileChunk fileId chunk offset hash) w) /\
  unchanged (dataEvent conn (FileEnd fileId hash) w).
Proof.
  intros Hne Hne' unchanged. subst unchanged. cbv beta.
  assert (Hk : transferKey fileId <> transferKey other)
    by (intros H; apply transferKey_injective in H; congruence).
  assert (Hk' : transferKey (ft_id transfer) <> transferKey other)
    by (intros H; apply transferKey_injective in H; congruence).
  split; [|split].
  - rewrite dataEvent_fileStart. cbn.
    rewrite lookup_insert_ne by exact Hk'. auto.
  - unfold dataEvent, detached, onData, handleFileChunk.
    destruct (String.eqb (calculateHash chunk) hash); cbn [negb]; [|split; reflexivity].
    step. destruct (localStorage w !! transferKey fileId) as [t|]; [|split; reflexivity].
    step. rewrite lookup_insert_ne by exact Hk.
    rewrite lookup_insert_ne by congruence. auto.
  - destruct (dataEvent_fileEnd conn fileId hash w) as [_ ->].
    unfold handleFileEnd, notifyFileTransfer. step.
    destruct (localStorage w !! transferKey fileId) as [t|]; [|split; reflexivity].
    step. rewrite lookup_insert_ne by exact Hk. auto.
Qed.

Lemma file_messages_touch_one_transfer_witness :
  fileData (service (dataEvent Sample.bob
                       (FileChunk "f1" Sample.abc 0 (calculateHash Sample.abc))
                       Sample.linked)) !! "f2"
  = fileData (service Sample.linked) !! "f2".
Proof.
  apply (file_messages_touch_one_transfer Sample.bob (Sample.announce 1) "f1"
           Sample.abc 0 (calculateHash Sample.abc) "f2" Sample.linked);
    discriminate.
Defined.

(** X5: once [removeFile] has run for an id, [downloadFile] for it throws
    'File not found', and a chunk of that transfer that still arrives is
    dropped, so no buffer is stored for the id again; removing it once
    more changes nothing that is stored. *)
Theorem removed_transfer_stays_removed
    (conn : DataConnection) (fileId : string) (chunk : bytes) (offset : Z) (w : World) :
  let w' := snd (removeFile fileId w) in
  downloadFile fileId w' = (Throw "File not found", w') /\
  dataEvent conn (FileChunk fileId chunk offset (calculateHash chunk)) w' = w' /\
  localStorage (snd (removeFile fileId w')) = localStorage w' /\
  fileData (service (snd (removeFile fileId w'))) = fileData (service w').
Proof.
  intros w'.
  assert (Hnone : localStorage w' !! transferKey fileId = None)
    by (subst w'; cbn; apply lookup_delete_eq).
  split; [|split; [|split]].
  - rewrite downloadFile_eq, Hnone. reflexivity.
  - apply dataEvent_chunk_unknown. exact Hnone.
  - subst w'. cbn. apply delete_delete_eq.
  - subst w'. cbn. apply delete_delete_eq.
Qed.
(* --------------------------------------------------------------------- *)
(*  From [sendFile] to [downloadFile]                                     *)
(* --------------------------------------------------------------------- *)

(** What [sendFile] hands to [conn.send]. *)
Lemma sendFile_messages
    (fileId : string) (clock : nat -> Z) (file : File) (peerId : string)
    (conn : DataConnection) (ws : World) :
  map_get peerId (connections (service ws)) = Some conn ->
  exists chunks,
    sentMessages (trace (sendFile fileId clock file peerId) ws) =
      FileStart (newTransfer fileId file (calculateHash (file_data file))) ::
      map (chunkMessage fileId) chunks ++
      [FileEnd fileId (calculateHash (file_data file))] /\
    Z.of_nat (length chunks) = ceilDiv (file_size file) CHUNK_SIZE /\
    concat (map snd chunks) = file_data file /\
    (chunks = [] <-> file_data file = []).
Proof.
  intros Hconn.
  destruct (sendFile_run fileId clock file peerId conn (clearLog ws) Hconn)
    as (w' & chunks & ps & Hrun & Hmsgs & _ & Hcount & Hcat & Hsizes & _).
  exists chunks. split; [unfold trace; rewrite Hrun; exact Hmsgs|].
  split; [exact Hcount|]. split; [exact Hcat|].
  rewrite <- Hcat. split; [intros ->; reflexivity|].
  destruct chunks as [|c chunks']; [reflexivity|]. intros Hnil.
  pose proof (List.Forall_inv Hsizes) as Hc.
  destruct c as [off d]. cbn [snd map concat] in *.
  destruct d as [|b d]; [unfold byteLength in Hc; cbn in Hc; lia|discriminate].
Qed.

(** The state a receiver is in after the messages of one [sendFile],
    handled in the order they were sent. *)
Lemma received_stream_state
    (fileId : string) (clock : nat -> Z) (file : File) (peerId : string)
    (conn rconn : DataConnection) (ws wr : World) :
  map_get peerId (connections (service ws)) = Some conn ->
  let wr' := receive rconn (sentMessages (trace (sendFile fileId clock file peerId) ws)) wr in
  exists t,
    localStorage wr' !! transferKey fileId = Some t /\
    ft_status t = Completed /\
    ft_progress t = 100%Q /\
    sameFile (newTransfer fileId file (calculateHash (file_data file))) t /\
    fileData (service wr') !! fileId =
      match file_data file with
      | [] => fileData (service wr) !! fileId
      | _ => Some (default [] (fileData (service wr) !! fileId) ++ file_data file)
      end.
Proof.
  intros Hconn wr'.
  destruct (sendFile_messages fileId clock file peerId conn ws Hconn)
    as (chunks & Hsent & Hcount & Hcat & Hnil).
  destruct (receive_stream rconn fileId file chunks [] wr)
    as (t & _ & _ & Ht & Hst & Hpr & Hsame & Hbuf & _).
  { rewrite app_nil_r. exact Hcount. }
  rewrite app_nil_r in Hbuf. cbn [map] in Ht, Hbuf.
  subst wr'. rewrite Hsent. exists t.
  split; [exact Ht|]. split; [exact Hst|]. split; [exact Hpr|]. split; [exact Hsame|].
  rewrite Hbuf, Hcat.
  destruct chunks as [|c chunks'].
  - rewrite (proj1 Hnil eq_refl). reflexivity.
  - destruct (file_data file) as [|b d]; [|reflexivity].
    destruct Hnil as [_ Hnil]. discriminate (Hnil eq_refl).
Qed.

(** The same on a schedule: the digests may resolve late, file-end may be
    handled before them; what matters for the buffer is that the chunks
    are handled in the order they arrived. *)
Lemma scheduled_stream_state
    (fileId : string) (clock : nat -> Z) (file : File) (peerId : string)
    (conn rconn : DataConnection) (ws wr : World) (ticks : list Tick) :
  map_get peerId (connections (service ws)) = Some conn ->
  arrivals ticks = sentMessages (trace (sendFile fileId clock file peerId) ws) ->
  complete 0 ticks = true ->
  List.filter isChunk (handled [] ticks) = List.filter isChunk (arrivals ticks) ->
  let wr' := rx_world (deliver rconn ticks (mkReceiver wr [])) in
  exists t,
    localStorage wr' !! transferKey fileId = Some t /\
    ft_status t = Completed /\
    (ft_progress t == 100)%Q /\
    sameFile (newTransfer fileId file (calculateHash (file_data file))) t /\
    fileData (service wr') !! fileId =
      match file_data file with
      | [] => fileData (service wr) !! fileId
      | _ => Some (default [] (fileData (service wr) !! fileId) ++ file_data file)
      end.
Proof.
  intros Hconn Harr Hcomplete Hfifo wr'.
  destruct (sendFile_messages fileId clock file peerId conn ws Hconn)
    as (chunks & Hsent & Hcount & Hcat & Hnil).
  rewrite Hsent in Harr.
  destruct (handled_stream fileId (calculateHash (file_data file)) _ chunks ticks
              Harr Hcomplete) as (cs1 & cs2 & Hh & _ & Horder & _).
  specialize (Horder Hfifo).
  destruct (receive_stream rconn fileId file cs1 cs2 wr)
    as (t & _ & _ & Ht & Hst & Hpr & Hsame & Hbuf & _).
  { rewrite Horder. exact Hcount. }
  subst wr'. rewrite deliver_handled, Hh. exists t.
  split; [exact Ht|]. split; [exact Hst|].
  split.
  { rewrite Hpr. destruct cs2 as [|c cs2']; [reflexivity|].
    apply percent_full. rewrite <- Hcount, <- Horder, List.length_app. cbn. lia. }
  split; [exact Hsame|].
  rewrite Hbuf, Horder, Hcat.
  destruct chunks as [|c chunks'].
  - rewrite (proj1 Hnil eq_refl). reflexivity.
  - destruct (file_data file) as [|b d]; [|reflexivity].
    destruct Hnil as [_ Hnil]. discriminate (Hnil eq_refl).
Qed.

(** X6: the round trip.  The messages of one [sendFile] of a non-empty
    file arrive in order at a service that holds no buffer for the id.
    When the digests of the chunks resolve in the order the chunks arrived
    -- however late, file-end may be handled before them -- the record
    ends 'completed' at 100 and the buffer equals the file, byte for byte;
    [downloadFile] then hands out exactly the file's bytes under its name
    and type. *)
Theorem transfer_round_trip
    (fileId : string) (clock : nat -> Z) (file : File) (peerId : string)
    (conn rconn : DataConnection) (ws wr : World) (ticks : list Tick) :
  map_get peerId (connections (service ws)) = Some conn ->
  fileData (service wr) !! fileId = None ->
  file_data file <> [] ->
  arrivals ticks = sentMessages (trace (sendFile fileId clock file peerId) ws) ->
  complete 0 ticks = true ->
  List.filter isChunk (handled [] ticks) = List.filter isChunk (arrivals ticks) ->
  let wr' := rx_world (deliver rconn ticks (mkReceiver wr [])) in
  (ft_status <$> localStorage wr' !! transferKey fileId) = Some Completed /\
  (exists q, (ft_progress <$> localStorage wr' !! transferKey fileId) = Some q /\
             (q == 100)%Q) /\
  fileData (service wr') !! fileId = Some (file_data file) /\
  fst (downloadFile fileId wr') = Ok tt /\
  trace (downloadFile fileId) wr' =
    [Download (file_name file)
       (if String.eqb (file_type file) "" then "application/octet-stream"
        else file_type file)
       (file_data file)].
Proof.
  intros Hconn Hnone Hdata Harr Hcomplete Hfifo. cbv zeta.
  destruct (scheduled_stream_state fileId clock file peerId conn rconn ws wr ticks
              Hconn Harr Hcomplete Hfifo)
    as (t & Ht & Hst & Hpr & (_ & Hname & _ & Htype & _) & Hbuf).
  set (wr' := rx_world _) in *.
  assert (Hbuf' : fileData (service wr') !! fileId = Some (file_data file)).
  { unfold bytes in *. rewrite Hnone in Hbuf.
    destruct (file_data file) as [|b d]; [congruence|exact Hbuf]. }
  rewrite Ht. cbn [fmap option_fmap option_map]. rewrite Hst.
  split; [reflexivity|]. split; [exists (ft_progress t); auto|]. split; [exact Hbuf'|].
  unfold trace. rewrite (downloadFile_eq fileId (clearLog wr')), downloadFile_eq.
  change (localStorage (clearLog wr')) with (localStorage wr').
  change (service (clearLog wr')) with (service wr').
  unfold bytes in *. rewrite Ht, Hbuf'. cbn. rewrite Hname, Htype. split; reflexivity.
Qed.

Lemma transfer_round_trip_witness :
  let sent := sentMessages (trace (sendFile "f1" (fun k => Z.of_nat k)
                                     (mkFile "a.txt" "" 0 Sample.abc) "bob-id")
                              Sample.linked) in
  fileData (service (rx_world
    (deliver Sample.bob (map Arrive sent ++ [Resolve 0%nat])
       (mkReceiver Sample.idle [])))) !! "f1" = Some Sample.abc.
Proof.
  apply (transfer_round_trip "f1" (fun k => Z.of_nat k)
           (mkFile "a.txt" "" 0 Sample.abc) "bob-id" Sample.bob Sample.bob
           Sample.linked Sample.idle
           (map Arrive
              (sentMessages (trace (sendFile "f1" (fun k => Z.of_nat k)
                                      (mkFile "a.txt" "" 0 Sample.abc) "bob-id")
                               Sample.linked)) ++ [Resolve 0%nat])).
  - reflexivity.
  - reflexivity.
  - discriminate.
  - vm_compute. reflexivity.
  - vm_compute. reflexivity.
  - vm_compute. reflexivity.
Defined.

(** X7: an empty file is received as 'completed' at 100, but no chunk ever
    stores a buffer for it: with none stored before, [downloadFile] throws
    'File data not found'. *)
Theorem empty_file_completes_without_buffer
    (fileId : string) (clock : nat -> Z) (file : File) (peerId : string)
    (conn rconn : DataConnection) (ws wr : World) :
  map_get peerId (connections (service ws)) = Some conn ->
  fileData (service wr) !! fileId = None ->
  file_data file = [] ->
  let sent := sentMessages (trace (sendFile fileId clock file peerId) ws) in
  let wr' := receive rconn sent wr in
  length sent = 2%nat /\
  (ft_status <$> localStorage wr' !! transferKey fileId) = Some Completed /\
  (ft_progress <$> localStorage wr' !! transferKey fileId) = Some 100%Q /\
  fileData (service wr') !! fileId = None /\
  downloadFile fileId wr' = (Throw "File data not found", wr').
Proof.
  intros Hconn Hnone Hdata. cbv zeta.
  destruct (received_stream_state fileId clock file peerId conn rconn ws wr Hconn)
    as (t & Ht & Hst & Hpr & _ & Hbuf).
  set (sent := sentMessages _) in *. set (wr' := receive rconn sent wr) in *.
  unfold bytes in *. rewrite Hdata, Hnone in Hbuf.
  destruct (sendFile_messages fileId clock file peerId conn ws Hconn)
    as (chunks & Hmsgs & _ & _ & Hnil).
  split; [subst sent; rewrite Hmsgs, (proj2 Hnil Hdata); reflexivity|].
  rewrite Ht. cbn [fmap option_fmap option_map]. rewrite Hst, Hpr.
  split; [reflexivity|]. split; [reflexivity|]. split; [exact Hbuf|].
  rewrite downloadFile_eq. unfold bytes in *. rewrite Ht, Hbuf. reflexivity.
Qed.

Lemma empty_file_completes_without_buffer_witness :
  downloadFile "f1"
    (receive Sample.bob
       (sentMessages (trace (sendFile "f1" (fun k => Z.of_nat k)
                               (mkFile "empty.txt" "" 0 []) "bob-id") Sample.linked))
       Sample.idle)
  = (Throw "File data not found",
     receive Sample.bob
       (sentMessages (trace (sendFile "f1" (fun k => Z.of_nat k)
                               (mkFile "empty.txt" "" 0 []) "bob-id") Sample.linked))
       Sample.idle).
Proof.
  apply (empty_file_completes_without_buffer "f1" (fun k => Z.of_nat k)
           (mkFile "empty.txt" "" 0 []) "bob-id" Sample.bob Sample.bob
           Sample.linked Sample.idle); reflexivity.
Defined.

(** X8: file-start does not reset the receive buffer.  When a buffer is
    still stored under the id and the digests of the chunks resolve in the
    order the chunks arrived, the bytes of the new stream are appended to
    the old buffer, and the transfer is nevertheless 'completed'. *)
Theorem stale_buffer_is_appended_to
    (fileId : string) (clock : nat -> Z) (file : File) (peerId : string)
    (conn rconn : DataConnection) (ws wr : World) (old : bytes) (ticks : list Tick) :
  map_get peerId (connections (service ws)) = Some conn ->
  fileData (service wr) !! fileId = Some old ->
  arrivals ticks = sentMessages (trace (sendFile fileId clock file peerId) ws) ->
  complete 0 ticks = true ->
  List.filter isChunk (handled [] ticks) = List.filter isChunk (arrivals ticks) ->
  let wr' := rx_world (deliver rconn ticks (mkReceiver wr [])) in
  (ft_status <$> localStorage wr' !! transferKey fileId) = Some Completed /\
  fileData (service wr') !! fileId = Some (old ++ file_data file).
Proof.
  intros Hconn Hold Harr Hcomplete Hfifo. cbv zeta.
  destruct (scheduled_stream_state fileId clock file peerId conn rconn ws wr ticks
              Hconn Harr Hcomplete Hfifo)
    as (t & Ht & Hst & _ & _ & Hbuf).
  set (wr' := rx_world _) in *. rewrite Ht. cbn [fmap option_fmap option_map]. rewrite Hst.
  split; [reflexivity|]. unfold bytes in *. rewrite Hold in Hbuf.
  destruct (file_data file) as [|b d]; [rewrite app_nil_r|]; exact Hbuf.
Qed.

Lemma stale_buffer_is_appended_to_witness :
  let sent := sentMessages (trace (sendFile "f1" (fun k => Z.of_nat k)
                                     (mkFile "a.txt" "" 0 Sample.abc) "bob-id")
                              Sample.linked) in
  let once := receive Sample.bob sent Sample.idle in
  fileData (service (rx_world
    (deliver Sample.bob (promptly sent) (mkReceiver once [])))) !! "f1"
  = Some (Sample.abc ++ Sample.abc).
Proof.
  apply (stale_buffer_is_appended_to "f1" (fun k => Z.of_nat k)
           (mkFile "a.txt" "" 0 Sample.abc) "bob-id" Sample.bob Sample.bob
           Sample.linked).
  - reflexivity.
  - vm_compute. reflexivity.
  - vm_compute. reflexivity.
  - vm_compute. reflexivity.
  - vm_compute. reflexivity.
Defined.

(** X26: the receiver never looks at the offset of a chunk.  On every
    schedule that is run to its end, the buffer grows by the payloads of
    the chunks of the stream, each once, in the order in which their
    digests resolved -- a permutation of the order in which they were
    sent -- and the transfer ends 'completed' whatever that order is. *)
Theorem buffer_follows_resolution_order
    (fileId : string) (clock : nat -> Z) (file : File) (peerId : string)
    (conn rconn : DataConnection) (ws wr : World) (ticks : list Tick) :
  map_get peerId (connections (service ws)) = Some conn ->
  arrivals ticks = sentMessages (trace (sendFile fileId clock file peerId) ws) ->
  complete 0 ticks = true ->
  let wr' := rx_world (deliver rconn ticks (mkReceiver wr [])) in
  exists cs : list (Z * bytes),
    List.filter isChunk (handled [] ticks) = map (chunkMessage fileId) cs /\
    Permutation (map (chunkMessage fileId) cs) (List.filter isChunk (arrivals ticks)) /\
    default [] (fileData (service wr') !! fileId) =
      default [] (fileData (service wr) !! fileId) ++ concat (map snd cs) /\
    (ft_status <$> localStorage wr' !! transferKey fileId) = Some Completed.
Proof.
  intros Hconn Harr Hcomplete wr'.
  destruct (sendFile_messages fileId clock file peerId conn ws Hconn)
    as (chunks & Hsent & Hcount & _).
  rewrite Hsent in Harr.
  destruct (handled_stream fileId (calculateHash (file_data file)) _ chunks ticks
              Harr Hcomplete) as (cs1 & cs2 & Hh & Hperm & _).
  destruct (receive_stream rconn fileId file cs1 cs2 wr)
    as (t & _ & _ & Ht & Hst & _ & _ & Hbuf & _).
  { rewrite (Permutation_length Hperm). exact Hcount. }
  subst wr'. rewrite deliver_handled, Hh, Harr. exists (cs1 ++ cs2).
  cbn [List.filter isChunk]. rewrite !List.filter_app. cbn [List.filter isChunk].
  rewrite !filter_chunkMessages, app_nil_r, <- List.map_app.
  split; [reflexivity|]. split; [apply Permutation_map; exact Hperm|].
  split.
  - rewrite Hbuf. destruct (cs1 ++ cs2); [cbn; rewrite app_nil_r|]; reflexivity.
  - rewrite Ht. cbn. rewrite Hst. reflexivity.
Qed.

Lemma buffer_follows_resolution_order_witness :
  let sent := sentMessages (trace (sendFile "f1" (fun k => Z.of_nat k)
                                     (mkFile "a.txt" "" 0 Sample.abc) "bob-id")
                              Sample.linked) in
  let wr' := rx_world (deliver Sample.bob (map Arrive sent ++ [Resolve 0%nat])
                         (mkReceiver Sample.idle [])) in
  exists cs : list (Z * bytes),
    List.filter isChunk (handled [] (map Arrive sent ++ [Resolve 0%nat])) =
      map (chunkMessage "f1") cs /\
    Permutation (map (chunkMessage "f1") cs)
      (List.filter isChunk (arrivals (map Arrive sent ++ [Resolve 0%nat]))) /\
    default [] (fileData (service wr') !! "f1") =
      default [] (fileData (service Sample.idle) !! "f1") ++ concat (map snd cs) /\
    (ft_status <$> localStorage wr' !! transferKey "f1") = Some Completed.
Proof.
  apply (buffer_follows_resolution_order "f1" (fun k => Z.of_nat k)
           (mkFile "a.txt" "" 0 Sample.abc) "bob-id" Sample.bob Sample.bob
           Sample.linked Sample.idle).
  - reflexivity.
  - vm_compute. reflexivity.
  - vm_compute. reflexivity.
Defined.

(* --------------------------------------------------------------------- *)
(*  The sender's own record                                               *)
(* --------------------------------------------------------------------- *)

(** One round of the chunk loop, as far as the stored records go. *)
Lemma readNextChunk_round_record (file : File) (peerId fileId fileHash : string)
    (clock : nat -> Z) fuel tick offset lastUpdate bytesTransferred w t :
  offset < file_size file ->
  localStorage w !! transferKey fileId = Some t ->
  exists w1 offset' lastUpdate' bytesTransferred' t1,
    readNextChunk (S fuel) file peerId fileId fileHash clock tick
      offset lastUpdate bytesTransferred w =
    readNextChunk fuel file peerId fileId fileHash clock (S tick)
      offset' lastUpdate' bytesTransferred' w1 /\
    service w1 = service w /\
    (forall k, k <> transferKey fileId -> localStorage w1 !! k = localStorage w !! k) /\
    localStorage w1 !! transferKey fileId = Some t1 /\
    sameFile t t1 /\
    ft_status t1 = ft_status t /\
    chunks_total (ft_chunks t1) = chunks_total (ft_chunks t).
Proof.
  intros Ho Ht. cbn [readNextChunk].
  destruct (Z.leb_spec (file_size file) offset) as [Hge|_]; [lia|].
  unfold bind at 1. unfold emit at 1, modify at 1.
  destruct (100 <=? clock tick - lastUpdate).
  - step. rewrite Ht. step.
    eexists _, _, _, _, _. split; [reflexivity|]. cbn.
    split; [reflexivity|].
    split; [intros k Hk; apply lookup_insert_ne; congruence|].
    split; [apply lookup_insert_eq|].
    repeat split.
  - eexists _, _, _, _, t. split; [reflexivity|]. cbn.
    split; [reflexivity|]. split; [reflexivity|]. split; [exact Ht|].
    repeat split.
Qed.

(** The chunk loop only refreshes the record of its own transfer: the
    service is untouched, other keys are untouched, and the record keeps
    its file, its status and its announced total. *)
Lemma readNextChunk_keeps (file : File) (peerId fileId fileHash : string)
    (clock : nat -> Z) (fuel : nat) :
  forall tick offset lastUpdate bytesTransferred w t,
    localStorage w !! transferKey fileId = Some t ->
    let w' := snd (readNextChunk fuel file peerId fileId fileHash clock tick
                     offset lastUpdate bytesTransferred w) in
    service w' = service w /\
    (forall k, k <> transferKey fileId -> localStorage w' !! k = localStorage w !! k) /\
    exists t',
      localStorage w' !! transferKey fileId = Some t' /\
      sameFile t t' /\
      ft_status t' = ft_status t /\
      chunks_total (ft_chunks t') = chunks_total (ft_chunks t).
Proof.
  induction fuel as [|fuel IH]; intros tick offset lastUpdate bytesTransferred w t Ht w';
    subst w'.
  - cbn [readNextChunk]. destruct (file_size file <=? offset); cbn;
      (split; [reflexivity|]); (split; [reflexivity|]);
      exists t; auto using sameFile_refl.
  - destruct (Z.leb_spec (file_size file) offset) as [Hge|Hlt].
    + cbn [readNextChunk].
      destruct (Z.leb_spec (file_size file) offset) as [_|Hlt]; [|lia]. cbn.
      split; [reflexivity|]. split; [reflexivity|].
      exists t. auto using sameFile_refl.
    + destruct (readNextChunk_round_record file peerId fileId fileHash clock fuel tick
                  offset lastUpdate bytesTransferred w t Hlt Ht)
        as (w1 & o1 & lu1 & bt1 & t1 & Hstep & Hsv1 & Hother1 & Ht1 & Hs1 & Hst1 & Htot1).
      rewrite Hstep.
      destruct (IH (S tick) o1 lu1 bt1 w1 t1 Ht1)
        as (Hsv & Hother & t' & Ht' & Hs' & Hst' & Htot').
      split; [rewrite Hsv; exact Hsv1|].
      split; [intros k Hk; rewrite Hother by exact Hk; apply Hother1; exact Hk|].
      exists t'. split; [exact Ht'|].
      split; [eapply sameFile_trans; eassumption|].
      split; congruence.
Qed.

(** X9: what [sendFile] leaves on the sending side.  The record it
    stored still reads 'transferring' when the whole file has gone out --
    the sender never marks its own transfer completed -- and no bytes are
    stored for it: unless a buffer was already stored under the id,
    [downloadFile] throws 'File data not found' there.  Records of other
    transfers are as before. *)
Theorem sender_record_after_sendFile
    (fileId : string) (clock : nat -> Z) (file : File) (peerId : string)
    (conn : DataConnection) (w : World) :
  map_get peerId (connections (service w)) = Some conn ->
  let w' := snd (sendFile fileId clock file peerId w) in
  (exists t,
     localStorage w' !! transferKey fileId = Some t /\
     ft_status t = Transferring /\
     sameFile (newTransfer fileId file (calculateHash (file_data file))) t /\
     chunks_total (ft_chunks t) = ceilDiv (file_size file) CHUNK_SIZE) /\
  service w' = service w /\
  (forall other, other <> fileId ->
     localStorage w' !! transferKey other = localStorage w !! transferKey other) /\
  (fileData (service w) !! fileId = None ->
   downloadFile fileId w' = (Throw "File data not found", w')).
Proof.
  intros Hconn w'.
  set (t0 := newTransfer fileId file (calculateHash (file_data file))).
  set (w0 := with_effects (fun log => log ++ [Send (conn_peer conn) (FileStart t0)])
               (with_localStorage <[transferKey fileId := t0]> w)).
  assert (Ht0 : localStorage w0 !! transferKey fileId = Some t0)
    by (subst w0; cbn; apply lookup_insert_eq).
  destruct (sendFile_run fileId clock file peerId conn w Hconn)
    as (w1 & chunks & ps & Hrun & _).
  destruct (readNextChunk_run file (conn_peer conn) fileId
              (calculateHash (file_data file)) clock
              (length (file_data file)) 1%nat 0 (clock 0%nat) 0 w0)
    as (w2 & _ & _ & Hloop & _).
  { unfold file_size, byteLength. lia. }
  { unfold file_size, byteLength. lia. }
  { rewrite Ht0. eauto. }
  destruct (readNextChunk_keeps file (conn_peer conn) fileId
              (calculateHash (file_data file)) clock
              (length (file_data file)) 1%nat 0 (clock 0%nat) 0 w0 t0 Ht0)
    as (Hsv & Hother & t & Ht & Hs & Hst & Htot).
  rewrite Hloop in Hsv, Hother, Ht. cbn [snd] in Hsv, Hother, Ht.
  assert (Hw' : w' = w2).
  { subst w'. unfold sendFile. step. rewrite Hconn. step.
    unfold detached. fold t0. fold w0. rewrite Hloop. reflexivity. }
  rewrite Hw'.
  split.
  { exists t. split; [exact Ht|]. split; [rewrite Hst; reflexivity|].
    split; [exact Hs|]. rewrite Htot. reflexivity. }
  split; [rewrite Hsv; reflexivity|].
  split.
  { intros other Hne. rewrite Hother.
    - subst w0. cbn. apply lookup_insert_ne. intros H. apply transferKey_injective in H. congruence.
    - intros H. apply transferKey_injective in H. congruence. }
  intros Hnone. rewrite downloadFile_eq. unfold bytes in *. rewrite Ht, Hsv.
  change (fileData (service w0)) with (fileData (service w)). rewrite Hnone. reflexivity.
Qed.

Lemma sender_record_after_sendFile_witness :
  let w' := snd (sendFile "f1" (fun k => Z.of_nat k * 100)
                   (mkFile "a.txt" "" 0 Sample.abc) "bob-id" Sample.linked) in
  service w' = service Sample.linked.
Proof.
  apply (sender_record_after_sendFile "f1" (fun k => Z.of_nat k * 100)
           (mkFile "a.txt" "" 0 Sample.abc) "bob-id" Sample.bob Sample.linked).
  reflexivity.
Defined.

(* --------------------------------------------------------------------- *)
(*  Disconnecting                                                         *)
(* --------------------------------------------------------------------- *)

Section JsMap.

Context {V : Type}.

Lemma map_get_delete_eq (k : string) (m : list (string * V)) :
  map_get k (map_delete k m) = None.
Proof.
  induction m as [|[k' v] m IH]; [reflexivity|].
  unfold map_delete in *. cbn [List.filter fst].
  destruct (String.eqb_spec k k') as [->|Hne]; cbn [negb]; [exact IH|].
  cbn [map_get]. rewrite (eqb_false_of_ne _ _ Hne). exact IH.
Qed.

Lemma map_get_delete_ne (k k' : string) (m : list (string * V)) :
  k <> k' -> map_get k' (map_delete k m) = map_get k' m.
Proof.
  intros Hne. induction m as [|[k0 v] m IH]; [reflexivity|].
  unfold map_delete in *. cbn [List.filter fst map_get].
  destruct (String.eqb_spec k k0) as [->|Hne0]; cbn [negb].
  - rewrite IH. rewrite (eqb_false_of_ne k' k0) by congruence. reflexivity.
  - cbn [map_get]. rewrite IH. reflexivity.
Qed.

Lemma map_get_set_eq (k : string) (v : V) (m : list (string * V)) :
  map_get k (map_set k v m) = Some v.
Proof.
  induction m as [|[k' v'] m IH]; cbn [map_set map_get].
  - rewrite String.eqb_refl. reflexivity.
  - destruct (String.eqb_spec k k') as [->|Hne]; cbn [map_get].
    + rewrite String.eqb_refl. reflexivity.
    + rewrite (eqb_false_of_ne _ _ Hne). exact IH.
Qed.

Lemma map_get_set_ne (k k' : string) (v : V) (m : list (string * V)) :
  k <> k' -> map_get k' (map_set k v m) = map_get k' m.
Proof.
  intros Hne. induction m as [|[k0 v0] m IH]; cbn [map_set map_get].
  - rewrite (eqb_false_of_ne k' k) by congruence. reflexivity.
  - destruct (String.eqb_spec k k0) as [->|Hne0]; cbn [map_get].
    + rewrite (eqb_false_of_ne k' k0) by congruence. reflexivity.
    + rewrite IH. reflexivity.
Qed.

(** Setting a key keeps the keys in place: a present key keeps its
    position, a new one goes last. *)
Lemma map_set_keys (k : string) (v : V) (m : list (string * V)) :
  map fst (map_set k v m) =
  if map_has k m then map fst m else map fst m ++ [k].
Proof.
  unfold map_has. induction m as [|[k0 v0] m IH]; cbn [map_set map_get map fst app].
  - reflexivity.
  - destruct (String.eqb_spec k k0) as [->|Hne]; cbn [map fst]; [reflexivity|].
    rewrite IH. destruct (map_get k m); reflexivity.
Qed.

End JsMap.

(** [disconnect] touches the connection table and nothing else that is
    kept: the reconnection counters, states and timers stay. *)
Lemma disconnect_keeps (peerId : string) (w : World) :
  let w' := snd (disconnect peerId w) in
  fst (disconnect peerId w) = Ok tt /\
  connections (service w') = map_delete peerId (connections (service w)) /\
  peer (service w') = peer (service w) /\
  reconnectAttempts (service w') = reconnectAttempts (service w) /\
  reconnectTimeouts (service w') = reconnectTimeouts (service w) /\
  connectionStates (service w') = connectionStates (service w) /\
  connectionListeners (service w') = connectionListeners (service w) /\
  peersUpdateListeners (service w') = peersUpdateListeners (service w) /\
  timers w' = timers w /\
  nextTimer w' = nextTimer w.
Proof.
  unfold disconnect. step.
  destruct (map_get peerId (connections (service w))) as [conn|] eqn:Hget.
  - step. repeat split; reflexivity.
  - cbn. repeat split; try reflexivity.
    symmetry. unfold map_delete.
    induction (connections (service w)) as [|[k v] m IH]; [reflexivity|].
    cbn [map_get] in Hget. cbn [List.filter fst].
    destruct (String.eqb peerId k); [discriminate|]. cbn [negb]. f_equal. apply IH. exact Hget.
Qed.

(** X10: [disconnect] is idempotent.  For a peer without a connection it
    does nothing at all; for a connected peer it sends the notice, closes
    the channel, drops the connection and tells the subscribers once --
    and a second call is again nothing at all.  Connections to other
    peers are not touched. *)
Theorem disconnect_idempotent (peerId : string) (w : World) :
  let w' := snd (disconnect peerId w) in
  (map_get peerId (connections (service w)) = None -> disconnect peerId w = (Ok tt, w)) /\
  (forall conn, map_get peerId (connections (service w)) = Some conn ->
     trace (disconnect peerId) w =
       [Send (conn_peer conn) (Disconnect "User initiated disconnect");
        CloseConn (conn_peer conn)] ++
       map (fun l => ConnectionStatus l peerId "Unknown" false (Some "Disconnected by user"))
           (connectionListeners (service w)) ++
       trace updatePeersList w') /\
  map_get peerId (connections (service w')) = None /\
  disconnect peerId w' = (Ok tt, w') /\
  (forall other, other <> peerId ->
     map_get other (connections (service w')) = map_get other (connections (service w))).
Proof.
  intros w'.
  destruct (disconnect_keeps peerId w) as (_ & Hconns & _).
  fold w' in Hconns.
  assert (Hnone : forall w0, map_get peerId (connections (service w0)) = None ->
                             disconnect peerId w0 = (Ok tt, w0)).
  { intros w0 H0. unfold disconnect. step. rewrite H0. reflexivity. }
  assert (Hgone : map_get peerId (connections (service w')) = None)
    by (rewrite Hconns; apply map_get_delete_eq).
  split; [apply Hnone|].
  split.
  { intros conn Hget.
    assert (Hw' : w' = snd (disconnect peerId w)) by reflexivity.
    clearbody w'. unfold trace at 1. unfold disconnect at 1. step.
    change (connections (service (clearLog w))) with (connections (service w)).
    rewrite Hget. step. unfold trace, updatePeersList. step.
    rewrite Hconns.
    destruct (disconnect_keeps peerId w) as (_ & _ & _ & _ & _ & _ & _ & Hpl & _).
    rewrite <- Hw' in Hpl. rewrite Hpl. reflexivity. }
  split; [exact Hgone|].
  split; [apply Hnone; exact Hgone|].
  intros other Hne. rewrite Hconns. apply map_get_delete_ne. congruence.
Qed.

Lemma disconnect_idempotent_witness :
  disconnect "bob-id" Sample.idle = (Ok tt, Sample.idle) /\
  map_get "bob-id" (connections (service (snd (disconnect "bob-id" Sample.linked)))) = None.
Proof.
  split.
  - apply (proj1 (disconnect_idempotent "bob-id" Sample.idle)). reflexivity.
  - apply (proj1 (proj2 (proj2 (disconnect_idempotent "bob-id" Sample.linked)))).
Defined.

(* --------------------------------------------------------------------- *)
(*  Reconnection: success, overlap, no Peer                               *)
(* --------------------------------------------------------------------- *)

Lemma dials_clearedOnEntry (peerId : string) (w : World) :
  dials (clearedOnEntry peerId w) = [] /\ armed (clearedOnEntry peerId w) = [].
Proof. unfold clearedOnEntry. destruct (reconnectTimeouts (service w) !! peerId); auto. Qed.

Lemma dials_app (es1 es2 : list Effect) : dials (es1 ++ es2) = dials es1 ++ dials es2.
Proof. apply omap_app. Qed.

Lemma armed_app (es1 es2 : list Effect) : armed (es1 ++ es2) = armed es1 ++ armed es2.
Proof. apply omap_app. Qed.

Lemma dials_connectionStatus (peerId username : string) (isConnected : bool)
    (reason : option string) (ls : list Listener) :
  dials (map (fun l => ConnectionStatus l peerId username isConnected reason) ls) = [] /\
  armed (map (fun l => ConnectionStatus l peerId username isConnected reason) ls) = [].
Proof. induction ls as [|l ls [IH1 IH2]]; auto. Qed.

Lemma dials_peersUpdate (peers : list PeerConnection) (ls : list Listener) :
  dials (map (fun l => PeersUpdate l peers) ls) = [] /\
  armed (map (fun l => PeersUpdate l peers) ls) = [].
Proof. induction ls as [|l ls [IH1 IH2]]; auto. Qed.

(** X11: a reconnection that succeeds resets everything kept for the
    peer: the attempt count is deleted, the state reads not connecting and
    without error, no reconnection timer is recorded or armed, and the
    connection is registered as open.  The next failure therefore starts
    again at 1000 ms. *)
Theorem successful_reconnect_resets (peerId message : string) (w : World) :
  is_Some (peer (service w)) ->
  default 0 (reconnectAttempts (service w) !! peerId) < MAX_RECONNECT_ATTEMPTS ->
  isConnecting (default (mkConnectionState false None)
                  (connectionStates (service w) !! peerId)) = false ->
  let w' := snd (tryReconnect Opened peerId w) in
  dials (trace (tryReconnect Opened peerId) w) = [peerId] /\
  armed (trace (tryReconnect Opened peerId) w) = [] /\
  reconnectAttempts (service w') !! peerId = None /\
  connectionStates (service w') !! peerId = Some (mkConnectionState false None) /\
  reconnectTimeouts (service w') !! peerId = None /\
  map_get peerId (connections (service w')) = Some (mkConn peerId true) /\
  armed (trace (tryReconnect (Failed message) peerId) w') = [(CbTryReconnect peerId, 1000)].
Proof.
  intros [p Hp] Hlt Hidle w'.
  assert (Hrun : forall w0, service w0 = service w ->
            exists w1, tryReconnect Opened peerId w0 = (Ok tt, w1) /\
              dials (effects w1) = dials (effects w0) ++ [peerId] /\
              armed (effects w1) = armed (effects w0) /\
              reconnectAttempts (service w1) !! peerId = None /\
              connectionStates (service w1) !! peerId = Some (mkConnectionState false None) /\
              reconnectTimeouts (service w1) !! peerId = None /\
              map_get peerId (connections (service w1)) = Some (mkConn peerId true) /\
              peer (service w1) = peer (service w)).
  { intros w0 Hs.
    unfold tryReconnect, tryReconnect_begin. step. rewrite Hs.
    destruct (reconnectTimeouts (service w) !! peerId) as [t|] eqn:Ht; step;
      rewrite ?Hs, Hidle; step; rewrite ?Hs;
      (destruct (Z.leb_spec MAX_RECONNECT_ATTEMPTS
                   (default 0 (reconnectAttempts (service w) !! peerId))) as [Hge|_];
       [lia|]);
      step; unfold connect_begin; step; rewrite ?Hs, Hp; step;
      unfold tryReconnect_resume, handleConnection, notifyConnectionStatus,
        updatePeersList; step; rewrite ?Hs;
      eexists; (split; [reflexivity|]); cbn;
      rewrite ?Hs, !dials_app, !armed_app,
        !(proj1 (dials_connectionStatus _ _ _ _ _)),
        !(proj2 (dials_connectionStatus _ _ _ _ _)),
        !(proj1 (dials_peersUpdate _ _)), !(proj2 (dials_peersUpdate _ _));
      cbn; rewrite ?app_nil_r.
    - rewrite lookup_delete_eq, lookup_insert_eq, lookup_delete_eq, map_get_set_eq.
      repeat split; try reflexivity; try exact Hp; symmetry; exact Hp.
    - rewrite lookup_delete_eq, lookup_insert_eq, Ht, map_get_set_eq.
      repeat split; try reflexivity; try exact Hp; symmetry; exact Hp. }
  destruct (Hrun (clearLog w) eq_refl) as (w1 & Hr1 & Hd & Ha & _).
  destruct (Hrun w eq_refl) as (w2 & Hr2 & _ & _ & Hat2 & Hst2 & Hto2 & Hc2 & Hp2).
  unfold trace at 1 2. rewrite Hr1. cbn [snd]. rewrite Hd, Ha.
  assert (Hw' : w' = w2) by (subst w'; rewrite Hr2; reflexivity).
  rewrite Hw'.
  split; [reflexivity|]. split; [reflexivity|]. split; [exact Hat2|].
  split; [exact Hst2|]. split; [exact Hto2|]. split; [exact Hc2|].
  destruct (tryReconnect_begin_attempts peerId (clearLog w2)) with (attempts := 0)
    as (w3 & Hb & He3 & Hn3 & _).
  - change (service (clearLog w2)) with (service w2). rewrite Hst2. reflexivity.
  - change (service (clearLog w2)) with (service w2). rewrite Hp2, Hp. eauto.
  - change (service (clearLog w2)) with (service w2). rewrite Hat2. reflexivity.
  - unfold MAX_RECONNECT_ATTEMPTS. lia.
  - destruct (tryReconnect_catch_arms peerId message 0 w3) as (w4 & Hc & He4 & _).
    unfold trace, tryReconnect, bind. rewrite Hb. cbn [tryReconnect_resume sus_rejected sus_peerId sus_attempts].
    rewrite Hc. cbn [snd]. rewrite He4, He3, !armed_app.
    destruct (dials_clearedOnEntry peerId (clearLog w2)) as [_ Hca]. rewrite Hca.
    reflexivity.
Qed.

Lemma successful_reconnect_resets_witness :
  dials (trace (tryReconnect Opened "bob-id") Sample.linked) = ["bob-id"].
Proof.
  apply (successful_reconnect_resets "bob-id" "Could not connect to peer" Sample.linked).
  - vm_compute. eauto.
  - vm_compute. reflexivity.
  - reflexivity.
Defined.

(** X12: reconnections to one peer do not overlap.  While a
    [tryReconnect] for the peer is waiting for its dial, another one
    returns without dialling, counting or arming anything; all it does is
    clear the reconnection timer recorded for the peer. *)
Theorem reconnect_in_progress_suppresses
    (peerId : string) (answer : DialResult) (st : ConnectionState) (w : World) :
  connectionStates (service w) !! peerId = Some st ->
  isConnecting st = true ->
  let w' := snd (tryReconnect answer peerId w) in
  fst (tryReconnect answer peerId w) = Ok tt /\
  trace (tryReconnect answer peerId) w = clearedOnEntry peerId w /\
  reconnectAttempts (service w') = reconnectAttempts (service w) /\
  connectionStates (service w') = connectionStates (service w) /\
  connections (service w') = connections (service w) /\
  reconnectTimeouts (service w') !! peerId = None.
Proof.
  intros Hst Hc w'. subst w'.
  unfold trace, tryReconnect, tryReconnect_begin, clearedOnEntry. step.
  change (service (clearLog w)) with (service w).
  destruct (reconnectTimeouts (service w) !! peerId) as [t|] eqn:Ht; step;
    rewrite ?Hst; cbn; rewrite Hc; cbn.
  - repeat split; try reflexivity. apply lookup_delete_eq.
  - repeat split; try reflexivity. exact Ht.
Qed.

Lemma reconnect_in_progress_suppresses_witness :
  trace (tryReconnect Opened "bob-id")
    (snd (tryReconnect_begin "bob-id" Sample.linked)) = [].
Proof.
  apply (reconnect_in_progress_suppresses "bob-id" Opened (mkConnectionState true None)
           (snd (tryReconnect_begin "bob-id" Sample.linked))).
  - vm_compute. reflexivity.
  - reflexivity.
Defined.

(** X13: with no [Peer] (before [initialize] or after [closeConnections])
    a reconnection attempt is still counted: nothing is dialled, the error
    recorded is 'Peer not initialized', and the backoff timer is armed as
    after any failed attempt. *)
Theorem reconnect_without_peer
    (peerId : string) (answer : DialResult) (attempts : Z) (w : World) :
  peer (service w) = None ->
  default 0 (reconnectAttempts (service w) !! peerId) = attempts ->
  attempts < MAX_RECONNECT_ATTEMPTS ->
  isConnecting (default (mkConnectionState false None)
                  (connectionStates (service w) !! peerId)) = false ->
  let w' := snd (tryReconnect answer peerId w) in
  trace (tryReconnect answer peerId) w =
    clearedOnEntry peerId w ++
    [SetTimeout (nextTimer w) (CbTryReconnect peerId)
       (Z.min (1000 * 2 ^ attempts) 30000)] /\
  reconnectAttempts (service w') !! peerId = Some (attempts + 1) /\
  connectionStates (service w') !! peerId =
    Some (mkConnectionState false (Some "Peer not initialized")) /\
  connections (service w') = connections (service w).
Proof.
  intros Hp Hat Hlt Hidle w'. subst w'.
  unfold trace, tryReconnect, tryReconnect_begin, clearedOnEntry. step.
  change (service (clearLog w)) with (service w).
  destruct (reconnectTimeouts (service w) !! peerId) as [t|] eqn:Ht; step;
    rewrite Hidle; step; rewrite Hat;
    (destruct (Z.leb_spec MAX_RECONNECT_ATTEMPTS attempts) as [Hge|_]; [lia|]);
    step; unfold connect_begin; step; rewrite Hp; step;
    rewrite !lookup_insert_eq; repeat split; reflexivity.
Qed.

Lemma reconnect_without_peer_witness :
  let w := with_service (fun s =>
             mkPeerService None (connections s) (fileTransferListeners s)
               (connectionListeners s) (peersUpdateListeners s) (errorListeners s)
               (reconnectAttempts s) (reconnectTimeouts s) (connectionStates s)
               (fileData s)) Sample.linked in
  trace (tryReconnect Opened "bob-id") w =
    [SetTimeout 1%nat (CbTryReconnect "bob-id") 1000].
Proof.
  apply (reconnect_without_peer "bob-id" Opened 0
           (with_service (fun s =>
             mkPeerService None (connections s) (fileTransferListeners s)
               (connectionListeners s) (peersUpdateListeners s) (errorListeners s)
               (reconnectAttempts s) (reconnectTimeouts s) (connectionStates s)
               (fileData s)) Sample.linked)).
  - reflexivity.
  - reflexivity.
  - unfold MAX_RECONNECT_ATTEMPTS. lia.
  - reflexivity.
Defined.

#[local] Arguments tryReconnect_begin : simpl never.

(** X14: a user's [disconnect] does not stop reconnection.  When the
    'close' event of the connection it closed is delivered, the handler
    dials the peer again; and a reconnection timer that was pending for
    the peer is still armed after [disconnect] and dials when it expires. *)
Theorem disconnect_does_not_stop_reconnection
    (conn : DataConnection) (id : TimerId) (delay : Z) (w : World) :
  is_Some (peer (service w)) ->
  default 0 (reconnectAttempts (service w) !! conn_peer conn) < MAX_RECONNECT_ATTEMPTS ->
  isConnecting (default (mkConnectionState false None)
                  (connectionStates (service w) !! conn_peer conn)) = false ->
  let w' := snd (disconnect (conn_peer conn) w) in
  dials (trace (onClose conn) w') = [conn_peer conn] /\
  (List.find (fun t => Nat.eqb (timer_id t) id) (timers w) =
     Some (mkTimer id (CbTryReconnect (conn_peer conn)) delay) ->
   dials (trace (fireTimer id) w') = [conn_peer conn]).
Proof.
  intros Hpeer Hlt Hidle w'.
  destruct (disconnect_keeps (conn_peer conn) w)
    as (_ & _ & Hp & Hat & _ & Hst & _ & _ & Htm & _).
  fold w' in Hp, Hat, Hst, Htm.
  assert (Hbegin : forall w0,
            peer (service w0) = peer (service w) ->
            reconnectAttempts (service w0) = reconnectAttempts (service w) ->
            connectionStates (service w0) = connectionStates (service w) ->
            exists w1, tryReconnect_begin (conn_peer conn) w0 =
                         (Ok (Some (mkSuspension (conn_peer conn)
                                      (default 0 (reconnectAttempts (service w) !! conn_peer conn))
                                      None)), w1) /\
                       dials (effects w1) = dials (effects w0) ++ [conn_peer conn]).
  { intros w0 H1 H2 H3.
    destruct (tryReconnect_begin_attempts (conn_peer conn) w0) with
      (attempts := default 0 (reconnectAttempts (service w) !! conn_peer conn))
      as (w1 & Hb & He & _).
    - rewrite H3. exact Hidle.
    - rewrite H1. exact Hpeer.
    - rewrite H2. reflexivity.
    - exact Hlt.
    - exists w1. split; [exact Hb|]. rewrite He, !dials_app.
      rewrite (proj1 (dials_clearedOnEntry _ _)). reflexivity. }
  split.
  - unfold trace, onClose, notifyConnectionStatus, updatePeersList. step.
    match goal with
    | |- context [tryReconnect_begin (conn_peer conn) ?w0] =>
        destruct (Hbegin w0) as (w1 & Hb & Hd); [exact Hp|exact Hat|exact Hst|]
    end.
    rewrite Hb. step. rewrite dials_app, Hd.
    rewrite (proj1 (dials_peersUpdate _ _)). cbn.
    rewrite ?dials_app, (proj1 (dials_connectionStatus _ _ _ _ _)). reflexivity.
  - intros Hfind. unfold trace, fireTimer. step.
    change (timers (clearLog w')) with (timers w'). rewrite Htm, Hfind. step.
    match goal with
    | |- context [tryReconnect_begin (conn_peer conn) ?w0] =>
        destruct (Hbegin w0) as (w1 & Hb & Hd); [exact Hp|exact Hat|exact Hst|]
    end.
    rewrite Hb. cbn [snd]. rewrite Hd. reflexivity.
Qed.

Lemma disconnect_does_not_stop_reconnection_witness :
  dials (trace (onClose Sample.bob) (snd (disconnect "bob-id" Sample.linked)))
  = ["bob-id"].
Proof.
  apply (disconnect_does_not_stop_reconnection Sample.bob 1%nat 0 Sample.linked).
  - vm_compute. eauto.
  - vm_compute. reflexivity.
  - reflexivity.
Defined.

(* --------------------------------------------------------------------- *)
(*  Heartbeats                                                            *)
(* --------------------------------------------------------------------- *)

Lemma bind_ok {A B} (m : M A) (k : A -> M B) (w w1 : World) (a : A) :
  m w = (Ok a, w1) -> bind m k w = k a w1.
Proof. intros H. unfold bind. rewrite H. reflexivity. Qed.

Lemma sent_app (es1 es2 : list Effect) : sent (es1 ++ es2) = sent es1 ++ sent es2.
Proof. apply omap_app. Qed.

Lemma heartbeat_round (clock : nat -> Z) (conns : list (string * DataConnection)) :
  forall (k : nat) (w : World),
    let open := List.filter (fun kv : string * DataConnection => conn_open (snd kv)) conns in
    exists w',
      heartbeatRound clock k conns w = (Ok tt, w') /\
      service w' = service w /\
      localStorage w' = localStorage w /\
      sent (effects w') = sent (effects w) ++
        imap (fun i kv => (conn_peer (snd kv), Heartbeat (clock (k + i)%nat))) open /\
      armed (effects w') = armed (effects w) ++
        map (fun kv => (CbHeartbeatCheck (fst kv), 5000)) open /\
      dials (effects w') = dials (effects w) /\
      map timer_cb (timers w') = map timer_cb (timers w) ++
        map (fun kv => CbHeartbeatCheck (fst kv)) open.
Proof.
  induction conns as [|[p c] conns IH]; intros k w open; subst open.
  - exists w. cbn. rewrite !app_nil_r. repeat split; reflexivity.
  - cbn [heartbeatRound List.filter snd fst].
    destruct (conn_open c) eqn:Hopen.
    + erewrite bind_ok; [|reflexivity]. erewrite bind_ok; [|reflexivity].
      match goal with
      | |- context [heartbeatRound clock (S k) conns ?w0] =>
          destruct (IH (S k) w0) as (w' & Hrun & Hs & Hl & Hse & Ha & Hd & Ht)
      end.
      exists w'. split; [exact Hrun|].
      split; [rewrite Hs; reflexivity|]. split; [rewrite Hl; reflexivity|].
      cbn [effects with_effects with_timers with_nextTimer timers] in Hse, Ha, Hd, Ht.
      rewrite !sent_app in Hse. rewrite !armed_app in Ha. rewrite !dials_app in Hd.
      rewrite List.map_app in Ht.
      cbn [map]. cbn in Hse, Ha, Hd, Ht.
      rewrite imap_cons, Nat.add_0_r.
      rewrite (imap_ext _ (fun i kv => (conn_peer (snd kv), Heartbeat (clock (S k + i)%nat)))).
      2: { intros i x _. cbn. do 3 f_equal. lia. }
      rewrite Hse, Ha, Hd, Ht, ?app_nil_r, <- ?app_assoc. repeat split; reflexivity.
    + apply IH.
Qed.

(** X15: one round of the heartbeat interval sends one heartbeat on every
    connection that is open, in the order of the connection table, each
    stamped with the time read for it, and arms one 5000 ms watch for
    each; connections that are not open get neither.  It dials nothing
    and changes nothing the service keeps. *)
Theorem heartbeatTick_per_open_connection (clock : nat -> Z) (w : World) :
  let open := List.filter (fun kv : string * DataConnection => conn_open (snd kv))
                (connections (service w)) in
  let w' := snd (heartbeatTick clock w) in
  fst (heartbeatTick clock w) = Ok tt /\
  sent (trace (heartbeatTick clock) w) =
    imap (fun k kv => (conn_peer (snd kv), Heartbeat (clock k))) open /\
  armed (trace (heartbeatTick clock) w) =
    map (fun kv => (CbHeartbeatCheck (fst kv), 5000)) open /\
  dials (trace (heartbeatTick clock) w) = [] /\
  service w' = service w /\
  localStorage w' = localStorage w /\
  map timer_cb (timers w') =
    map timer_cb (timers w) ++ map (fun kv => CbHeartbeatCheck (fst kv)) open.
Proof.
  intros open w'. subst open w'.
  destruct (heartbeat_round clock (connections (service w)) 0 (clearLog w))
    as (w1 & Hrun & _ & _ & Hse & Ha & Hd & _).
  destruct (heartbeat_round clock (connections (service w)) 0 w)
    as (w2 & Hrun2 & Hs & Hl & _ & _ & _ & Ht).
  assert (H1 : heartbeatTick clock (clearLog w) = (Ok tt, w1)) by exact Hrun.
  assert (H2 : heartbeatTick clock w = (Ok tt, w2)) by exact Hrun2.
  unfold trace. rewrite H1, H2. cbn [fst snd].
  rewrite Hse, Ha, Hd. repeat split; assumption.
Qed.

Lemma tryReconnect_begin_connections (peerId : string) (w : World) :
  connections (service (snd (tryReconnect_begin peerId w))) = connections (service w).
Proof.
  unfold tryReconnect_begin. step.
  destruct (reconnectTimeouts (service w) !! peerId); step;
    destruct (isConnecting
                (default (mkConnectionState false None)
                   (connectionStates (service w) !! peerId))); try reflexivity; step;
    destruct (MAX_RECONNECT_ATTEMPTS <=?
                default 0 (reconnectAttempts (service w) !! peerId)); try reflexivity;
    step; unfold connect_begin; step;
    destruct (peer (service w)); reflexivity.
Qed.

(** A watch that finds a connection under the peer id, and no timeout
    declared before, declares one and redials. *)
Lemma heartbeatCheck_declares_timeout (peerId : string) (c : DataConnection) (w : World) :
  map_get peerId (connections (service w)) = Some c ->
  is_Some (peer (service w)) ->
  connectionStates (service w) !! peerId = Some (mkConnectionState false None) ->
  reconnectAttempts (service w) !! peerId = None ->
  reconnectTimeouts (service w) !! peerId = None ->
  trace (heartbeatCheck peerId) w =
    map (fun l => ConnectionStatus l peerId "Unknown" false (Some "Connection timeout"))
        (connectionListeners (service w)) ++ [Dial peerId].
Proof.
  intros Hc Hpeer Hst Hat Hto.
  unfold trace, heartbeatCheck, handleConnectionTimeout, notifyConnectionStatus,
    map_has. step.
  change (service (clearLog w)) with (service w).
  rewrite Hc, Hst. step. rewrite Hst. cbn.
  match goal with
  | |- context [tryReconnect_begin peerId ?w0] =>
      destruct (tryReconnect_begin_attempts peerId w0) with (attempts := 0)
        as (w' & Hb & He & _)
  end.
  - cbn. rewrite lookup_insert_eq. reflexivity.
  - exact Hpeer.
  - cbn. rewrite Hat. reflexivity.
  - unfold MAX_RECONNECT_ATTEMPTS. lia.
  - rewrite Hb. cbn [snd]. rewrite He. unfold clearedOnEntry. cbn. rewrite Hto.
    reflexivity.
Qed.

(** The connection closes and the redial its handler starts is answered:
    the peer is registered again, with nothing left of the attempt. *)
Lemma onClose_then_reconnected (conn : DataConnection) (w : World) :
  is_Some (peer (service w)) ->
  default 0 (reconnectAttempts (service w) !! conn_peer conn) < MAX_RECONNECT_ATTEMPTS ->
  isConnecting (default (mkConnectionState false None)
                  (connectionStates (service w) !! conn_peer conn)) = false ->
  exists s,
    fst (onClose conn w) = Ok (Some s) /\
    let reconnected := snd (tryReconnect_resume s Opened (snd (onClose conn w))) in
    map_get (conn_peer conn) (connections (service reconnected)) =
      Some (mkConn (conn_peer conn) true) /\
    peer (service reconnected) = peer (service w) /\
    connectionListeners (service reconnected) = connectionListeners (service w) /\
    connectionStates (service reconnected) !! conn_peer conn =
      Some (mkConnectionState false None) /\
    reconnectAttempts (service reconnected) !! conn_peer conn = None /\
    reconnectTimeouts (service reconnected) !! conn_peer conn = None.
Proof.
  intros [p Hp] Hlt Hidle.
  unfold onClose, notifyConnectionStatus, updatePeersList, tryReconnect_begin. step.
  destruct (reconnectTimeouts (service w) !! conn_peer conn) as [t|] eqn:Ht; step;
    rewrite Hidle; step;
    (destruct (Z.leb_spec MAX_RECONNECT_ATTEMPTS
                 (default 0 (reconnectAttempts (service w) !! conn_peer conn)))
       as [Hge|_]; [lia|]);
    step; unfold connect_begin; step; rewrite Hp; step;
    (eexists; split; [reflexivity|]);
    unfold tryReconnect_resume, handleConnection, notifyConnectionStatus,
      updatePeersList; step;
    rewrite map_get_set_eq, lookup_insert_eq, !lookup_delete_eq, ?Ht; auto 10.
Qed.

(** X16: a heartbeat watch is bound to the peer id, not to the connection
    it was armed for.  While no connection is registered under the id --
    right after [disconnect], or after the 'close' handler has run -- a
    watch that expires does nothing.  Once the redial that the 'close'
    handler started has been answered, a connection is registered under
    the id again, and a watch armed for the old connection that expires
    then reports 'Connection timeout' to every subscriber and dials the
    peer. *)
Theorem heartbeat_watch_is_bound_to_peer_id (conn : DataConnection) (w : World) :
  let afterDisconnect := snd (disconnect (conn_peer conn) w) in
  let afterClose := snd (onClose conn w) in
  heartbeatCheck (conn_peer conn) afterDisconnect = (Ok None, afterDisconnect) /\
  heartbeatCheck (conn_peer conn) afterClose = (Ok None, afterClose) /\
  (is_Some (peer (service w)) ->
   default 0 (reconnectAttempts (service w) !! conn_peer conn) < MAX_RECONNECT_ATTEMPTS ->
   isConnecting (default (mkConnectionState false None)
                   (connectionStates (service w) !! conn_peer conn)) = false ->
   exists s,
     fst (onClose conn w) = Ok (Some s) /\
     let reconnected := snd (tryReconnect_resume s Opened afterClose) in
     map_get (conn_peer conn) (connections (service reconnected)) =
       Some (mkConn (conn_peer conn) true) /\
     trace (heartbeatCheck (conn_peer conn)) reconnected =
       map (fun l => ConnectionStatus l (conn_peer conn) "Unknown" false
                       (Some "Connection timeout"))
           (connectionListeners (service w)) ++ [Dial (conn_peer conn)]).
Proof.
  intros w1 w2.
  assert (Hskip : forall w0, map_get (conn_peer conn) (connections (service w0)) = None ->
                             heartbeatCheck (conn_peer conn) w0 = (Ok None, w0)).
  { intros w0 H0. unfold heartbeatCheck. step. unfold map_has. rewrite H0. reflexivity. }
  split; [|split].
  - apply Hskip. subst w1.
    destruct (disconnect_keeps (conn_peer conn) w) as (_ & -> & _).
    apply map_get_delete_eq.
  - apply Hskip. subst w2. unfold onClose, notifyConnectionStatus, updatePeersList. step.
    match goal with
    | |- context [tryReconnect_begin (conn_peer conn) ?w0] =>
        pose proof (tryReconnect_begin_connections (conn_peer conn) w0) as Hc;
        destruct (tryReconnect_begin (conn_peer conn) w0) as [[s|e] w3]
    end; cbn in *; rewrite Hc; apply map_get_delete_eq.
  - intros Hpeer Hlt Hidle.
    destruct (onClose_then_reconnected conn w Hpeer Hlt Hidle)
      as (s & Hs & Hc & Hp & Hl & Hst & Hat & Hto).
    exists s. split; [exact Hs|]. subst w2. cbv zeta in *. split; [exact Hc|].
    rewrite <- Hl.
    apply (heartbeatCheck_declares_timeout (conn_peer conn) _ _ Hc); auto.
    rewrite Hp. exact Hpeer.
Qed.

Lemma heartbeat_watch_is_bound_to_peer_id_witness :
  let reconnected :=
    snd (tryReconnect_resume (mkSuspension "bob-id" 0 None) Opened
           (snd (onClose Sample.bob Sample.linked))) in
  trace (heartbeatCheck "bob-id") reconnected =
    [ConnectionStatus 7%nat "bob-id" "Unknown" false (Some "Connection timeout");
     Dial "bob-id"].
Proof.
  destruct (proj2 (proj2 (heartbeat_watch_is_bound_to_peer_id Sample.bob Sample.linked)))
    as (s & Hs & _ & Htrace).
  - vm_compute. eauto.
  - vm_compute. reflexivity.
  - reflexivity.
  - injection Hs as <-. exact Htrace.
Defined.

(* --------------------------------------------------------------------- *)
(*  Peer closed, network offline, network online                          *)
(* --------------------------------------------------------------------- *)

(** Telling the subscribers of every connection in turn. *)
Lemma notify_each (reason : string) (conns : list (string * DataConnection)) :
  forall w,
    exists w',
      forEach (fun kv : string * DataConnection =>
                 notifyConnectionStatus (fst kv) "Unknown" false (Some reason)) conns w
        = (Ok tt, w') /\
      service w' = service w /\
      localStorage w' = localStorage w /\
      timers w' = timers w /\
      effects w' = effects w ++
        flat_map (fun kv : string * DataConnection =>
                    map (fun l => ConnectionStatus l (fst kv) "Unknown" false (Some reason))
                        (connectionListeners (service w))) conns.
Proof.
  induction conns as [|[k c] conns IH]; intros w.
  - exists w. cbn. rewrite app_nil_r. repeat split; reflexivity.
  - cbn [forEach flat_map fst]. erewrite bind_ok; [|reflexivity].
    match goal with
    | |- context [forEach _ conns ?w0] => destruct (IH w0) as (w' & Hrun & Hs & Hl & Ht & He)
    end.
    exists w'. split; [exact Hrun|]. split; [rewrite Hs; reflexivity|].
    split; [rewrite Hl; reflexivity|]. split; [rewrite Ht; reflexivity|].
    rewrite He. cbn. rewrite <- app_assoc. reflexivity.
Qed.

(** X17: when the [Peer] closes, every connection-status subscriber is
    told 'Peer connection closed' for every connection, in table order,
    and the table is emptied; nothing is dialled and no timer is armed.
    After that neither the heartbeat nor [reconnectAllPeers] has a peer
    left to act on. *)
Theorem handleClose_forgets_all_peers (clock : nat -> Z) (answer : string -> DialResult) (w : World) :
  let w' := snd (handleClose w) in
  fst (handleClose w) = Ok tt /\
  trace handleClose w =
    flat_map (fun kv : string * DataConnection =>
                map (fun l => ConnectionStatus l (fst kv) "Unknown" false
                                (Some "Peer connection closed"))
                    (connectionListeners (service w))) (connections (service w)) /\
  connections (service w') = [] /\
  timers w' = timers w /\
  heartbeatTick clock w' = (Ok tt, w') /\
  reconnectAllPeers answer w' = (Ok tt, w').
Proof.
  intros w'. subst w'.
  destruct (notify_each "Peer connection closed" (connections (service w)) (clearLog w))
    as (w1 & Hrun1 & _ & _ & _ & He1).
  destruct (notify_each "Peer connection closed" (connections (service w)) w)
    as (w2 & Hrun2 & Hs2 & _ & Ht2 & _).
  assert (H1 : handleClose (clearLog w) =
               (Ok tt, with_service (with_connections (fun _ => [])) w1)).
  { unfold handleClose. erewrite bind_ok; [|reflexivity].
    change (connections (service (clearLog w))) with (connections (service w)).
    erewrite bind_ok; [|exact Hrun1]. reflexivity. }
  assert (H2 : handleClose w = (Ok tt, with_service (with_connections (fun _ => [])) w2)).
  { unfold handleClose. erewrite bind_ok; [|reflexivity].
    erewrite bind_ok; [|exact Hrun2]. reflexivity. }
  unfold trace. rewrite H1, H2. cbn [fst snd].
  split; [reflexivity|]. split; [exact He1|]. split; [reflexivity|].
  split; [exact Ht2|]. split; reflexivity.
Qed.

(** X18: when the network goes offline the subscribers are told 'Network
    is offline' for every connection, and that is all: the connection
    table, the counters and the timers are as before, so every peer is
    still known when the network comes back. *)
Theorem handleNetworkOffline_only_notifies (w : World) :
  let w' := snd (handleNetworkOffline w) in
  fst (handleNetworkOffline w) = Ok tt /\
  trace handleNetworkOffline w =
    flat_map (fun kv : string * DataConnection =>
                map (fun l => ConnectionStatus l (fst kv) "Unknown" false
                                (Some "Network is offline"))
                    (connectionListeners (service w))) (connections (service w)) /\
  service w' = service w /\
  localStorage w' = localStorage w /\
  timers w' = timers w.
Proof.
  intros w'. subst w'.
  destruct (notify_each "Network is offline" (connections (service w)) (clearLog w))
    as (w1 & Hrun1 & _ & _ & _ & He1).
  destruct (notify_each "Network is offline" (connections (service w)) w)
    as (w2 & Hrun2 & Hs2 & Hl2 & Ht2 & _).
  assert (H1 : handleNetworkOffline (clearLog w) = (Ok tt, w1)) by exact Hrun1.
  assert (H2 : handleNetworkOffline w = (Ok tt, w2)) by exact Hrun2.
  unfold trace. rewrite H1, H2. cbn [fst snd]. auto.
Qed.

(** One awaited [tryReconnect] below the cap: it dials its peer and
    leaves what is kept for every other peer alone. *)
Lemma tryReconnect_frame (answer : DialResult) (peerId : string) (w : World) :
  is_Some (peer (service w)) ->
  default 0 (reconnectAttempts (service w) !! peerId) < MAX_RECONNECT_ATTEMPTS ->
  isConnecting (default (mkConnectionState false None)
                  (connectionStates (service w) !! peerId)) = false ->
  exists w1,
    tryReconnect answer peerId w = (Ok tt, w1) /\
    dials (effects w1) = dials (effects w) ++ [peerId] /\
    peer (service w1) = peer (service w) /\
    forall q, q <> peerId ->
      reconnectAttempts (service w1) !! q = reconnectAttempts (service w) !! q /\
      connectionStates (service w1) !! q = connectionStates (service w) !! q.
Proof.
  intros [p Hp] Hlt Hidle.
  unfold tryReconnect, tryReconnect_begin. step.
  destruct (reconnectTimeouts (service w) !! peerId) as [t|] eqn:Ht; step;
    rewrite Hidle; step;
    (destruct (Z.leb_spec MAX_RECONNECT_ATTEMPTS
                 (default 0 (reconnectAttempts (service w) !! peerId))) as [Hge|_];
     [lia|]);
    step; unfold connect_begin; step; rewrite Hp; step;
    unfold tryReconnect_resume; cbn [sus_rejected sus_peerId sus_attempts];
    destruct answer as [|message];
    unfold tryReconnect_catch, handleConnection, notifyConnectionStatus,
      updatePeersList, setTimeout; step;
    eexists; (split; [reflexivity|]); cbn;
    rewrite ?dials_app, ?(proj1 (dials_connectionStatus _ _ _ _ _)),
      ?(proj1 (dials_peersUpdate _ _)); cbn; rewrite ?app_nil_r;
    (split; [reflexivity|]); (split; [exact Hp|]);
    intros q Hq;
    rewrite ?lookup_insert_ne, ?lookup_delete_ne, ?lookup_insert_ne by congruence;
    split; reflexivity.
Qed.

Lemma reconnect_each (answer : string -> DialResult) (peerIds : list string) :
  forall w,
    is_Some (peer (service w)) ->
    List.NoDup peerIds ->
    (forall p, In p peerIds ->
       default 0 (reconnectAttempts (service w) !! p) < MAX_RECONNECT_ATTEMPTS /\
       isConnecting (default (mkConnectionState false None)
                       (connectionStates (service w) !! p)) = false) ->
    exists w1,
      forEach (fun peerId =>
                 let* state := gets (fun w => connectionStates (service w) !! peerId) in
                 if match state with Some st => isConnecting st | None => false end
                 then ret tt
                 else tryReconnect (answer peerId) peerId) peerIds w = (Ok tt, w1) /\
      dials (effects w1) = dials (effects w) ++ peerIds.
Proof.
  induction peerIds as [|p ps IH]; intros w Hpeer Hnd Hall.
  - exists w. cbn. rewrite app_nil_r. auto.
  - destruct (Hall p (or_introl eq_refl)) as [Hlt Hidle].
    destruct (tryReconnect_frame (answer p) p w Hpeer Hlt Hidle)
      as (w1 & Hrun & Hd & Hp1 & Hframe).
    inversion Hnd as [|? ? Hnotin Hnd']; subst.
    destruct (IH w1) as (w2 & Hrun2 & Hd2).
    + rewrite Hp1. exact Hpeer.
    + exact Hnd'.
    + intros q Hq. assert (Hne : q <> p) by (intros ->; contradiction).
      destruct (Hframe q Hne) as [-> ->]. apply Hall. right. exact Hq.
    + exists w2. cbn [forEach]. split.
      * erewrite bind_ok; [exact Hrun2|].
        erewrite bind_ok; [|reflexivity].
        destruct (connectionStates (service w) !! p) as [st|]; cbn in Hidle |- *;
          [rewrite Hidle|]; exact Hrun.
      * rewrite Hd2, Hd, <- app_assoc. reflexivity.
Qed.

(** X19: when the network comes back, [reconnectAllPeers] dials every
    peer of the connection table once, in table order -- provided the
    [Peer] exists, no peer has a reconnection in flight and none has used
    up its attempts. *)
Theorem reconnectAllPeers_dials_every_peer (answer : string -> DialResult) (w : World) :
  is_Some (peer (service w)) ->
  List.NoDup (map fst (connections (service w))) ->
  (forall p, In p (map fst (connections (service w))) ->
     default 0 (reconnectAttempts (service w) !! p) < MAX_RECONNECT_ATTEMPTS /\
     isConnecting (default (mkConnectionState false None)
                     (connectionStates (service w) !! p)) = false) ->
  fst (reconnectAllPeers answer w) = Ok tt /\
  dials (trace (reconnectAllPeers answer) w) = map fst (connections (service w)).
Proof.
  intros Hpeer Hnd Hall.
  destruct (reconnect_each answer (map fst (connections (service w))) w Hpeer Hnd Hall)
    as (w1 & Hrun & _).
  destruct (reconnect_each answer (map fst (connections (service w))) (clearLog w) Hpeer Hnd Hall)
    as (w2 & Hrun2 & Hd2).
  assert (H1 : reconnectAllPeers answer w = (Ok tt, w1)) by exact Hrun.
  assert (H2 : reconnectAllPeers answer (clearLog w) = (Ok tt, w2)) by exact Hrun2.
  unfold trace. rewrite H1, H2. cbn [fst snd]. split; [reflexivity|exact Hd2].
Qed.

Lemma reconnectAllPeers_dials_every_peer_witness :
  dials (trace (reconnectAllPeers (fun _ => Opened)) Sample.linked) = ["bob-id"].
Proof.
  apply (reconnectAllPeers_dials_every_peer (fun _ => Opened) Sample.linked).
  - vm_compute. eauto.
  - repeat constructor. intros [].
  - intros p [<-|[]]. split; [vm_compute; reflexivity|reflexivity].
Defined.

(* --------------------------------------------------------------------- *)
(*  The transfer list of the UI                                           *)
(* --------------------------------------------------------------------- *)

Section TransferList.

Import TransferContainer.

Variable transfer : TransferObject.

Let sameId (t : TransferObject) : bool := String.eqb (obj_id t) (obj_id transfer).

Lemma updateTransfers_cons_other (x : TransferObject) (prev : list TransferObject) :
  sameId x = false ->
  updateTransfers transfer (x :: prev) = x :: updateTransfers transfer prev.
Proof.
  intros Hx. unfold sameId in Hx. unfold updateTransfers. cbn [findIndex]. rewrite Hx.
  destruct (findIndex _ prev); reflexivity.
Qed.

Lemma updateTransfers_cons_same (x : TransferObject) (prev : list TransferObject) :
  sameId x = true ->
  updateTransfers transfer (x :: prev) = transfer :: prev.
Proof.
  intros Hx. unfold sameId in Hx. unfold updateTransfers. cbn [findIndex]. rewrite Hx.
  reflexivity.
Qed.

Lemma sameId_self : sameId transfer = true.
Proof. apply String.eqb_refl. Qed.

Lemma updateTransfers_ids (prev : list TransferObject) :
  map obj_id (updateTransfers transfer prev) =
  if existsb sameId prev then map obj_id prev else map obj_id prev ++ [obj_id transfer].
Proof.
  induction prev as [|x prev IH]; [reflexivity|].
  cbn [existsb]. destruct (sameId x) eqn:Hx.
  - rewrite updateTransfers_cons_same by exact Hx. cbn [map orb]. f_equal.
    symmetry. apply String.eqb_eq. exact Hx.
  - rewrite updateTransfers_cons_other by exact Hx. cbn [map orb]. rewrite IH.
    destruct (existsb sameId prev); reflexivity.
Qed.

Lemma updateTransfers_In (prev : list TransferObject) :
  In transfer (updateTransfers transfer prev).
Proof.
  induction prev as [|x prev IH]; [left; reflexivity|].
  destruct (sameId x) eqn:Hx.
  - rewrite updateTransfers_cons_same by exact Hx. left. reflexivity.
  - rewrite updateTransfers_cons_other by exact Hx. right. exact IH.
Qed.

Lemma updateTransfers_others (prev : list TransferObject) :
  List.filter (fun t => negb (sameId t)) (updateTransfers transfer prev) =
  List.filter (fun t => negb (sameId t)) prev.
Proof.
  induction prev as [|x prev IH].
  - cbn. rewrite sameId_self. reflexivity.
  - destruct (sameId x) eqn:Hx.
    + rewrite updateTransfers_cons_same by exact Hx. cbn [List.filter].
      rewrite sameId_self, Hx. reflexivity.
    + rewrite updateTransfers_cons_other by exact Hx. cbn [List.filter].
      rewrite Hx, IH. reflexivity.
Qed.

Lemma updateTransfers_idempotent (prev : list TransferObject) :
  updateTransfers transfer (updateTransfers transfer prev) = updateTransfers transfer prev.
Proof.
  induction prev as [|x prev IH].
  - cbn. apply updateTransfers_cons_same. apply sameId_self.
  - destruct (sameId x) eqn:Hx.
    + rewrite updateTransfers_cons_same by exact Hx.
      apply updateTransfers_cons_same. apply sameId_self.
    + rewrite updateTransfers_cons_other by exact Hx.
      rewrite updateTransfers_cons_other by exact Hx. f_equal. exact IH.
Qed.

(** With one entry per id, the entry of the id is the update itself. *)
Lemma updateTransfers_entry (prev : list TransferObject) :
  List.NoDup (map obj_id prev) ->
  forall t, In t (updateTransfers transfer prev) -> sameId t = true -> t = transfer.
Proof.
  induction prev as [|x prev IH]; intros Hnd t Hin Ht.
  - destruct Hin as [<-|[]]. reflexivity.
  - inversion Hnd as [|? ? Hnotin Hnd']; subst.
    destruct (sameId x) eqn:Hx.
    + rewrite updateTransfers_cons_same in Hin by exact Hx.
      destruct Hin as [<-|Hin]; [reflexivity|].
      exfalso. apply Hnotin. apply List.in_map_iff. exists t. split; [|exact Hin].
      apply String.eqb_eq in Hx, Ht. congruence.
    + rewrite updateTransfers_cons_other in Hin by exact Hx.
      destruct Hin as [<-|Hin]; [congruence|]. apply IH; assumption.
Qed.

End TransferList.

(** X20: the transfer list of the UI keeps one entry per transfer id.  An
    update replaces the entry of its id where it stands, or is appended
    when the id is new; entries of other ids are as before; a list without
    repeated ids stays so, and its entry for the id is then the update
    itself; applying the same update twice changes nothing more. *)
Theorem updateTransfers_one_entry_per_id
    (transfer : TransferObject) (prev : list TransferObject) :
  let next := TransferContainer.updateTransfers transfer prev in
  let sameId := fun t => String.eqb (obj_id t) (obj_id transfer) in
  In transfer next /\
  map obj_id next =
    (if existsb sameId prev then map obj_id prev else map obj_id prev ++ [obj_id transfer]) /\
  List.filter (fun t => negb (sameId t)) next = List.filter (fun t => negb (sameId t)) prev /\
  TransferContainer.updateTransfers transfer next = next /\
  (List.NoDup (map obj_id prev) ->
   List.NoDup (map obj_id next) /\
   forall t, In t next -> obj_id t = obj_id transfer -> t = transfer).
Proof.
  intros next sameId.
  split; [apply updateTransfers_In|].
  split; [apply updateTransfers_ids|].
  split; [apply updateTransfers_others|].
  split; [apply updateTransfers_idempotent|].
  intros Hnd. split.
  - subst next. rewrite updateTransfers_ids.
    destruct (existsb _ prev) eqn:Hex; [exact Hnd|].
    apply List.NoDup_app; [exact Hnd|repeat constructor; intros []|].
    intros a Ha [<-|[]].
    apply List.in_map_iff in Ha. destruct Ha as (t & Hid & Hin).
    assert (Hex' : existsb (fun t0 => String.eqb (obj_id t0) (obj_id transfer)) prev = true).
    { apply List.existsb_exists. exists t. split; [exact Hin|]. apply String.eqb_eq. exact Hid. }
    congruence.
  - intros t Hin Hid. apply (updateTransfers_entry transfer prev Hnd t Hin).
    apply String.eqb_eq. exact Hid.
Qed.

Lemma updateTransfers_one_entry_per_id_witness :
  List.NoDup
    (map obj_id
       (TransferContainer.updateTransfers (IdStatus "f1" Removed)
          [Full (Sample.announce 1); IdStatus "f2" Removed])).
Proof.
  apply (proj2 (proj2 (proj2 (proj2
           (updateTransfers_one_entry_per_id (IdStatus "f1" Removed)
              [Full (Sample.announce 1); IdStatus "f2" Removed]))))).
  repeat constructor.
  - cbn. intros [H|[]]. discriminate H.
  - intros [].
Defined.

Lemma receivedFiles_after_removed (fileId : string) (prev : list TransferObject) :
  List.NoDup (map obj_id prev) ->
  TransferContainer.receivedFiles
    (TransferContainer.updateTransfers (IdStatus fileId Removed) prev) =
  List.filter (fun t => negb (String.eqb (obj_id t) fileId))
              (TransferContainer.receivedFiles prev).
Proof.
  induction prev as [|x prev IH]; intros Hnd; [reflexivity|].
  inversion Hnd as [|? ? Hnotin Hnd']; subst.
  destruct (String.eqb (obj_id x) fileId) eqn:Hx.
  - rewrite updateTransfers_cons_same by exact Hx.
    assert (Hrest : List.filter (fun t => negb (String.eqb (obj_id t) fileId))
                      (TransferContainer.receivedFiles prev)
                    = TransferContainer.receivedFiles prev).
    { apply List.forallb_filter_id. apply List.forallb_forall. intros t Hin.
      apply negb_true_iff. apply String.eqb_neq. intros Hid.
      unfold TransferContainer.receivedFiles in Hin. apply List.filter_In in Hin.
      apply Hnotin. apply List.in_map_iff. exists t. split; [|apply Hin].
      apply String.eqb_eq in Hx. congruence. }
    unfold TransferContainer.receivedFiles in *. cbn [List.filter obj_status].
    destruct (obj_status x); cbn [List.filter]; rewrite ?Hx; cbn [negb];
      symmetry; exact Hrest.
  - rewrite updateTransfers_cons_other by exact Hx.
    unfold TransferContainer.receivedFiles in *. cbn [List.filter].
    destruct (obj_status x); cbn [List.filter]; rewrite ?Hx; cbn [negb];
      rewrite IH by exact Hnd'; reflexivity.
Qed.

(** X21: removing a file takes it out of the 'Received Files' card.  The
    subscriber is handed [{ id, status: 'removed' }], which replaces the
    entry of that id in the list; with one entry per id, no entry of the
    id is listed as received any more, and the other received files are
    listed as before. *)
Theorem removed_file_leaves_received_files
    (fileId : string) (prev : list TransferObject) :
  List.NoDup (map obj_id prev) ->
  let next := TransferContainer.updateTransfers (IdStatus fileId Removed) prev in
  Forall (fun t => obj_id t <> fileId) (TransferContainer.receivedFiles next) /\
  TransferContainer.receivedFiles next =
    List.filter (fun t => negb (String.eqb (obj_id t) fileId))
                (TransferContainer.receivedFiles prev).
Proof.
  intros Hnd next. subst next.
  rewrite (receivedFiles_after_removed fileId prev Hnd).
  split; [|reflexivity].
  apply List.Forall_forall. intros t Hin. apply List.filter_In in Hin.
  destruct Hin as [_ Hne]. apply negb_true_iff in Hne. apply String.eqb_neq. exact Hne.
Qed.

Lemma removed_file_leaves_received_files_witness :
  TransferContainer.receivedFiles
    (TransferContainer.updateTransfers (IdStatus "f1" Removed)
       [Full (mkFileTransfer "f1" "a.txt" 3 100%Q Completed None "text/plain" 0 0%Q 0%Q
                (mkChunks 1 1) "")]) = [].
Proof.
  apply (removed_file_leaves_received_files "f1"
           [Full (mkFileTransfer "f1" "a.txt" 3 100%Q Completed None "text/plain" 0 0%Q 0%Q
                    (mkChunks 1 1) "")]).
  repeat constructor. intros [].
Defined.

(** X22: [handleDownload] never throws and shows exactly one toast:
    'Download started' after a download, and otherwise 'Download failed: '
    followed by what [downloadFile] threw. *)
Theorem handleDownload_one_toast (transfer : TransferObject) (w : World) :
  fst (TransferContainer.handleDownload transfer w) = Ok tt /\
  trace (TransferContainer.handleDownload transfer) w =
    match localStorage w !! transferKey (obj_id transfer),
          fileData (service w) !! obj_id transfer with
    | Some t, Some data =>
        [Download (ft_filename t) (ft_type t) data; ToastSuccess "Download started"]
    | Some _, None => [ToastError "Download failed: File data not found"]
    | None, _ => [ToastError "Download failed: File not found"]
    end.
Proof.
  unfold trace, TransferContainer.handleDownload, tryCatch, bind.
  rewrite (downloadFile_eq (obj_id transfer) (clearLog w)), downloadFile_eq.
  change (localStorage (clearLog w)) with (localStorage w).
  change (service (clearLog w)) with (service w).
  destruct (localStorage w !! transferKey (obj_id transfer)) as [t|];
    [destruct (fileData (service w) !! obj_id transfer) as [d|]|];
    split; reflexivity.
Qed.





(* --------------------------------------------------------------------- *)
(*  App.handleConnect for another peer                                    *)
(* --------------------------------------------------------------------- *)

(** [App]'s callback over the calls a service operation has logged: each
    call is followed by the toast of the callback when the call is its
    own, and a call with [connected] true clears [isConnecting]. *)
Lemma appSubscriber_replay (es : list Effect) :
  forall w,
    exists w',
      forEach (fun e => emit [e] >> appReacts e) es w = (Ok tt, w') /\
      service w' = service w /\
      currentUser (app w') = currentUser (app w) /\
      appSubscription (app w') = appSubscription (app w) /\
      appIsConnecting (app w') =
        (if existsb (tellsAppConnected (appSubscription (app w))) es then false
         else appIsConnecting (app w)) /\
      effects w' =
        effects w ++ flat_map (fun e => e :: appToast (appSubscription (app w)) e) es.
Proof.
  induction es as [|e es IH]; intros w.
  - exists w. cbn. rewrite app_nil_r. auto 10.
  - cbn [forEach flat_map existsb].
    assert (Hstep : exists w1,
              (emit [e] >> appReacts e) w = (Ok tt, w1) /\
              service w1 = service w /\
              currentUser (app w1) = currentUser (app w) /\
              appSubscription (app w1) = appSubscription (app w) /\
              appIsConnecting (app w1) =
                (if tellsAppConnected (appSubscription (app w)) e then false
                 else appIsConnecting (app w)) /\
              effects w1 = effects w ++ e :: appToast (appSubscription (app w)) e).
    { destruct e; try (eexists; split; [reflexivity|]; cbn; auto 10).
      unfold appReacts, appOnConnection, setIsConnecting, tellsAppConnected, appToast.
      step. destruct (isAppSubscriber (appSubscription (app w)) l); cbn;
        [destruct isConnected; cbn|];
        (eexists; split; [reflexivity|]); cbn; rewrite <- ?app_assoc; auto 10. }
    destruct Hstep as (w1 & Hrun1 & Hs1 & Hu1 & Hsub1 & Hf1 & He1).
    erewrite bind_ok; [|exact Hrun1].
    destruct (IH w1) as (w' & Hrun & Hs & Hu & Hsub & Hf & He).
    exists w'. split; [exact Hrun|]. split; [congruence|]. split; [congruence|].
    split; [congruence|]. split.
    + rewrite Hf, Hsub1, Hf1.
      destruct (tellsAppConnected (appSubscription (app w)) e),
               (existsb (tellsAppConnected (appSubscription (app w))) es); reflexivity.
    + rewrite He, Hsub1, He1, <- app_assoc. reflexivity.
Qed.

Lemma replay_connectionStatus (subscription : option Listener) (peerId username : string)
    (isConnected : bool) (reason : option string) (ls : list Listener) :
  flat_map (fun e => e :: appToast subscription e)
    (map (fun l => ConnectionStatus l peerId username isConnected reason) ls) =
  flat_map (fun l => ConnectionStatus l peerId username isConnected reason ::
                     appToast subscription
                       (ConnectionStatus l peerId username isConnected reason)) ls /\
  existsb (tellsAppConnected subscription)
    (map (fun l => ConnectionStatus l peerId username isConnected reason) ls) =
  existsb (isAppSubscriber subscription) ls && isConnected.
Proof.
  induction ls as [|l ls [IH1 IH2]]; [auto|]. cbn [map flat_map existsb].
  rewrite IH1, IH2. split; [reflexivity|].
  cbn. destruct (isAppSubscriber subscription l), isConnected,
    (existsb (isAppSubscriber subscription) ls); reflexivity.
Qed.

Lemma replay_peersUpdate (subscription : option Listener) (peers : list PeerConnection)
    (ls : list Listener) :
  flat_map (fun e => e :: appToast subscription e) (map (fun l => PeersUpdate l peers) ls) =
  map (fun l => PeersUpdate l peers) ls /\
  existsb (tellsAppConnected subscription) (map (fun l => PeersUpdate l peers) ls) = false.
Proof. induction ls as [|l ls [IH1 IH2]]; [auto|]. cbn. rewrite IH1, IH2. auto. Qed.

(** X24: [handleConnect] for an id that is not the user's own.  When the
    provider refuses the dial, the error is shown as 'Connection failed:
    ...', the connecting flag is cleared and no connection is registered.
    When it opens the channel, the connection is registered, and
    [handleConnection] calls the connection-status subscribers before
    [connect] resolves: where [App]'s callback is among them it shows
    'Connected to Unknown!' and clears the connecting flag, so the flag is
    cleared when [handleConnect] returns; only without that callback is it
    left set. *)
Theorem handleConnect_other_peer (remotePeerId message : string) (w : World) :
  is_Some (peer (service w)) ->
  match currentUser (app w) with
  | Some u => String.eqb remotePeerId (user_id u)
  | None => false
  end = false ->
  let failed := snd (handleConnect (Failed message) remotePeerId w) in
  let opened := snd (handleConnect Opened remotePeerId w) in
  fst (handleConnect (Failed message) remotePeerId w) = Ok tt /\
  trace (handleConnect (Failed message) remotePeerId) w =
    [Dial remotePeerId; ToastError ("Connection failed: " +:+ message)] /\
  appIsConnecting (app failed) = false /\
  service failed = service w /\
  fst (handleConnect Opened remotePeerId w) = Ok tt /\
  map_get remotePeerId (connections (service opened)) = Some (mkConn remotePeerId true) /\
  trace (handleConnect Opened remotePeerId) w =
    Dial remotePeerId ::
    flat_map (fun l =>
                ConnectionStatus l remotePeerId "Unknown" true None ::
                (if isAppSubscriber (appSubscription (app w)) l
                 then [ToastSuccess "Connected to Unknown!"] else []))
             (connectionListeners (service w)) ++
    trace updatePeersList opened /\
  appIsConnecting (app opened) = negb (appSubscribed w).
Proof.
  intros [p Hp] Hself failed opened.
  (* the dial is refused *)
  assert (Hfailed : forall w0, service w0 = service w -> app w0 = app w ->
            handleConnect (Failed message) remotePeerId w0 =
            (Ok tt,
             with_app (fun a => mkApp (currentUser a) false (appSubscription a))
               (with_effects
                  (fun log => log ++ [Dial remotePeerId;
                                      ToastError ("Connection failed: " +:+ message)])
                  (with_app (fun a => mkApp (currentUser a) true (appSubscription a)) w0)))).
  { intros w0 Hs Ha.
    unfold handleConnect, setIsConnecting, withAppSubscriber, connect, connect_begin,
      connect_resume. step.
    rewrite Ha, Hself. step. rewrite Hs, Hp. step.
    unfold with_app, with_effects. cbn. rewrite <- app_assoc. reflexivity. }
  (* the channel opens *)
  assert (Hconnect : forall w0, service w0 = service w ->
            exists w',
              connect Opened remotePeerId w0 = (Ok tt, w') /\
              connections (service w') =
                map_set remotePeerId (mkConn remotePeerId true) (connections (service w)) /\
              peersUpdateListeners (service w') = peersUpdateListeners (service w) /\
              app w' = app w0 /\
              effects w' =
                effects w0 ++ Dial remotePeerId ::
                map (fun l => ConnectionStatus l remotePeerId "Unknown" true None)
                    (connectionListeners (service w)) ++
                effects (snd (updatePeersList (clearLog w')))).
  { intros w0 Hs.
    unfold connect, connect_begin, connect_resume, handleConnection,
      notifyConnectionStatus, updatePeersList. step. rewrite Hs, Hp. step.
    eexists. split; [reflexivity|]. cbn. rewrite Hs, <- !app_assoc. auto. }
  assert (Hopened : forall w0, service w0 = service w -> app w0 = app w ->
            exists w1,
              handleConnect Opened remotePeerId w0 = (Ok tt, w1) /\
              connections (service w1) =
                map_set remotePeerId (mkConn remotePeerId true) (connections (service w)) /\
              peersUpdateListeners (service w1) = peersUpdateListeners (service w) /\
              appIsConnecting (app w1) = negb (appSubscribed w) /\
              effects w1 =
                effects w0 ++ Dial remotePeerId ::
                flat_map (fun l =>
                            ConnectionStatus l remotePeerId "Unknown" true None ::
                            (if isAppSubscriber (appSubscription (app w)) l
                             then [ToastSuccess "Connected to Unknown!"] else []))
                         (connectionListeners (service w)) ++
                effects (snd (updatePeersList (clearLog w1)))).
  { intros w0 Hs Ha.
    unfold handleConnect. erewrite bind_ok; [|reflexivity]. cbv beta.
    rewrite Ha, Hself. erewrite bind_ok; [|reflexivity].
    set (w1 := with_app _ w0).
    unfold tryCatch, withAppSubscriber.
    destruct (Hconnect (clearLog w1)) as (w' & Hrun' & Hc' & Hpl' & Ha' & He').
    { subst w1. cbn. exact Hs. }
    rewrite Hrun'.
    destruct (appSubscriber_replay (effects w') (with_effects (fun _ => effects w1) w'))
      as (w2 & Hrun & Hs2 & _ & _ & Hf2 & He2).
    rewrite Hrun. cbn [snd]. exists w2. split; [reflexivity|].
    cbn [service app effects with_effects] in Hs2, Hf2, He2.
    rewrite Hs2. split; [exact Hc'|]. split; [exact Hpl'|].
    rewrite Ha' in Hf2, He2. subst w1.
    cbn [app clearLog with_effects with_app appSubscription appIsConnecting effects]
      in Hf2, He2, He'.
    rewrite Ha in Hf2, He2. rewrite He' in Hf2, He2. cbn [app] in Hf2, He2.
    assert (Hpeers : effects (snd (updatePeersList (clearLog w'))) =
                     effects (snd (updatePeersList (clearLog w2)))).
    { unfold updatePeersList. step. rewrite Hs2. reflexivity. }
    assert (Hpu : exists peers ls,
              effects (snd (updatePeersList (clearLog w'))) =
              map (fun l => PeersUpdate l peers) ls).
    { unfold updatePeersList. step. eauto. }
    destruct Hpu as (peers & ls & Hpu). rewrite <- Hpeers. rewrite Hpu in Hf2, He2 |- *.
    rewrite List.app_nil_l in Hf2, He2.
    split.
    - rewrite Hf2. cbn [existsb tellsAppConnected orb].
      rewrite existsb_app, (proj2 (replay_connectionStatus _ _ _ _ _ _)),
        (proj2 (replay_peersUpdate _ _ _)). unfold appSubscribed.
      destruct (existsb _ (connectionListeners (service w))); reflexivity.
    - rewrite He2. cbn [flat_map appToast Datatypes.app]. rewrite flat_map_app,
        (proj1 (replay_connectionStatus _ _ _ _ _ _)), (proj1 (replay_peersUpdate _ _ _)).
      reflexivity. }
  subst failed opened.
  destruct (Hopened w eq_refl eq_refl) as (w1 & Hrun1 & Hc1 & Hpl1 & Hf1 & _).
  destruct (Hopened (clearLog w) eq_refl eq_refl) as (w2 & Hrun2 & Hc2 & Hpl2 & _ & He2).
  unfold trace. rewrite (Hfailed w eq_refl eq_refl), (Hfailed (clearLog w) eq_refl eq_refl).
  rewrite Hrun1, Hrun2. cbn [fst snd].
  split; [reflexivity|]. split; [reflexivity|]. split; [reflexivity|].
  split; [reflexivity|]. split; [reflexivity|].
  split; [rewrite Hc1; apply map_get_set_eq|].
  split; [|exact Hf1].
  rewrite He2. cbn [effects clearLog with_effects app].
  unfold updatePeersList. step. rewrite Hc1, Hc2, Hpl1, Hpl2. reflexivity.
Qed.

Lemma handleConnect_other_peer_witness :
  trace (handleConnect (Failed "Could not connect to peer") "bob-id") Sample.idle =
    [Dial "bob-id"; ToastError "Connection failed: Could not connect to peer"] /\
  appIsConnecting (app (snd (handleConnect Opened "bob-id" Sample.idle))) = false.
Proof.
  pose proof (handleConnect_other_peer "bob-id" "Could not connect to peer" Sample.idle)
    as H.
  destruct H as (_ & Hfailed & _ & _ & _ & _ & _ & Hflag).
  - vm_compute. eauto.
  - reflexivity.
  - split; [exact Hfailed|exact Hflag].
Defined.

(* --------------------------------------------------------------------- *)
(*  File icons                                                            *)
(* --------------------------------------------------------------------- *)

Lemma split_without_dot (e : string) :
  Forall (fun c => c <> "."%char) (list_ascii_of_string e) ->
  FileIcon.split e = [e].
Proof.
  induction e as [|c e IH]; intros Hno; [reflexivity|].
  cbn [list_ascii_of_string] in Hno. inversion Hno as [|? ? Hc Hrest]; subst.
  cbn [FileIcon.split]. rewrite (proj2 (Ascii.eqb_neq c "."%char) Hc).
  rewrite IH by exact Hrest. reflexivity.
Qed.

Lemma split_last_piece (stem e : string) :
  Forall (fun c => c <> "."%char) (list_ascii_of_string e) ->
  exists piece pieces, FileIcon.split (stem +:+ "." +:+ e) = (piece :: pieces) ++ [e].
Proof.
  intros Hno. induction stem as [|c stem (piece & pieces & IH)].
  - exists EmptyString, []. 
    change ("" +:+ "." +:+ e) with (String "."%char e).
    cbn [FileIcon.split]. rewrite Ascii.eqb_refl.
    rewrite split_without_dot by exact Hno. reflexivity.
  - change (String c stem +:+ "." +:+ e) with (String c (stem +:+ "." +:+ e)).
    cbn [FileIcon.split]. rewrite IH.
    destruct (Ascii.eqb c "."%char).
    + exists EmptyString, (piece :: pieces). reflexivity.
    + exists (String c piece), pieces. reflexivity.
Qed.

(** X25: the icon of a file is decided by what follows the last dot of
    its name, without regard to case; a name with no dot at all counts as
    its own extension. *)
Theorem fileIcon_by_last_extension (stem e : string) :
  FileIcon.isAscii (stem +:+ "." +:+ e) ->
  Forall (fun c => c <> "."%char) (list_ascii_of_string e) ->
  FileIcon.extension (stem +:+ "." +:+ e) = FileIcon.toLowerCase e /\
  FileIcon.FileIcon (stem +:+ "." +:+ e) = FileIcon.getIcon (FileIcon.toLowerCase e) /\
  FileIcon.FileIcon e = FileIcon.getIcon (FileIcon.toLowerCase e).
Proof.
  intros _ Hno.
  assert (Hext : FileIcon.extension (stem +:+ "." +:+ e) = FileIcon.toLowerCase e).
  { unfold FileIcon.extension.
    destruct (split_last_piece stem e Hno) as (piece & pieces & ->).
    rewrite List.last_last. reflexivity. }
  split; [exact Hext|]. split.
  - unfold FileIcon.FileIcon. rewrite Hext. reflexivity.
  - unfold FileIcon.FileIcon, FileIcon.extension.
    rewrite split_without_dot by exact Hno. reflexivity.
Qed.

Lemma fileIcon_by_last_extension_witness :
  FileIcon.FileIcon "backup.tar.GZ" = FileIcon.FileArchive.
Proof.
  apply (fileIcon_by_last_extension "backup.tar" "GZ").
  - repeat constructor.
  - repeat constructor; discriminate.
Defined.
